(** * NanoClawbster: the IPC mailbox, its authorization rules and the
      group registry

    A shallow embedding of
      - [src/ipc.ts]            ([startIpcWatcher], [processTaskIpc]),
      - [src/index.ts]          ([registerGroup] and the registry file,
                                 [onInboundMessage]),
      - [container/agent-runner/src/ipc-mcp-stdio.ts]
                                ([writeIpcFile], the [schedule_task] tool),
      - [src/channels/discord.ts]
                                (chat JIDs, the attachments of an incoming
                                 message, the sends of [sendMessage]),
    together with the small part of the JavaScript runtime these functions
    rely on ([parseInt], [Date], [path.basename], [path.join]).

    Stateful code is written in a state-and-exception monad over a [World]
    that holds the file system, the task store, the registered groups, the
    clock, the log and the trace of what the process does: calls through
    [IpcDeps], child processes, operations on files, [process.exit].
    The constants of [config.ts], the cron library, the outcome of child
    processes, what they write to the disk, and the reachability of chats
    are parameters ([Config], [Host]). *)

From stdpp Require Import base option list strings pretty gmap.
From Stdlib Require Import ZArith Ascii String Lia Sorted.

Local Open Scope string_scope.
Local Open Scope Z_scope.

(* ===================================================================== *)
(** * The JavaScript runtime *)
(* ===================================================================== *)

Module JS.

(** ** Strings *)

(** [a && ...] on an optional string field: [undefined] and [""] are
    falsy, every other string is truthy. *)
Definition truthy (o : option string) : bool :=
  match o with
  | Some s => negb (String.eqb s "")
  | None => false
  end.

(** [a || b] on an optional string field. *)
Definition orElse (o : option string) (dflt : string) : string :=
  match o with
  | Some s => if String.eqb s "" then dflt else s
  | None => dflt
  end.

Fixpoint startsWith (pre s : string) : bool :=
  match pre, s with
  | EmptyString, _ => true
  | String a pre', String b s' => Ascii.eqb a b && startsWith pre' s'
  | String _ _, EmptyString => false
  end.

Fixpoint rev_string (s acc : string) : string :=
  match s with
  | EmptyString => acc
  | String c r => rev_string r (String c acc)
  end.

Definition endsWith (suf s : string) : bool :=
  startsWith (rev_string suf "") (rev_string s "").

(** [s.includes(sub)] *)
Fixpoint includes (sub s : string) : bool :=
  startsWith sub s ||
  match s with
  | EmptyString => false
  | String _ r => includes sub r
  end.

(** [s.split(sep)] for a one-character separator. *)
Fixpoint split (sep : ascii) (s : string) : list string :=
  match s with
  | EmptyString => [EmptyString]
  | String c r =>
      if Ascii.eqb c sep then EmptyString :: split sep r
      else match split sep r with
           | x :: xs => String c x :: xs
           | [] => [String c EmptyString]
           end
  end.

(** [xs.join(sep)] *)
Fixpoint join (sep : string) (xs : list string) : string :=
  match xs with
  | [] => ""
  | [x] => x
  | x :: rest => x +:+ sep +:+ join sep rest
  end.

Definition string_filter (p : ascii -> bool) : string -> string :=
  fix go s :=
    match s with
    | EmptyString => EmptyString
    | String c r => if p c then String c (go r) else go r
    end.

Definition string_forallb (p : ascii -> bool) : string -> bool :=
  fix go s :=
    match s with
    | EmptyString => true
    | String c r => p c && go r
    end.

Definition code (c : ascii) : Z := Z.of_N (N_of_ascii c).

Definition isDigit (c : ascii) : bool := (48 <=? code c) && (code c <=? 57).
Definition isLower (c : ascii) : bool := (97 <=? code c) && (code c <=? 122).
Definition isUpper (c : ascii) : bool := (65 <=? code c) && (code c <=? 90).
Definition isHexLower (c : ascii) : bool :=
  isDigit c || ((97 <=? code c) && (code c <=? 102)).

(** One white-space character at the head of a string, and what
    follows it.  Strings are sequences of UTF-8 bytes; the characters
    are those of the ECMAScript WhiteSpace and LineTerminator classes:
    TAB, LF, VT, FF, CR, SP, U+00A0, U+1680, U+2000 to U+200A, U+2028,
    U+2029, U+202F, U+205F, U+3000 and U+FEFF. *)
Definition skipWhite (s : string) : option string :=
  match s with
  | String c r =>
      if (code c =? 32) || ((9 <=? code c) && (code c <=? 13)) then Some r
      else
        match r with
        | String c2 r2 =>
            if (code c =? 194) && (code c2 =? 160) then Some r2
            else
              match r2 with
              | String c3 r3 =>
                  if (code c =? 225) && (code c2 =? 154) && (code c3 =? 128)
                  then Some r3
                  else if (code c =? 226) && (code c2 =? 128)
                          && (((128 <=? code c3) && (code c3 <=? 138))
                              || (code c3 =? 168) || (code c3 =? 169)
                              || (code c3 =? 175))
                  then Some r3
                  else if (code c =? 226) && (code c2 =? 129) && (code c3 =? 159)
                  then Some r3
                  else if (code c =? 227) && (code c2 =? 128) && (code c3 =? 128)
                  then Some r3
                  else if (code c =? 239) && (code c2 =? 187) && (code c3 =? 191)
                  then Some r3
                  else None
              | EmptyString => None
              end
        | EmptyString => None
        end
  | EmptyString => None
  end.

Fixpoint trimStartN (fuel : nat) (s : string) : string :=
  match fuel with
  | O => s
  | S k =>
      match skipWhite s with
      | Some r => trimStartN k r
      | None => s
      end
  end.

Definition trimStart (s : string) : string := trimStartN (String.length s) s.

Fixpoint allWhiteN (fuel : nat) (s : string) : bool :=
  match s, fuel with
  | EmptyString, _ => true
  | _, O => false
  | _, S k =>
      match skipWhite s with
      | Some r => allWhiteN k r
      | None => false
      end
  end.

Fixpoint trimEnd (s : string) : string :=
  match s with
  | EmptyString => EmptyString
  | String c r =>
      if allWhiteN (String.length s) s then EmptyString
      else String c (trimEnd r)
  end.

Definition trim (s : string) : string := trimEnd (trimStart s).

(** ** [parseInt(s, 10)]

    [None] stands for [NaN].  The result is the mathematical integer;
    the code only compares it with [0] and adds it to [Date.now()]
    before a range check at [8.64e15 < 2^53], and below [2^53] the
    double is the integer itself, so rounding never changes a branch. *)

Definition digitVal (c : ascii) : option Z :=
  if isDigit c then Some (code c - 48) else None.

Fixpoint digitsPrefix (s : string) (acc : option Z) : option Z :=
  match s with
  | EmptyString => acc
  | String c r =>
      match digitVal c with
      | Some v => digitsPrefix r (Some (10 * default 0 acc + v))
      | None => acc
      end
  end.

Definition parseInt10 (s : string) : option Z :=
  let s := trimStart s in
  let '(sign, body) :=
    match s with
    | String "-" r => (-1, r)
    | String "+" r => (1, r)
    | _ => (1, s)
    end in
  match digitsPrefix body None with
  | Some n => Some (sign * n)
  | None => None
  end.

(** ** [Date]

    A time value is a number of milliseconds since the epoch; [None]
    is [NaN], the time value of an Invalid Date. *)

Definition msPerDay : Z := 86400000.
Definition msPerHour : Z := 3600000.
Definition maxTime : Z := 8640000000000000.

Definition TimeClip (t : Z) : option Z :=
  if Z.abs t <=? maxTime then Some t else None.

Definition isLeap (y : Z) : bool :=
  (y mod 4 =? 0) && (negb (y mod 100 =? 0) || (y mod 400 =? 0)).

(** [m] counts from 0, as in [MakeDay]. *)
Definition daysInMonth (y m : Z) : Z :=
  if m =? 1 then (if isLeap y then 29 else 28)
  else if (m =? 3) || (m =? 5) || (m =? 8) || (m =? 10) then 30
  else 31.

Fixpoint daysBeforeMonth (y : Z) (m : nat) : Z :=
  match m with
  | O => 0
  | S k => daysBeforeMonth y k + daysInMonth y (Z.of_nat k)
  end.

Definition DayFromYear (y : Z) : Z :=
  365 * (y - 1970) + (y - 1969) / 4 - (y - 1901) / 100 + (y - 1601) / 400.

Definition MakeDay (year month date : Z) : Z :=
  let ym := year + month / 12 in
  let mn := month mod 12 in
  DayFromYear ym + daysBeforeMonth ym (Z.to_nat mn) + date - 1.

Definition MakeTime (h m s ms : Z) : Z :=
  h * msPerHour + m * 60000 + s * 1000 + ms.

Definition MakeDate (day time : Z) : Z := day * msPerDay + time.

(** Year, month (from 1) and day of the month of a day number. *)
Definition civil (day : Z) : Z * Z * Z :=
  let z := day + 719468 in
  let era := z / 146097 in
  let doe := z - era * 146097 in
  let yoe := (doe - doe / 1460 + doe / 36524 - doe / 146096) / 365 in
  let doy := doe - (365 * yoe + yoe / 4 - yoe / 100) in
  let mp := (5 * doy + 2) / 153 in
  let d := doy - (153 * mp + 2) / 5 + 1 in
  let m := if mp <? 10 then mp + 3 else mp - 9 in
  let y := yoe + era * 400 + (if m <=? 2 then 1 else 0) in
  (y, m, d).

(** A time zone gives, for a local wall-clock time value, the offset
    to subtract to reach UTC ([LocalTZA(t, false)]). *)
Definition Zone : Type := Z -> Z.

Definition UTC_zone : Zone := fun _ => 0.

Definition weekDay (day : Z) : Z := (day + 4) mod 7.

Definition sundayOnOrAfter (day : Z) : Z := day + (7 - weekDay day) mod 7.

(** US Pacific time under the rules in force since 2007: the clocks go
    from 02:00 to 03:00 on the second Sunday of March and from 02:00
    back to 01:00 on the first Sunday of November.  A wall-clock time
    that is skipped in March (02:00 to 03:00) or occurs twice in
    November (01:00 to 02:00) is read with the offset in force before
    the change, as [LocalTZA(t, false)] prescribes: standard time in
    March, daylight time in November. *)
Definition America_Los_Angeles : Zone := fun t =>
  let '(y, _, _) := civil (t / msPerDay) in
  let start := MakeDate (sundayOnOrAfter (MakeDay y 2 8)) (3 * msPerHour) in
  let stop := MakeDate (sundayOnOrAfter (MakeDay y 10 1)) (2 * msPerHour) in
  if (start <=? t) && (t <? stop) then -7 * msPerHour else -8 * msPerHour.

Definition toUTC (tz : Zone) (t : Z) : Z := t - tz t.

Fixpoint fixedDigits (w : nat) (n : Z) (acc : string) : string :=
  match w with
  | O => acc
  | S k =>
      fixedDigits k (n / 10)
        (String (ascii_of_N (Z.to_N (48 + n mod 10))) acc)
  end.

(** [Date.prototype.toISOString]; [None] is the [RangeError] thrown
    on an Invalid Date. *)
Definition toISOString (tv : option Z) : option string :=
  match tv with
  | None => None
  | Some t =>
      let day := t / msPerDay in
      let ms := t mod msPerDay in
      let '(y, m, d) := civil day in
      let year :=
        if (0 <=? y) && (y <=? 9999) then fixedDigits 4 y ""
        else (if y <? 0 then "-" else "+") +:+ fixedDigits 6 (Z.abs y) "" in
      Some (year +:+ "-" +:+ fixedDigits 2 m "" +:+ "-" +:+ fixedDigits 2 d ""
            +:+ "T" +:+ fixedDigits 2 (ms / msPerHour) ""
            +:+ ":" +:+ fixedDigits 2 (ms / 60000 mod 60) ""
            +:+ ":" +:+ fixedDigits 2 (ms / 1000 mod 60) ""
            +:+ "." +:+ fixedDigits 3 (ms mod 1000) "" +:+ "Z")
  end.

Fixpoint digitsN (n : nat) (s : string) (acc : Z) : option (Z * string) :=
  match n with
  | O => Some (acc, s)
  | S k =>
      match s with
      | String c r =>
          match digitVal c with
          | Some v => digitsN k r (10 * acc + v)
          | None => None
          end
      | EmptyString => None
      end
  end.

Definition expect (c : ascii) (s : string) : option string :=
  match s with
  | String c' r => if Ascii.eqb c c' then Some r else None
  | EmptyString => None
  end.

(** The end of a date-time form: nothing (local time) or [Z] (UTC). *)
Definition isoZone (tz : Zone) (local : Z) (s : string) : option Z :=
  if String.eqb s "" then Some (toUTC tz local)
  else if String.eqb s "Z" then Some local
  else None.

(** The ECMAScript date-time string format, for the forms
    [YYYY-MM-DD], [YYYY-MM-DDTHH:mm], [YYYY-MM-DDTHH:mm:ss] and
    [YYYY-MM-DDTHH:mm:ss.sss], the last three with an optional [Z].
    A date-only form is UTC; a date-time form without offset is local
    time.  [None]: the string is not of these forms. *)
Definition parseIso (tz : Zone) (s : string) : option Z :=
  '(y, s) ← digitsN 4 s 0;
  s ← expect "-" s;
  '(mo, s) ← digitsN 2 s 0;
  s ← expect "-" s;
  '(d, s) ← digitsN 2 s 0;
  if negb ((1 <=? mo) && (mo <=? 12) && (1 <=? d) && (d <=? daysInMonth y (mo - 1)))
  then None
  else
    let day := MakeDay y (mo - 1) d in
    match s with
    | EmptyString => Some (MakeDate day 0)
    | String c s =>
        if negb (Ascii.eqb c "T") then None else
        '(h, s) ← digitsN 2 s 0;
        s ← expect ":" s;
        '(mi, s) ← digitsN 2 s 0;
        if negb ((h <=? 23) && (mi <=? 59)) then None else
        match s with
        | String ":" s =>
            '(sec, s) ← digitsN 2 s 0;
            if negb (sec <=? 59) then None else
            match s with
            | String "." s =>
                '(ms, s) ← digitsN 3 s 0;
                isoZone tz (MakeDate day (MakeTime h mi sec ms)) s
            | _ => isoZone tz (MakeDate day (MakeTime h mi sec 0)) s
            end
        | _ => isoZone tz (MakeDate day (MakeTime h mi 0 0)) s
        end
    end.

(** [new Date(s).getTime()].  Strings outside the standard format are
    left to the engine's own fallback parser [legacy]. *)
Definition Date_parse (tz : Zone) (legacy : string -> option Z)
    (s : string) : option Z :=
  match parseIso tz s with
  | Some t => TimeClip t
  | None => legacy s
  end.

(** [new Date(t)] for a number [t]. *)
Definition Date_of_number (t : Z) : option Z := TimeClip t.

End JS.

(* ===================================================================== *)
(** * [path] (POSIX) *)
(* ===================================================================== *)

Module Path.

Definition slash : ascii := "/"%char.

Fixpoint dropTrailingEmpty (segs : list string) : list string :=
  match segs with
  | [] => []
  | x :: r =>
      match dropTrailingEmpty r with
      | [] => if String.eqb x "" then [] else [x]
      | r' => x :: r'
      end
  end.

(** [path.basename(p)]: trailing separators are ignored, then the part
    after the last separator is returned. *)
Definition basename (p : string) : string :=
  List.last (dropTrailingEmpty (JS.split slash p)) "".

(** One step of [normalizeString]; [res] is the stack of segments kept
    so far, innermost first. *)
Definition normStep (allowAboveRoot : bool) (res : list string)
    (seg : string) : list string :=
  if String.eqb seg "" || String.eqb seg "." then res
  else if String.eqb seg ".." then
    match res with
    | x :: r =>
        if String.eqb x ".." then (if allowAboveRoot then ".." :: res else res)
        else r
    | [] => if allowAboveRoot then [".."] else []
    end
  else seg :: res.

Definition normalize (p : string) : string :=
  if String.eqb p "" then "." else
  let isAbsolute := JS.startsWith "/" p in
  let trailing := JS.endsWith "/" p in
  let body :=
    JS.join "/" (List.rev (fold_left (normStep (negb isAbsolute))
                                     (JS.split slash p) [])) in
  if String.eqb body "" then
    (if isAbsolute then "/" else if trailing then "./" else ".")
  else (if isAbsolute then "/" else "") +:+ body
       +:+ (if trailing then "/" else "").

(** [path.join(...args)] *)
Definition join (args : list string) : string :=
  match List.filter (fun a => negb (String.eqb a "")) args with
  | [] => "."
  | parts => normalize (JS.join "/" parts)
  end.

End Path.

(* ===================================================================== *)
(** * Data model *)
(* ===================================================================== *)

(** [RegisteredGroup] ([types.ts]); the fields are those written by the
    [register_group] handler.  Container overrides are kept as an opaque
    serialized document. *)
Module RegisteredGroup.
Record t : Type := mk {
  name : string;
  folder : string;
  trigger : string;
  added_at : string;
  containerConfig : option string;
  requiresTrigger : option bool
}.
End RegisteredGroup.

(** A row of the task store, as [createTask] receives it. *)
Module Task.
Record t : Type := mk {
  id : string;
  group_folder : string;
  chat_jid : string;
  prompt : string;
  schedule_type : string;
  schedule_value : string;
  context_mode : string;
  next_run : option string;
  status : string;
  created_at : string
}.

Definition with_status (s : string) (x : t) : t :=
  mk (id x) (group_folder x) (chat_jid x) (prompt x) (schedule_type x)
     (schedule_value x) (context_mode x) (next_run x) s (created_at x).
End Task.

(** An element of a JSON array: a string, or anything else. *)
Inductive JsonItem : Type :=
| JString (s : string)
| JOther.

(** The parsed content of a request file: one JSON object, its fields
    of the types [processTaskIpc] declares for them.  A field that is
    absent (or, for [files], not an array) is [None].  [groupFolder],
    [isMain], [createdBy] and [sender] are the identity the writer
    claims. *)
Module IpcData.
Record t : Type := mk {
  type : string;
  (* messages *)
  chatJid : option string;
  text : option string;
  files : option (list JsonItem);
  sender : option string;
  (* tasks *)
  taskId : option string;
  prompt : option string;
  schedule_type : option string;
  schedule_value : option string;
  context_mode : option string;
  targetJid : option string;
  branch : option string;
  jid : option string;
  name : option string;
  folder : option string;
  trigger : option string;
  requiresTrigger : option bool;
  containerConfig : option string;
  (* claimed identity *)
  groupFolder : option string;
  isMain : option bool;
  createdBy : option string;
  timestamp : option string
}.

Definition empty (ty : string) : t :=
  mk ty None None None None None None None None None None None None None
     None None None None None None None None.
End IpcData.

(* ===================================================================== *)
(** * The file system *)
(* ===================================================================== *)

Module Fs.

Inductive Contents : Type :=
| Json (d : IpcData.t)          (* a JSON object *)
| Unparseable                   (* text on which [JSON.parse] throws *)
| BuildResult (success : bool)  (* [.build-result.json] *)
| Blob.                         (* any other file *)

Inductive Node : Type :=
| Dir
| File (c : Contents).

(** Absolute, normalized paths with their nodes. *)
Definition t : Type := list (string * Node).

Inductive Errno : Type := ENOENT | EISDIR | ENOTDIR.

Definition lookup (p : string) (fs : t) : option Node :=
  snd <$> List.find (fun e => String.eqb (fst e) p) fs.

Definition existsSync (p : string) (fs : t) : bool :=
  match lookup p fs with Some _ => true | None => false end.

Definition isDirectory (p : string) (fs : t) : bool :=
  match lookup p fs with Some Dir => true | _ => false end.

Fixpoint stripPrefix (pre s : string) : option string :=
  match pre, s with
  | EmptyString, _ => Some s
  | String a pre', String b s' =>
      if Ascii.eqb a b then stripPrefix pre' s' else None
  | String _ _, EmptyString => None
  end.

(** The name under which [p] appears in a listing of directory [d]. *)
Definition childName (d p : string) : option string :=
  match stripPrefix (d +:+ "/") p with
  | Some rest =>
      if String.eqb rest "" || JS.includes "/" rest then None else Some rest
  | None => None
  end.

(** [strcmp(a, b) <= 0]: the order of the bytes. *)
Fixpoint nameLe (a b : string) : bool :=
  match a, b with
  | EmptyString, _ => true
  | String _ _, EmptyString => false
  | String x a', String y b' =>
      if JS.code x <? JS.code y then true
      else if JS.code x =? JS.code y then nameLe a' b'
      else false
  end.

Fixpoint insertName (f : string) (names : list string) : list string :=
  match names with
  | [] => [f]
  | g :: rest => if nameLe f g then f :: names else g :: insertName f rest
  end.

Definition sortNames (names : list string) : list string :=
  fold_right insertName [] names.

Definition notDots (f : string) : bool :=
  negb (String.eqb f ".") && negb (String.eqb f "..").

(** [fs.readdirSync(d)].  Node lists a directory through libuv's
    [scandir], which leaves out the entries [.] and [..] and sorts the
    names with [strcmp]. *)
Definition readdirSync (d : string) (fs : t) : Errno + list string :=
  match lookup d fs with
  | Some Dir =>
      inr (sortNames
             (List.filter notDots (omap (fun e => childName d (fst e)) fs)))
  | Some (File _) => inl ENOTDIR
  | None => inl ENOENT
  end.

Definition readFileSync (p : string) (fs : t) : Errno + Contents :=
  match lookup p fs with
  | Some (File c) => inr c
  | Some Dir => inl EISDIR
  | None => inl ENOENT
  end.

Definition remove (p : string) (fs : t) : t :=
  List.filter (fun e => negb (String.eqb (fst e) p)) fs.

Definition unlinkSync (p : string) (fs : t) : Errno + t :=
  match lookup p fs with
  | Some (File _) => inr (remove p fs)
  | Some Dir => inl EISDIR
  | None => inl ENOENT
  end.

(** Moves [src], and what lies below it, to [dst]. *)
Definition renameSync (src dst : string) (fs : t) : Errno + t :=
  match lookup src fs with
  | None => inl ENOENT
  | Some _ =>
      inr (List.map
             (fun e =>
                if String.eqb (fst e) src then (dst, snd e)
                else match stripPrefix (src +:+ "/") (fst e) with
                     | Some rest => (dst +:+ "/" +:+ rest, snd e)
                     | None => e
                     end)
             (remove dst fs))
  end.

Fixpoint prefixes (acc : string) (segs : list string) : list string :=
  match segs with
  | [] => []
  | s :: r => let p := acc +:+ "/" +:+ s in p :: prefixes p r
  end.

Definition ancestors (d : string) : list string :=
  prefixes "" (List.filter (fun s => negb (String.eqb s ""))
                           (JS.split Path.slash d)).

Definition mkdirOne (acc : Errno + t) (p : string) : Errno + t :=
  match acc with
  | inl e => inl e
  | inr fs =>
      match lookup p fs with
      | Some Dir => inr fs
      | Some (File _) => inl ENOTDIR
      | None => inr (fs ++ [(p, Dir)])%list
      end
  end.

(** [fs.mkdirSync(d, { recursive: true })] *)
Definition mkdirSync (d : string) (fs : t) : Errno + t :=
  fold_left mkdirOne (ancestors d) (inr fs).

Definition dirname (p : string) : string :=
  match List.removelast (JS.split Path.slash p) with
  | [] => "."
  | segs => let d := JS.join "/" segs in if String.eqb d "" then "/" else d
  end.

Definition writeFileSync (p : string) (c : Contents) (fs : t) : Errno + t :=
  match lookup p fs with
  | Some Dir => inl EISDIR
  | Some (File _) =>
      inr (List.map (fun e => if String.eqb (fst e) p then (p, File c) else e) fs)
  | None =>
      if isDirectory (dirname p) fs then inr (fs ++ [(p, File c)])%list
      else inl ENOENT
  end.

End Fs.

(* ===================================================================== *)
(** * The host process: world, configuration, effects *)
(* ===================================================================== *)

Inductive Level : Type := debug | info | warn | error.

(** What the process does to its surroundings, in order: calls through
    [IpcDeps], child processes, operations on individual files, and
    [process.exit]. *)
Inductive Call : Type :=
| SendMessage (jid text : string) (files : option (list string))
| RegisterGroup (jid : string) (group : RegisteredGroup.t)
| SyncGroupMetadata (force : bool)
| GetAvailableGroups
| WriteGroupsSnapshot (groupFolder : string) (isMain : bool)
    (registeredJids : list string)
| ExecSync (cmd : string) (cwd : option string)
| ReadFile (path : string)
| Unlink (path : string)
| Rename (src dst : string)
| WriteFile (path : string)
| Mkdir (path : string)
| ProcessExit (code : Z).

Record World : Type := mkWorld {
  disk : Fs.t;
  tasks : list Task.t;                         (* the task store of [db.ts] *)
  registered : gmap string RegisteredGroup.t;  (* [deps.registeredGroups()], by JID *)
  clock : Z;                                   (* [Date.now()] *)
  rand : string;    (* [Math.random().toString(36).slice(2, 8)] *)
  logged : list (Level * string);
  calls : list Call
}.

Definition set_disk (d : Fs.t) (w : World) : World :=
  mkWorld d (tasks w) (registered w) (clock w) (rand w) (logged w) (calls w).
Definition set_tasks (ts : list Task.t) (w : World) : World :=
  mkWorld (disk w) ts (registered w) (clock w) (rand w) (logged w) (calls w).
Definition add_log (l : Level) (msg : string) (w : World) : World :=
  mkWorld (disk w) (tasks w) (registered w) (clock w) (rand w)
          (logged w ++ [(l, msg)])%list (calls w).
Definition add_call (c : Call) (w : World) : World :=
  mkWorld (disk w) (tasks w) (registered w) (clock w) (rand w) (logged w)
          (calls w ++ [c])%list.

(** [config.ts] is not among the sources; its constants are taken as
    parameters.  [moduleDir] is [import.meta.dirname] of [ipc.ts]. *)
Record Config : Type := mkConfig {
  DATA_DIR : string;
  MAIN_GROUP_FOLDER : string;
  TIMEZONE : JS.Zone;
  moduleDir : string
}.

(** What the model leaves to the surroundings of the process. *)
Record Host : Type := mkHost {
  (** the time zone the process runs in, which [Date] uses for local time *)
  localZone : JS.Zone;
  (** the engine's parser for date strings outside the standard format *)
  legacyDateParse : string -> option Z;
  (** [CronExpressionParser.parse(value, { tz })]: [None] when it throws,
      else the expression's [next()] as a function of the current time
      ([None] when [next()] throws) *)
  cronParse : string -> option JS.Zone -> option (Z -> option Z);
  (** the outcome of a child process given what was done before it:
      its output, or [None] when [execSync] throws *)
  execResult : list Call -> string -> option string;
  (** what a child process run in directory [cwd] leaves on the disk,
      whether it succeeds or not *)
  execWrites : list Call -> string -> option string -> Fs.t -> Fs.t;
  (** whether [deps.sendMessage] fails for a chat *)
  sendFails : string -> bool;
  (** [isValidGroupFolder] of [group-folder.ts], not among the sources *)
  isValidGroupFolder : string -> bool
}.

Inductive Error : Type :=
| SyntaxError
| RangeError
| TypeError (msg : string)
| FsError (e : Fs.Errno) (path : string)
| ExecError (cmd : string)
| SendError (jid : string).

(** The result of running a piece of the process: it returns, it throws,
    or the process has exited. *)
Inductive Outcome (A : Type) : Type :=
| Ret (a : A) (w : World)
| Throw (e : Error) (w : World)
| Exit (code : Z) (w : World).
Arguments Ret {A} a w.
Arguments Throw {A} e w.
Arguments Exit {A} code w.

Definition world_of {A} (o : Outcome A) : World :=
  match o with Ret _ w | Throw _ w | Exit _ w => w end.

Definition M (A : Type) : Type := World -> Outcome A.

Definition ret {A} (a : A) : M A := fun w => Ret a w.

Definition bind {A B} (m : M A) (k : A -> M B) : M B := fun w =>
  match m w with
  | Ret a w' => k a w'
  | Throw e w' => Throw e w'
  | Exit c w' => Exit c w'
  end.

Notation "x <- m ;; k" := (bind m (fun x => k))
  (at level 91, m at next level, right associativity).
Notation "m ;;; k" := (bind m (fun _ => k))
  (at level 91, right associativity).

Definition throw {A} (e : Error) : M A := fun w => Throw e w.

(** [try { m } catch (e) { h e }] *)
Definition tryCatch {A} (m : M A) (h : Error -> M A) : M A := fun w =>
  match m w with
  | Throw e w' => h e w'
  | o => o
  end.

(** [try { m } catch { }] *)
Definition attempt (m : M unit) : M unit := tryCatch m (fun _ => ret tt).

Fixpoint forEach {A} (xs : list A) (body : A -> M unit) : M unit :=
  match xs with
  | [] => ret tt
  | x :: r => body x ;;; forEach r body
  end.

Definition logger (l : Level) (msg : string) : M unit :=
  fun w => Ret tt (add_log l msg w).

Definition call (c : Call) : M unit := fun w => Ret tt (add_call c w).

Definition process_exit {A} (code : Z) : M A :=
  fun w => Exit code (add_call (ProcessExit code) w).

Definition Date_now : M Z := fun w => Ret (clock w) w.

Definition getDisk : M Fs.t := fun w => Ret (disk w) w.

(** An operation on one file: recorded, then applied to the disk. *)
Definition fsQuery {A} (c : Call) (path : string)
    (op : Fs.t -> Fs.Errno + A) : M A := fun w =>
  match op (disk w) with
  | inr a => Ret a (add_call c w)
  | inl e => Throw (FsError e path) (add_call c w)
  end.

Definition fsUpdate (c : Call) (path : string)
    (op : Fs.t -> Fs.Errno + Fs.t) : M unit := fun w =>
  match op (disk w) with
  | inr d => Ret tt (set_disk d (add_call c w))
  | inl e => Throw (FsError e path) (add_call c w)
  end.

Definition readFileSync (p : string) : M Fs.Contents :=
  fsQuery (ReadFile p) p (Fs.readFileSync p).
Definition unlinkSync (p : string) : M unit :=
  fsUpdate (Unlink p) p (Fs.unlinkSync p).
Definition renameSync (src dst : string) : M unit :=
  fsUpdate (Rename src dst) src (Fs.renameSync src dst).
Definition mkdirSync (p : string) : M unit :=
  fsUpdate (Mkdir p) p (Fs.mkdirSync p).
Definition writeFileSync (p : string) (c : Fs.Contents) : M unit :=
  fsUpdate (WriteFile p) p (Fs.writeFileSync p c).
Definition existsSync (p : string) : M bool :=
  fun w => Ret (Fs.existsSync p (disk w)) w.
Definition readdirSync (d : string) : M (list string) := fun w =>
  match Fs.readdirSync d (disk w) with
  | inr l => Ret l w
  | inl e => Throw (FsError e d) w
  end.

(** [JSON.parse(fs.readFileSync(p, 'utf-8'))] *)
Definition readJson (p : string) : M IpcData.t :=
  c <- readFileSync p ;;
  match c with
  | Fs.Json d => ret d
  | _ => throw SyntaxError
  end.

(** [new Date(tv).toISOString()] *)
Definition toISOString (tv : option Z) : M string :=
  match JS.toISOString tv with
  | Some s => ret s
  | None => throw RangeError
  end.

(** ** The task store ([db.ts]) *)

(** Modelled from the spec: [db.ts] is not among the sources.
    [getTaskById] returns the task record with that id, if any. *)
Definition getTaskById (id : string) (w : World) : option Task.t :=
  List.find (fun t => String.eqb (Task.id t) id) (tasks w).

(** Modelled from the spec: [db.ts] is not among the sources.
    [createTask] adds one task record to the store. *)
Definition createTask (t : Task.t) : M unit :=
  fun w => Ret tt (set_tasks (tasks w ++ [t])%list w).

(** Modelled from the spec: [db.ts] is not among the sources.
    [updateTask(id, { status })] changes the status of the task with
    that id and nothing else. *)
Definition updateTask_status (id status : string) : M unit := fun w =>
  Ret tt (set_tasks
            (List.map (fun t => if String.eqb (Task.id t) id
                                then Task.with_status status t else t)
                      (tasks w)) w).

(** Modelled from the spec: [db.ts] is not among the sources.
    [deleteTask] removes the task with that id; it fires no more. *)
Definition deleteTask (id : string) : M unit := fun w =>
  Ret tt (set_tasks
            (List.filter (fun t => negb (String.eqb (Task.id t) id)) (tasks w)) w).

(* ===================================================================== *)
(** * [src/ipc.ts] *)
(* ===================================================================== *)

Section Ipc.

Context (cfg : Config) (host : Host).

Definition ipcBaseDir : string := Path.join [DATA_DIR cfg; "ipc"].

(** [path.resolve(import.meta.dirname, '..')] *)
Definition projectRoot : string := Path.join [moduleDir cfg; ".."].

(** Whether a child process works on the files of the host: [npm] and
    [git] write into the tree they run in, the [docker] commands act on
    the image store of the docker daemon. *)
Definition writesFiles (cmd : string) : bool :=
  negb (JS.startsWith "docker " cmd).

(** The world after a child process: the call is recorded, and the disk
    holds what the child left. *)
Definition afterExec (cmd : string) (cwd : option string) (w : World)
    : World :=
  let w' := add_call (ExecSync cmd cwd) w in
  if writesFiles cmd
  then set_disk (execWrites host (calls w) cmd cwd (disk w)) w'
  else w'.

(** [execSync(cmd, { cwd, ... })] *)
Definition execSync (cmd : string) (cwd : option string) : M string :=
  fun w =>
    match execResult host (calls w) cmd with
    | Some out => Ret out (afterExec cmd cwd w)
    | None => Throw (ExecError cmd) (afterExec cmd cwd w)
    end.

Definition exec_ (cmd : string) (cwd : option string) : M unit :=
  execSync cmd cwd ;;; ret tt.

(** [await deps.sendMessage(jid, text, files)] *)
Definition deps_sendMessage (jid text : string)
    (files : option (list string)) : M unit :=
  call (SendMessage jid text files) ;;;
  (if sendFails host jid then throw (SendError jid) else ret tt).

(** ** [schedule_task] *)

(** The three branches that compute [nextRun].  The result [None]
    is the [break] out of the [switch]; [Some nextRun] goes on to
    [createTask]. *)
Definition computeNextRun (scheduleType schedule_value : string)
    : M (option (option string)) :=
  if String.eqb scheduleType "cron" then
    match cronParse host schedule_value (Some (TIMEZONE cfg)) with
    | Some next =>
        now <- Date_now ;;
        match next now with
        | Some t =>
            match JS.toISOString (JS.TimeClip t) with
            | Some s => ret (Some (Some s))
            | None => logger warn "Invalid cron expression" ;;; ret None
            end
        | None => logger warn "Invalid cron expression" ;;; ret None
        end
    | None => logger warn "Invalid cron expression" ;;; ret None
    end
  else if String.eqb scheduleType "interval" then
    match JS.parseInt10 schedule_value with
    | None => logger warn "Invalid interval" ;;; ret None
    | Some ms =>
        if ms <=? 0 then logger warn "Invalid interval" ;;; ret None
        else
          now <- Date_now ;;
          s <- toISOString (JS.Date_of_number (now + ms)) ;;
          ret (Some (Some s))
    end
  else if String.eqb scheduleType "once" then
    let scheduled :=
      JS.Date_parse (localZone host) (legacyDateParse host) schedule_value in
    match scheduled with
    | None => logger warn "Invalid timestamp" ;;; ret None
    | Some _ => s <- toISOString scheduled ;; ret (Some (Some s))
    end
  else ret (Some None).

Definition schedule_task (data : IpcData.t) (sourceGroup : string)
    (isMain : bool) (registeredGroups : gmap string RegisteredGroup.t)
    : M unit :=
  if JS.truthy (IpcData.prompt data) && JS.truthy (IpcData.schedule_type data)
     && JS.truthy (IpcData.schedule_value data)
     && JS.truthy (IpcData.targetJid data)
  then
    let targetJid := default "" (IpcData.targetJid data) in
    match registeredGroups !! targetJid with
    | None => logger warn "Cannot schedule task: target group not registered"
    | Some targetGroupEntry =>
        let targetFolder := RegisteredGroup.folder targetGroupEntry in
        if negb isMain && negb (String.eqb targetFolder sourceGroup) then
          logger warn "Unauthorized schedule_task attempt blocked"
        else
          let scheduleType := default "" (IpcData.schedule_type data) in
          let schedule_value := default "" (IpcData.schedule_value data) in
          r <- computeNextRun scheduleType schedule_value ;;
          match r with
          | None => ret tt
          | Some nextRun =>
              now <- Date_now ;;
              rnd <- (fun w => Ret (rand w) w) ;;
              let taskId := "task-" +:+ pretty now +:+ "-" +:+ rnd in
              let contextMode :=
                match IpcData.context_mode data with
                | Some m =>
                    if String.eqb m "group" || String.eqb m "isolated"
                    then m else "isolated"
                | None => "isolated"
                end in
              created <- toISOString (JS.Date_of_number now) ;;
              createTask
                (Task.mk taskId targetFolder targetJid
                   (default "" (IpcData.prompt data)) scheduleType
                   schedule_value contextMode nextRun "active" created) ;;;
              logger info "Task created via IPC"
          end
    end
  else ret tt.

(** ** [pause_task], [resume_task], [cancel_task] *)

Definition onOwnedTask (data : IpcData.t) (sourceGroup : string)
    (isMain : bool) (act : string -> M unit) (done denied : string)
    : M unit :=
  if JS.truthy (IpcData.taskId data) then
    let taskId := default "" (IpcData.taskId data) in
    task <- (fun w => Ret (getTaskById taskId w) w) ;;
    match task with
    | Some t =>
        if isMain || String.eqb (Task.group_folder t) sourceGroup then
          act taskId ;;; logger info done
        else logger warn denied
    | None => logger warn denied
    end
  else ret tt.

(** ** [refresh_groups] *)

Definition refresh_groups (sourceGroup : string) (isMain : bool)
    (registeredGroups : gmap string RegisteredGroup.t) : M unit :=
  if isMain then
    logger info "Group metadata refresh requested via IPC" ;;;
    call (SyncGroupMetadata true) ;;;
    call GetAvailableGroups ;;;
    call (WriteGroupsSnapshot sourceGroup true
            (fst <$> map_to_list registeredGroups))
  else logger warn "Unauthorized refresh_groups attempt blocked".

(** ** [register_group] *)

Definition register_group (data : IpcData.t) (isMain : bool) : M unit :=
  if negb isMain then
    logger warn "Unauthorized register_group attempt blocked"
  else if JS.truthy (IpcData.jid data) && JS.truthy (IpcData.name data)
          && JS.truthy (IpcData.folder data) && JS.truthy (IpcData.trigger data)
  then
    let folder := default "" (IpcData.folder data) in
    if negb (isValidGroupFolder host folder) then
      logger warn "Invalid register_group request - unsafe folder name"
    else
      now <- Date_now ;;
      added <- toISOString (JS.Date_of_number now) ;;
      call (RegisterGroup (default "" (IpcData.jid data))
              (RegisteredGroup.mk (default "" (IpcData.name data)) folder
                 (default "" (IpcData.trigger data)) added
                 (IpcData.containerConfig data)
                 (IpcData.requiresTrigger data)))
  else
    logger warn "Invalid register_group request - missing required fields".

(** ** [restart] and [rebuild] *)

Definition restart : M unit :=
  logger info "Restart requested via IPC — rebuilding and exiting for service manager restart" ;;;
  tryCatch
    (exec_ "npm run build" (Some projectRoot) ;;;
     logger info "Build completed successfully before restart")
    (fun _ => logger error "Build failed before restart — restarting with existing compiled code") ;;;
  process_exit 0.

Definition rebuild : M unit :=
  logger info "Rebuild requested via IPC — rebuilding Docker image and restarting" ;;;
  let containerDir := Path.join [moduleDir cfg; ".."; "container"] in
  tryCatch
    (exec_ "docker build -t nanoclawbster-agent:latest ." (Some containerDir) ;;;
     logger info "Docker image rebuild completed successfully" ;;;
     attempt (exec_ "docker image prune -f" None))
    (fun _ => logger error "Docker image rebuild failed — restarting with existing image") ;;;
  attempt (exec_ "npm run build" (Some projectRoot)) ;;;
  process_exit 0.

(** ** [test_container_build] *)

Definition test_container_build (isMain : bool) : M unit :=
  if negb isMain then
    logger warn "Unauthorized test_container_build attempt"
  else
    logger info "Test container build requested from dev workspace" ;;;
    let devContainerDir := Path.join [DATA_DIR cfg; "dev-workspace"; "container"] in
    let resultPath := Path.join [DATA_DIR cfg; "dev-workspace"; ".build-result.json"] in
    tryCatch
      (exec_ "docker build -t nanoclawbster-agent:test ." (Some devContainerDir) ;;;
       attempt (exec_ "docker rmi nanoclawbster-agent:test" None) ;;;
       writeFileSync resultPath (Fs.BuildResult true) ;;;
       logger info "Test container build succeeded")
      (fun _ =>
         writeFileSync resultPath (Fs.BuildResult false) ;;;
         logger error "Test container build failed").

(** ** [pull_and_deploy] *)

(** [/[^a-zA-Z0-9._\-/]/g] keeps exactly these characters. *)
Definition safeRefChar (c : ascii) : bool :=
  JS.isLower c || JS.isUpper c || JS.isDigit c
  || (JS.code c =? 46) || (JS.code c =? 95) || (JS.code c =? 45)
  || (JS.code c =? 47).

(** [/^[0-9a-f]{40}$/] *)
Definition isCommitHash (s : string) : bool :=
  (Z.of_nat (String.length s) =? 40) && JS.string_forallb JS.isHexLower s.

Definition pull_and_deploy (data : IpcData.t) (isMain : bool) : M unit :=
  if negb isMain then logger warn "Unauthorized pull_and_deploy attempt"
  else
    let rawBranch := JS.orElse (IpcData.branch data) "main" in
    let branch := JS.string_filter safeRefChar rawBranch in
    if String.eqb branch "" then
      logger error "Invalid branch name — aborting deploy"
    else
      logger info "Pull and deploy requested via IPC" ;;;
      (* 1. Save current HEAD for rollback *)
      head <- tryCatch
        (out <- execSync "git rev-parse HEAD" (Some projectRoot) ;;
         let previousHead := JS.trim out in
         if negb (isCommitHash previousHead)
         then throw (TypeError ("Unexpected HEAD format: " +:+ previousHead))
         else ret (Some previousHead))
        (fun _ =>
           logger error "Failed to get current HEAD — aborting deploy" ;;;
           ret None) ;;
      match head with
      | None => ret tt
      | Some previousHead =>
        (* 2. Fetch and reset to remote branch *)
        fetched <- tryCatch
          (exec_ ("git fetch origin " +:+ branch) (Some projectRoot) ;;;
           exec_ ("git reset --hard origin/" +:+ branch) (Some projectRoot) ;;;
           logger info "Git pull completed" ;;;
           ret true)
          (fun _ =>
             logger error "Git fetch/reset failed — aborting deploy" ;;;
             ret false) ;;
        if negb fetched then ret tt else
        (* 3. Check if package.json changed *)
        tryCatch
          (diff <- execSync ("git diff " +:+ previousHead +:+ " HEAD --name-only")
                     (Some projectRoot) ;;
           if JS.includes "package.json" diff || JS.includes "package-lock.json" diff
           then
             logger info "package.json changed — running npm install" ;;;
             exec_ "npm install" (Some projectRoot)
           else ret tt)
          (fun _ => logger warn "npm install check/run failed — continuing with build") ;;;
        (* 4. Build TypeScript *)
        buildFailed <- tryCatch
          (exec_ "npm run build" (Some projectRoot) ;;;
           logger info "TypeScript build succeeded" ;;;
           ret false)
          (fun _ =>
             logger error "TypeScript build failed — rolling back" ;;;
             tryCatch
               (exec_ ("git reset --hard " +:+ previousHead) (Some projectRoot) ;;;
                attempt (exec_ "npm install" (Some projectRoot)) ;;;
                exec_ "npm run build" (Some projectRoot) ;;;
                logger info "Rollback completed successfully")
               (fun _ => logger error "Rollback build also failed — restarting with whatever is compiled") ;;;
             ret true) ;;
        (* 5. Rebuild Docker image if container/ files changed *)
        (if negb buildFailed then
           tryCatch
             (diff <- execSync ("git diff " +:+ previousHead +:+ " HEAD --name-only")
                        (Some projectRoot) ;;
              if List.existsb (JS.startsWith "container/") (JS.split "010" diff)
              then
                logger info "container/ files changed — rebuilding Docker image" ;;;
                exec_ "docker build -t nanoclawbster-agent:latest ."
                  (Some (Path.join [projectRoot; "container"])) ;;;
                logger info "Docker image rebuild completed" ;;;
                attempt (exec_ "docker image prune -f" None)
              else ret tt)
             (fun _ => logger warn "Docker rebuild check/run failed — continuing with restart")
         else ret tt) ;;;
        (* 6. Sync dev workspace to match the deployed branch *)
        let devWorkspaceDir := Path.join [DATA_DIR cfg; "dev-workspace"] in
        present <- existsSync devWorkspaceDir ;;
        (if present then
           tryCatch
             (exec_ ("git fetch origin " +:+ branch) (Some devWorkspaceDir) ;;;
              exec_ ("git reset --hard origin/" +:+ branch) (Some devWorkspaceDir) ;;;
              logger info "Dev workspace synced to deployed branch")
             (fun _ => logger warn "Dev workspace sync failed — non-fatal")
         else ret tt) ;;;
        (* 7. Exit for systemd restart *)
        logger info "Pull and deploy complete — restarting" ;;;
        process_exit 0
      end.

(** ** [processTaskIpc] *)

Definition processTaskIpc (data : IpcData.t) (sourceGroup : string)
    (isMain : bool) : M unit :=
  registeredGroups <- (fun w => Ret (registered w) w) ;;
  let type := IpcData.type data in
  if String.eqb type "schedule_task" then
    schedule_task data sourceGroup isMain registeredGroups
  else if String.eqb type "pause_task" then
    onOwnedTask data sourceGroup isMain
      (fun id => updateTask_status id "paused")
      "Task paused via IPC" "Unauthorized task pause attempt"
  else if String.eqb type "resume_task" then
    onOwnedTask data sourceGroup isMain
      (fun id => updateTask_status id "active")
      "Task resumed via IPC" "Unauthorized task resume attempt"
  else if String.eqb type "cancel_task" then
    onOwnedTask data sourceGroup isMain deleteTask
      "Task cancelled via IPC" "Unauthorized task cancel attempt"
  else if String.eqb type "refresh_groups" then
    refresh_groups sourceGroup isMain registeredGroups
  else if String.eqb type "register_group" then
    register_group data isMain
  else if String.eqb type "restart" then restart
  else if String.eqb type "rebuild" then rebuild
  else if String.eqb type "test_container_build" then
    test_container_build isMain
  else if String.eqb type "pull_and_deploy" then
    pull_and_deploy data isMain
  else logger warn "Unknown IPC task type".

(** ** [startIpcWatcher]: one run of [processIpcFiles] *)

Definition stringItems (files : option (list JsonItem)) : list string :=
  omap (fun f => match f with JString s => Some s | JOther => None end)
       (default [] files).

(** [(Array.isArray(data.files) ? data.files : [])
      .filter(f => typeof f === 'string' && path.basename(f) === f)
      .map(f => path.join(attachmentsDir, f))
      .filter(p => fs.existsSync(p))] *)
Definition resolveFiles (d : Fs.t) (attachmentsDir : string)
    (files : option (list JsonItem)) : list string :=
  List.filter (fun p => Fs.existsSync p d)
    (List.map (fun f => Path.join [attachmentsDir; f])
       (List.filter (fun f => String.eqb (Path.basename f) f)
          (stringItems files))).

(** The authorization test of the messages queue. *)
Definition maySend (sourceGroup : string) (isMain : bool)
    (targetGroup : option RegisteredGroup.t) : bool :=
  isMain ||
  match targetGroup with
  | Some g => String.eqb (RegisteredGroup.folder g) sourceGroup
  | None => false
  end.

(** What is done with the parsed content of a message file. *)
Definition handleMessage (data : IpcData.t) (sourceGroup : string)
    (isMain : bool) (registeredGroups : gmap string RegisteredGroup.t)
    : M unit :=
  if String.eqb (IpcData.type data) "message"
     && JS.truthy (IpcData.chatJid data) && JS.truthy (IpcData.text data)
  then
    let chatJid := default "" (IpcData.chatJid data) in
    let text := default "" (IpcData.text data) in
    let targetGroup := registeredGroups !! chatJid in
    if maySend sourceGroup isMain targetGroup then
      let attachmentsDir := Path.join [ipcBaseDir; sourceGroup; "attachments"] in
      d <- getDisk ;;
      let resolvedFiles := resolveFiles d attachmentsDir (IpcData.files data) in
      deps_sendMessage chatJid text
        (match resolvedFiles with [] => None | _ => Some resolvedFiles end) ;;;
      logger info "IPC message sent" ;;;
      forEach resolvedFiles (fun p => attempt (unlinkSync p))
    else logger warn "Unauthorized IPC message attempt blocked"
  else ret tt.

(** Moving a request that failed to the [errors] directory. *)
Definition moveToErrors (sourceGroup file filePath : string) : M unit :=
  let errorDir := Path.join [ipcBaseDir; "errors"] in
  mkdirSync errorDir ;;;
  renameSync filePath (Path.join [errorDir; sourceGroup +:+ "-" +:+ file]).

Definition processMessageFile (sourceGroup : string) (isMain : bool)
    (registeredGroups : gmap string RegisteredGroup.t)
    (messagesDir file : string) : M unit :=
  let filePath := Path.join [messagesDir; file] in
  tryCatch
    (data <- readJson filePath ;;
     handleMessage data sourceGroup isMain registeredGroups ;;;
     unlinkSync filePath)
    (fun _ =>
       logger error "Error processing IPC message" ;;;
       moveToErrors sourceGroup file filePath).

Definition processTaskFile (sourceGroup : string) (isMain : bool)
    (tasksDir file : string) : M unit :=
  let filePath := Path.join [tasksDir; file] in
  tryCatch
    (data <- readJson filePath ;;
     (* Delete task file before processing *)
     unlinkSync filePath ;;;
     processTaskIpc data sourceGroup isMain)
    (fun _ =>
       logger error "Error processing IPC task" ;;;
       moveToErrors sourceGroup file filePath).

(** [fs.readdirSync(dir).filter(f => f.endsWith('.json'))] *)
Definition requestFiles (dir : string) : M (list string) :=
  names <- readdirSync dir ;;
  ret (List.filter (JS.endsWith ".json") names).

Definition processMessages (sourceGroup : string) (isMain : bool)
    (registeredGroups : gmap string RegisteredGroup.t) : M unit :=
  let messagesDir := Path.join [ipcBaseDir; sourceGroup; "messages"] in
  tryCatch
    (present <- existsSync messagesDir ;;
     if present then
       messageFiles <- requestFiles messagesDir ;;
       forEach messageFiles
         (processMessageFile sourceGroup isMain registeredGroups messagesDir)
     else ret tt)
    (fun _ => logger error "Error reading IPC messages directory").

Definition processTasks (sourceGroup : string) (isMain : bool) : M unit :=
  let tasksDir := Path.join [ipcBaseDir; sourceGroup; "tasks"] in
  tryCatch
    (present <- existsSync tasksDir ;;
     if present then
       taskFiles <- requestFiles tasksDir ;;
       forEach taskFiles (processTaskFile sourceGroup isMain tasksDir)
     else ret tt)
    (fun _ => logger error "Error reading IPC tasks directory").

Definition processGroup (registeredGroups : gmap string RegisteredGroup.t)
    (sourceGroup : string) : M unit :=
  let isMain := String.eqb sourceGroup (MAIN_GROUP_FOLDER cfg) in
  processMessages sourceGroup isMain registeredGroups ;;;
  processTasks sourceGroup isMain.

(** [fs.readdirSync(ipcBaseDir).filter(f =>
      fs.statSync(path.join(ipcBaseDir, f)).isDirectory() && f !== 'errors')] *)
Definition groupFolders : M (list string) :=
  names <- readdirSync ipcBaseDir ;;
  d <- getDisk ;;
  ret (List.filter
         (fun f => Fs.isDirectory (Path.join [ipcBaseDir; f]) d
                   && negb (String.eqb f "errors"))
         names).

(** One poll.  The timer that schedules the next one is not part of
    the model. *)
Definition processIpcFiles : M unit :=
  scanned <- tryCatch
    (fs <- groupFolders ;; ret (Some fs))
    (fun _ => logger error "Error reading IPC base directory" ;;; ret None) ;;
  match scanned with
  | None => ret tt
  | Some folders =>
      registeredGroups <- (fun w => Ret (registered w) w) ;;
      forEach folders (processGroup registeredGroups)
  end.

End Ipc.

(* ===================================================================== *)
(** * [src/index.ts]: the registry of groups *)
(* ===================================================================== *)

Module Registry.

(** The file [registered_groups.json]. *)
Inductive File : Type :=
| Missing
| Corrupt                                  (* [JSON.parse] throws *)
| Groups (gs : list RegisteredGroup.t).

Definition loadRegisteredGroups (f : File) : list RegisteredGroup.t :=
  match f with
  | Groups gs => gs
  | Missing | Corrupt => []
  end.

Definition saveRegisteredGroups (groups : list RegisteredGroup.t) : File :=
  Groups groups.

Record Result : Type := mkResult { success : bool; alreadyExisted : bool }.

(** Returns the result and the file as it is left. *)
Definition registerGroup (group : RegisteredGroup.t) (f : File)
    : Result * File :=
  let groups := loadRegisteredGroups f in
  let existing :=
    List.find (fun g => String.eqb (RegisteredGroup.folder g)
                                   (RegisteredGroup.folder group)) groups in
  match existing with
  | Some _ => (mkResult true true, f)
  | None => (mkResult true false, saveRegisteredGroups (groups ++ [group])%list)
  end.

End Registry.

(* ===================================================================== *)
(** * [container/agent-runner/src/ipc-mcp-stdio.ts] *)
(* ===================================================================== *)

Module Tool.

(** The context the agent runner passes in environment variables. *)
Record Env : Type := mkEnv {
  chatJid : string;
  groupFolder : string;
  isMain : bool
}.

Record ScheduleArgs : Type := mkArgs {
  prompt : string;
  schedule_type : string;          (* [z.enum(['cron', 'interval', 'once'])] *)
  schedule_value : string;
  context_mode : string;
  target_group_jid : option string
}.

(** [`${Date.now()}-${Math.random().toString(36).slice(2, 8)}.json`] *)
Definition ipcFileName (now : Z) (rnd : string) : string :=
  pretty now +:+ "-" +:+ rnd +:+ ".json".

(** [/[Zz]$/] *)
Definition endsInZ (s : string) : bool :=
  JS.endsWith "Z" s || JS.endsWith "z" s.

(** [/[+-]\d{2}:\d{2}$/] *)
Definition endsInOffset (s : string) : bool :=
  match JS.rev_string s "" with
  | String d4 (String d3 (String c (String d2 (String d1 (String sg _))))) =>
      JS.isDigit d4 && JS.isDigit d3 && Ascii.eqb c ":" && JS.isDigit d2
      && JS.isDigit d1 && (Ascii.eqb sg "+" || Ascii.eqb sg "-")
  | _ => false
  end.

(** The check made before anything is written: [inl] is the error
    text returned to the agent. *)
Definition validateSchedule (host : Host) (args : ScheduleArgs)
    : string + unit :=
  let v := schedule_value args in
  if String.eqb (schedule_type args) "cron" then
    match cronParse host v None with
    | Some _ => inr tt
    | None => inl ("Invalid cron: " +:+ v)
    end
  else if String.eqb (schedule_type args) "interval" then
    match JS.parseInt10 v with
    | Some ms => if ms <=? 0 then inl ("Invalid interval: " +:+ v) else inr tt
    | None => inl ("Invalid interval: " +:+ v)
    end
  else if String.eqb (schedule_type args) "once" then
    if endsInZ v || endsInOffset v then
      inl ("Timestamp must be PST/PDT time without timezone suffix. Got " +:+ v)
    else
      match JS.Date_parse (localZone host) (legacyDateParse host) v with
      | Some _ => inr tt
      | None => inl ("Invalid timestamp: " +:+ v)
      end
  else inr tt.

(** The [schedule_task] tool: the request it writes into its own
    [tasks] directory, or the error it returns. *)
Definition schedule_task (host : Host) (env : Env) (now : Z)
    (args : ScheduleArgs) : string + IpcData.t :=
  match validateSchedule host args with
  | inl e => inl e
  | inr _ =>
      (* Non-main groups can only schedule for themselves *)
      let targetJid :=
        if isMain env && JS.truthy (target_group_jid args)
        then default "" (target_group_jid args) else chatJid env in
      inr (IpcData.mk "schedule_task" None None None None None
             (Some (prompt args)) (Some (schedule_type args))
             (Some (schedule_value args))
             (Some (JS.orElse (Some (context_mode args)) "group"))
             (Some targetJid) None None None None None None None
             None None (Some (groupFolder env))
             (JS.toISOString (JS.Date_of_number now)))
  end.

End Tool.

(* ===================================================================== *)
(** * [ipc-mcp-stdio.ts]: writing a request file *)
(* ===================================================================== *)

(** The tools run in the container; [World] is here the world of that
    process, with the disk as the container sees it. *)
Module Mcp.

Definition IPC_DIR : string := "/workspace/ipc".
Definition MESSAGES_DIR : string := Path.join [IPC_DIR; "messages"].
Definition TASKS_DIR : string := Path.join [IPC_DIR; "tasks"].

(** [writeIpcFile(dir, data)] *)
Definition writeIpcFile (dir : string) (data : IpcData.t) : M string :=
  mkdirSync dir ;;;
  now <- Date_now ;;
  rnd <- (fun w => Ret (rand w) w) ;;
  let filename := Tool.ipcFileName now rnd in
  let filepath := Path.join [dir; filename] in
  (* Atomic write: temp file then rename *)
  let tempPath := filepath +:+ ".tmp" in
  writeFileSync tempPath (Fs.Json data) ;;;
  renameSync tempPath filepath ;;;
  ret filename.

(** [writeIpcFile] up to the point where the temporary file has been
    written and not yet renamed. *)
Definition writeTemp (dir : string) (data : IpcData.t) : M unit :=
  mkdirSync dir ;;;
  now <- Date_now ;;
  rnd <- (fun w => Ret (rand w) w) ;;
  let filename := Tool.ipcFileName now rnd in
  let filepath := Path.join [dir; filename] in
  let tempPath := filepath +:+ ".tmp" in
  writeFileSync tempPath (Fs.Json data).

End Mcp.

(* ===================================================================== *)
(** * [src/index.ts]: routing an incoming message *)
(* ===================================================================== *)

Module Index.

(** The fields of [NewMessage] that [onInboundMessage] reads. *)
Record NewMessage : Type := mkMessage {
  content : string;
  is_from_me : bool;
  is_bot_message : bool
}.

(** A channel: whether it has the optional [setTyping]. *)
Record Channel : Type := mkChannel { hasSetTyping : bool }.

(** What [onInboundMessage] takes from its surroundings: [router.ts],
    [group-queue.ts], [db.ts], [config.ts] and [types.ts] are not among
    the sources. *)
Record Deps : Type := mkDeps {
  (** [findChannel(channels, jid)] *)
  findChannel : string -> option Channel;
  (** [queue.sendMessage(chatJid, text)]: whether a container is active
      for the chat and took the text *)
  queueSendMessage : string -> string -> bool;
  formatMessages : list NewMessage -> string;
  (** [readDb(folder, 50)] *)
  readDb : string -> list NewMessage;
  ASSISTANT_NAME : string;
  (** the [isMain] flag of a stored group *)
  isMainOf : RegisteredGroup.t -> bool
}.

(** What the handler does, in order. *)
Inductive Action : Type :=
| SetTyping (chatJid : string)
| Enqueue (chatJid : string) (group : RegisteredGroup.t) (prompt : string)
    (isMain : bool)
| Piped (chatJid prompt : string)
| Log (l : Level) (msg : string).

(** The offset of the first occurrence of [pat] in [s]. *)
Fixpoint indexOf (pat s : string) : option nat :=
  if JS.startsWith pat s then Some O
  else match s with
       | EmptyString => None
       | String _ r => S <$> indexOf pat r
       end.

(** The length of the match of [/<internal>[\s\S]*?<\/internal>/] at the
    head of [s], if there is one: the opening tag, the shortest text
    that a closing tag follows, and that tag. *)
Definition internalAt (s : string) : option nat :=
  match Fs.stripPrefix "<internal>" s with
  | Some body => (fun k => 10 + k + 11)%nat <$> indexOf "</internal>" body
  | None => None
  end.

(** [s.replace(/<internal>[\s\S]*?<\/internal>/g, '')]; [skip] counts the
    characters of the current match still to be dropped. *)
Fixpoint stripInternal (skip : nat) (s : string) : string :=
  match s with
  | EmptyString => EmptyString
  | String c r =>
      match skip with
      | S k => stripInternal k r
      | O =>
          match internalAt s with
          | Some n => stripInternal (n - 1) r
          | None => String c (stripInternal O r)
          end
      end
  end.

(** [xs.slice(-4)] *)
Definition last4 {A} (xs : list A) : list A := drop (List.length xs - 4) xs.

(** [channel.setTyping?.(chatJid, true)], which is taken to return. *)
Definition typing (c : Channel) (chatJid : string) : list Action :=
  if hasSetTyping c then [SetTyping chatJid] else [].

(** [onInboundMessage], with [registeredGroups] as just reloaded from
    the disk. *)
Definition onInboundMessage (deps : Deps)
    (registeredGroups : list RegisteredGroup.t)
    (chatJid : string) (message : NewMessage) : list Action :=
  (* Ignore messages from ourselves *)
  if is_from_me message || is_bot_message message then []
  else if JS.startsWith "dc:" chatJid then
    (* Discord catch-all routing *)
    match findChannel deps chatJid with
    | None => [Log warn "No channel found for Discord JID"]
    | Some discordChannel =>
        let text := JS.trim (stripInternal O (content message)) in
        if String.eqb text "" then []
        else
          let matchedGroup :=
            List.find
              (fun g =>
                 let gjid := RegisteredGroup.folder g in
                 String.eqb gjid chatJid
                 || (JS.startsWith "dc:" gjid && String.eqb gjid chatJid))
              registeredGroups in
          match matchedGroup with
          | Some g =>
              (typing discordChannel chatJid
               ++ [Enqueue chatJid g (formatMessages deps [message]) false])%list
          | None => [Log debug "No matching group for Discord channel, ignoring"]
          end
    end
  else
    (* WhatsApp and Telegram routing *)
    match List.find (fun g => String.eqb (RegisteredGroup.folder g) chatJid)
                    registeredGroups with
    | None => [Log debug "Message from unregistered chat, ignoring"]
    | Some group =>
        let requiresTrigger :=
          match RegisteredGroup.requiresTrigger group with
          | Some false => false
          | _ => true
          end in
        let triggerWord :=
          JS.orElse (Some (RegisteredGroup.trigger group)) (ASSISTANT_NAME deps) in
        if requiresTrigger && negb (JS.includes triggerWord (content message))
        then [Log debug "Message did not mention trigger word, ignoring"]
        else
          match findChannel deps chatJid with
          | None => [Log warn "No channel found for JID, ignoring"]
          | Some channel =>
              let mainGroup := List.find (isMainOf deps) registeredGroups in
              let isMain :=
                match mainGroup with
                | Some m => String.eqb (RegisteredGroup.folder m)
                                       (RegisteredGroup.folder group)
                | None => false
                end in
              if queueSendMessage deps chatJid (formatMessages deps [message])
              then
                (Piped chatJid (formatMessages deps [message])
                 :: Log info "Message piped to active container"
                 :: typing channel chatJid)%list
              else
                (typing channel chatJid
                 ++ [Log info "Enqueuing message for processing";
                     Enqueue chatJid group
                       (formatMessages deps
                          (last4 (readDb deps (RegisteredGroup.folder group))))
                       isMain])%list
          end
    end.

(** The message reaches a container: it is piped into a running one or
    queued for a new one. *)
Definition isDelivery (a : Action) : bool :=
  match a with
  | Enqueue _ _ _ _ | Piped _ _ => true
  | _ => false
  end.

End Index.

(* ===================================================================== *)
(** * [src/channels/discord.ts] *)
(* ===================================================================== *)

Module DiscordChannel.

(** [ownsJid] *)
Definition ownsJid (jid : string) : bool := JS.startsWith "dc:" jid.

(** [`dc:${channelId}`], the chat JID the message handler builds. *)
Definition chatJidOf (channelId : string) : string := "dc:" +:+ channelId.

(** [jid.replace(/^dc:/, '')], the channel [sendMessage] and [setTyping]
    fetch. *)
Definition channelIdOf (jid : string) : string :=
  match Fs.stripPrefix "dc:" jid with
  | Some rest => rest
  | None => jid
  end.

(** ** Attachments of an incoming message *)

(** What the handler reads of an attachment.  The name is kept as its
    UTF-16 code units. *)
Record Attachment : Type := mkAttachment {
  name : option (list Z);
  contentType : option string;
  size : Z;
  url : string
}.

Definition MAX_SIZE : Z := 25 * 1024 * 1024.

(** The characters [/[^a-zA-Z0-9._-]/] leaves alone. *)
Definition safeChar (c : ascii) : bool :=
  JS.isLower c || JS.isUpper c || JS.isDigit c
  || (JS.code c =? 46) || (JS.code c =? 95) || (JS.code c =? 45).

(** One code unit after [replace(/[^a-zA-Z0-9._-]/g, '_')]. *)
Definition safeUnit (u : Z) : ascii :=
  if (0 <=? u) && (u <? 128) && safeChar (ascii_of_N (Z.to_N u))
  then ascii_of_N (Z.to_N u) else "_"%char.

Definition sanitize (units : list Z) : string :=
  fold_right (fun u s => String (safeUnit u) s) "" units.

(** The code units of ['attachment']. *)
Definition attachmentUnits : list Z :=
  [97; 116; 116; 97; 99; 104; 109; 101; 110; 116].

(** [`${msgId}-${(att.name || 'attachment').replace(...)}`] *)
Definition safeName (msgId : string) (att : Attachment) : string :=
  msgId +:+ "-"
  +:+ sanitize (match name att with
                | Some (u :: us) => u :: us
                | _ => attachmentUnits
                end).

(** What the loop does with one attachment: it reports it without
    fetching it, or it fetches [url] and writes it to [hostPath]. *)
Inductive Plan : Type :=
| NotDownloaded
| Download (url hostPath containerPath : string).

Definition plan (receivedDir msgId : string) (att : Attachment) : Plan :=
  if JS.startsWith "video/" (JS.orElse (contentType att) "") then NotDownloaded
  else if MAX_SIZE <? size att then NotDownloaded
  else
    Download (url att) (Path.join [receivedDir; safeName msgId att])
      ("/workspace/ipc/received/" +:+ safeName msgId att).

Definition MAX_LENGTH : nat := 2000.

Section Send.

(** A JavaScript string as the sequence of its UTF-16 code units, which
    is what [length] and [slice] count. *)
Context {U : Type}.

(** [s.slice(i, j)] for [0 <= i <= j] *)
Definition slice (i j : nat) (s : list U) : list U := take (j - i) (drop i s).

(** One call of [textChannel.send]. *)
Record Sent : Type := mkSent {
  content : option (list U);
  files : list string
}.

(** [for (let i = start; i < cleanText.length; i += MAX_LENGTH)
       send(cleanText.slice(i, i + MAX_LENGTH))];
    every round advances [i], so [cleanText.length] rounds are enough. *)
Fixpoint followUps (fuel i : nat) (cleanText : list U) : list (list U) :=
  match fuel with
  | O => []
  | S fuel' =>
      if (i <? List.length cleanText)%nat
      then slice i (i + MAX_LENGTH) cleanText
           :: followUps fuel' (i + MAX_LENGTH) cleanText
      else []
  end.

(** The calls of [textChannel.send] that [sendMessage] makes, in order,
    once the channel is found and as long as none of them throws.
    [cleanText] is the text with the image links removed, [imageUrls]
    those links. *)
Definition sends (cleanText : list U) (files : option (list string))
    (imageUrls : list string) : list Sent :=
  let allFiles := (default [] files ++ imageUrls)%list in
  if (0 <? List.length allFiles)%nat then
    let firstChunk := slice 0 MAX_LENGTH cleanText in
    mkSent (match firstChunk with [] => None | _ => Some firstChunk end) allFiles
    :: List.map (fun c => mkSent (Some c) [])
         (followUps (List.length cleanText) MAX_LENGTH cleanText)
  else if (List.length cleanText <=? MAX_LENGTH)%nat then
    [mkSent (Some cleanText) []]
  else
    List.map (fun c => mkSent (Some c) [])
      (followUps (List.length cleanText) 0 cleanText).

(** The text of a call, empty if it has none. *)
Definition textOf (s : Sent) : list U := default [] (content s).

End Send.

Arguments Sent U : clear implicits.

End DiscordChannel.

(* ===================================================================== *)
(** * A concrete installation, used to run the model *)
(* ===================================================================== *)

Module Demo.

Definition cfg : Config :=
  mkConfig "/srv/claw/data" "main" JS.America_Los_Angeles "/srv/claw/dist".

(** A stand-in for the cron library that knows one expression, "every
    minute", whose next occurrence is the start of the next minute. *)
Definition everyMinute (v : string) (tz : option JS.Zone)
    : option (Z -> option Z) :=
  if String.eqb v "* * * * *"
  then Some (fun now => Some ((now / 60000 + 1) * 60000))
  else None.

Definition plainFolder (f : string) : bool :=
  negb (String.eqb f "")
  && JS.string_forallb
       (fun c => JS.isLower c || JS.isDigit c || (JS.code c =? 45)) f.

(** Child processes that leave the disk as it is. *)
Definition noWrites : list Call -> string -> option string -> Fs.t -> Fs.t :=
  fun _ _ _ d => d.

(** A process in US Pacific time, every child process succeeding with
    no output and writing nothing, every chat reachable. *)
Definition host : Host :=
  mkHost JS.America_Los_Angeles (fun _ => None) everyMinute
         (fun _ _ => Some "") noWrites (fun _ => false) plainFolder.

(** The same process run in UTC. *)
Definition hostUTC : Host :=
  mkHost JS.UTC_zone (fun _ => None) everyMinute
         (fun _ _ => Some "") noWrites (fun _ => false) plainFolder.

Definition group (name : string) : RegisteredGroup.t :=
  RegisteredGroup.mk name name "@Nano" "2026-01-01T00:00:00.000Z" None None.

Definition groups : gmap string RegisteredGroup.t :=
  <["dc:0" := group "main"]>
    (<["dc:1" := group "alice"]> (<["dc:2" := group "bob"]> ∅)).

Definition ipc : string := "/srv/claw/data/ipc".

Definition dirs : Fs.t :=
  [ ("/srv", Fs.Dir); ("/srv/claw", Fs.Dir); ("/srv/claw/data", Fs.Dir);
    (ipc, Fs.Dir);
    (ipc +:+ "/main", Fs.Dir);
    (ipc +:+ "/main/messages", Fs.Dir);
    (ipc +:+ "/main/tasks", Fs.Dir);
    (ipc +:+ "/alice", Fs.Dir);
    (ipc +:+ "/alice/messages", Fs.Dir);
    (ipc +:+ "/alice/tasks", Fs.Dir);
    (ipc +:+ "/alice/attachments", Fs.Dir) ].

(** 2026-01-15T12:00:00.000Z *)
Definition noon : Z := 1768478400000.

Definition world (extra : Fs.t) : World :=
  mkWorld (dirs ++ extra)%list [] groups noon "k3x9qa" [] [].

End Demo.

(* ===================================================================== *)
(** * Vocabulary of the properties *)
(* ===================================================================== *)

(** A request is rejected when the handler returns having left the task
    store, the disk and the registered groups as they were and having
    made no call at all: nothing through [IpcDeps], no child process,
    no [process.exit]. *)
Definition rejected (o : Outcome unit) (w : World) : Prop :=
  exists w', o = Ret tt w'
    /\ tasks w' = tasks w /\ disk w' = disk w
    /\ registered w' = registered w /\ calls w' = calls w.

(** The action types the specification lists as privileged-only. *)
Definition privilegedTypes : list string :=
  ["register_group"; "refresh_groups"; "restart"; "rebuild";
   "pull_and_deploy"; "test_container_build"].

(** The action types whose handler tests [isMain]. *)
Definition guardedTypes : list string :=
  ["register_group"; "refresh_groups"; "pull_and_deploy";
   "test_container_build"].

(** The schedule types of the data model. *)
Definition knownType (ty : string) : Prop :=
  ty = "cron" \/ ty = "interval" \/ ty = "once".

(** A schedule value is valid for its type: a cron string that parses,
    an interval that parses to a strictly positive number, a timestamp
    that parses to a valid instant.  [tz] is the zone handed to the cron
    parser. *)
Definition validSchedule (h : Host) (tz : option JS.Zone)
    (ty v : string) : Prop :=
  (ty = "cron" /\ exists next, cronParse h v tz = Some next)
  \/ (ty = "interval" /\ exists ms, JS.parseInt10 v = Some ms /\ 0 < ms)
  \/ (ty = "once"
      /\ exists t, JS.Date_parse (localZone h) (legacyDateParse h) v = Some t).

(** The wall-clock reading 2026-02-01 15:30:00, as a time value: day
    20485 since the epoch, fifteen and a half hours into it. *)
Definition sampleWall : Z := 1769959800000.

(** Two requests agree on everything but the identity their writer
    claims ([groupFolder], [isMain], [createdBy], [sender]). *)
Definition sameUpToClaimedIdentity (d d' : IpcData.t) : Prop :=
  IpcData.type d = IpcData.type d'
  /\ IpcData.chatJid d = IpcData.chatJid d'
  /\ IpcData.text d = IpcData.text d'
  /\ IpcData.files d = IpcData.files d'
  /\ IpcData.taskId d = IpcData.taskId d'
  /\ IpcData.prompt d = IpcData.prompt d'
  /\ IpcData.schedule_type d = IpcData.schedule_type d'
  /\ IpcData.schedule_value d = IpcData.schedule_value d'
  /\ IpcData.context_mode d = IpcData.context_mode d'
  /\ IpcData.targetJid d = IpcData.targetJid d'
  /\ IpcData.branch d = IpcData.branch d'
  /\ IpcData.jid d = IpcData.jid d'
  /\ IpcData.name d = IpcData.name d'
  /\ IpcData.folder d = IpcData.folder d'
  /\ IpcData.trigger d = IpcData.trigger d'
  /\ IpcData.requiresTrigger d = IpcData.requiresTrigger d'
  /\ IpcData.containerConfig d = IpcData.containerConfig d'
  /\ IpcData.timestamp d = IpcData.timestamp d'.

(** Where a source group may send: the main group anywhere, any other
    group to a chat registered with its own folder. *)
Definition sendAllowed (cfg : Config) (sourceGroup : string)
    (target : option RegisteredGroup.t) : Prop :=
  sourceGroup = MAIN_GROUP_FOLDER cfg
  \/ exists g, target = Some g /\ RegisteredGroup.folder g = sourceGroup.

(** [p] is an entry of the directory [dir]. *)
Definition entryOf (dir p : string) : bool :=
  match Fs.childName dir p with Some _ => true | None => false end.

(** The paths handed to [readFileSync], in order. *)
Definition reads (cs : list Call) : list string :=
  omap (fun c => match c with ReadFile p => Some p | _ => None end) cs.

(** The request files of a queue directory as one poll sees them: the
    names of the directory listing that end in [.json], in the order of
    the listing. *)
Definition pendingNames (dir : string) (w : World) : list string :=
  match Fs.readdirSync dir (disk w) with
  | inr names => List.filter (JS.endsWith ".json") names
  | inl _ => []
  end.

(** [a] comes strictly before [b] in the order of the bytes. *)
Definition nameLt (a b : string) : bool := negb (Fs.nameLe b a).

(** A list of names in the order of the bytes. *)
Definition inNameOrder (names : list string) : Prop :=
  StronglySorted (fun a b => Fs.nameLe a b = true) names.

(** [a] occurs in [l], and [b] occurs later in [l]. *)
Definition comesBefore {A} (a b : A) (l : list A) : Prop :=
  exists l1 l2 l3, l = (l1 ++ a :: l2 ++ b :: l3)%list.

(** How the loop over a queue can end before the last file: in the
    handler around the loop, which logs [msg], or with the process. *)
Definition stoppedEarly (msg : string) (o : Outcome unit) : Prop :=
  match o with
  | Ret _ w' => List.last (logged w') (info, "") = (error, msg)
  | Throw _ _ => False
  | Exit _ _ => True
  end.

(** The time values that [Date.now()] prints with thirteen digits: from
    2001-09-09 to 2286-11-20. *)
Definition thirteenDigits (t : Z) : Prop :=
  1000000000000 <= t < 10000000000000.

(** One run [o] of the loop over the queue directory [dir], started in
    [w], has read the first [k] request files of the directory, in the
    order of their names, and nothing else; it has read them all unless
    it was stopped early, and then at least one.  Of the two names
    [early] and [late], the first is taken up before the second. *)
Definition drainedInOrder (dir msg : string) (w : World) (o : Outcome unit)
    (early late : string) : Prop :=
  let names := pendingNames dir w in
  inNameOrder names
  /\ exists k,
       reads (calls (world_of o))
       = (reads (calls w)
          ++ List.map (fun f => Path.join [dir; f]) (take k names))%list
       /\ (k = List.length names \/ (0 < k)%nat /\ stoppedEarly msg o)
       /\ (In early names -> In late (take k names) ->
           comesBefore early late (take k names)).

(** A piece of the process that reads no file. *)
Definition quiet {A} (m : M A) : Prop :=
  forall w, reads (calls (world_of (m w))) = reads (calls w).

(** A piece of the process that reads exactly the file [p]. *)
Definition readsOnly {A} (p : string) (m : M A) : Prop :=
  forall w, reads (calls (world_of (m w))) = (reads (calls w) ++ [p])%list.

(* ===================================================================== *)
(** * Sample requests and worlds *)
(* ===================================================================== *)

(** A [schedule_task] request as the tool writes it. *)
Definition scheduleRequest (ty v target : string) : IpcData.t :=
  IpcData.mk "schedule_task" None None None None None (Some "water the plants")
    (Some ty) (Some v) (Some "group") (Some target) None None None None None
    None None None None None None.

(** A [message] request as the tool writes it. *)
Definition messageRequest (jid txt : string) (fl : option (list JsonItem))
    : IpcData.t :=
  IpcData.mk "message" (Some jid) (Some txt) fl None None None None None None
    None None None None None None None None None None None None.

(** A request written by hand into the namespace of alice: it targets
    the chat of bob and claims to come from bob and from the main group. *)
Definition aliceTargetsBob : IpcData.t :=
  IpcData.mk "schedule_task" None None None None None (Some "water the plants")
    (Some "interval") (Some "300000") (Some "group") (Some "dc:2") None None
    None None None None None (Some "bob") (Some true) (Some "bob") None.

(** The same request without the claims. *)
Definition aliceTargetsBobPlain : IpcData.t :=
  scheduleRequest "interval" "300000" "dc:2".

(** An interval so long that the first run lies beyond the range of
    [Date]. *)
Definition farInterval : IpcData.t :=
  scheduleRequest "interval" "99999999999999999999" "dc:1".

(** The demo process with no chat reachable. *)
Definition hostOffline : Host :=
  mkHost JS.America_Los_Angeles (fun _ => None) Demo.everyMinute
         (fun _ _ => Some "") Demo.noWrites (fun _ => true)
         Demo.plainFolder.

Definition aliceTasks : string := "/srv/claw/data/ipc/alice/tasks".
Definition aliceMessages : string := "/srv/claw/data/ipc/alice/messages".
Definition errorsDir : string := "/srv/claw/data/ipc/errors".

(** One request in the tasks queue of alice. *)
Definition oneTask (c : Fs.Contents) : World :=
  Demo.world [(aliceTasks +:+ "/1768478400000-ab12cd.json", Fs.File c)].

(** One request in the messages queue of alice. *)
Definition oneMessage (c : Fs.Contents) : World :=
  Demo.world [(aliceMessages +:+ "/1768478400000-ab12cd.json", Fs.File c)].

(** Two messages of alice; the later one was put on the disk first. *)
Definition twoMessages : World :=
  Demo.world
    [(aliceMessages +:+ "/1768478400200-bbbbbb.json",
      Fs.File (Fs.Json (messageRequest "dc:1" "second" None)));
     (aliceMessages +:+ "/1768478400100-aaaaaa.json",
      Fs.File (Fs.Json (messageRequest "dc:1" "first" None)))].

(* ===================================================================== *)
(** * Vocabulary of the further properties *)
(* ===================================================================== *)

(** The actions on an existing task. *)
Definition taskActions : list string :=
  ["pause_task"; "resume_task"; "cancel_task"].

(** The actions that end the process. *)
Definition exitingTypes : list string := ["restart"; "rebuild"; "pull_and_deploy"].

(** The actions that write to the task store. *)
Definition storeTypes : list string :=
  ["schedule_task"; "pause_task"; "resume_task"; "cancel_task"].

(** A [pause_task], [resume_task] or [cancel_task] request for a task. *)
Definition taskRequest (ty id : string) : IpcData.t :=
  IpcData.mk ty None None None None (Some id) None None None None None None
    None None None None None None None None None None.

(** A piece of the process that never exits the process. *)
Definition neverExits {A} (m : M A) : Prop :=
  forall w code w', m w <> Exit code w'.

(** A piece of the process that never throws. *)
Definition neverThrows {A} (m : M A) : Prop :=
  forall w e w', m w <> Throw e w'.

(** A piece of the process that leaves the task store as it is. *)
Definition keepsTasks {A} (m : M A) : Prop :=
  forall w, tasks (world_of (m w)) = tasks w.

(** A piece of the process all of whose calls satisfy [P]. *)
Definition emits {A} (P : Call -> Prop) (m : M A) : Prop :=
  forall w, exists l,
    calls (world_of (m w)) = (calls w ++ l)%list /\ Forall P l.

(** A world with one task of bob, active, and one of alice. *)
Definition bobsTask : Task.t :=
  Task.mk "task-1-bob" "bob" "dc:2" "stretch" "interval" "300000" "group"
    (Some "2026-01-15T12:05:00.000Z") "active" "2026-01-15T12:00:00.000Z".
Definition alicesTask : Task.t :=
  Task.mk "task-2-alice" "alice" "dc:1" "drink water" "cron" "* * * * *"
    "isolated" (Some "2026-01-15T12:01:00.000Z") "active"
    "2026-01-15T12:00:00.000Z".
Definition withTasks : World := set_tasks [bobsTask; alicesTask] (Demo.world []).

(** Every run of [m] takes a world to one that [R] relates to it; a
    value it returns satisfies [Q]; it throws only if [thr] and ends the
    process only with a code that satisfies [ex]. *)
Definition runs {A} (R : World -> World -> Prop) (Q : A -> Prop)
    (thr : bool) (ex : Z -> Prop) (m : M A) : Prop :=
  forall w,
    R w (world_of (m w))
    /\ match m w with
       | Ret a _ => Q a
       | Throw _ _ => thr = true
       | Exit code _ => ex code
       end.

Definition anyWorld : World -> World -> Prop := fun _ _ => True.
Definition anyValue {A} : A -> Prop := fun _ => True.
Definition noValue {A} : A -> Prop := fun _ => False.
Definition anyExit : Z -> Prop := fun _ => True.
Definition noExit : Z -> Prop := fun _ => False.
Definition exitZero : Z -> Prop := fun code => code = 0.

(** The task store is as it was. *)
Definition sameTasks (w w' : World) : Prop := tasks w' = tasks w.

(** Calls were added, all of them satisfying [P]. *)
Definition callsAdded (P : Call -> Prop) (w w' : World) : Prop :=
  exists l, calls w' = (calls w ++ l)%list /\ Forall P l.

(** What a relation between worlds needs for the rules of [runs]: logging,
    calls that satisfy [P] and changes of the disk stay within it. *)
Record Frame (R : World -> World -> Prop) (P : Call -> Prop) : Prop := {
  frame_refl : forall w, R w w;
  frame_trans : forall a b c, R a b -> R b c -> R a c;
  frame_log : forall l msg w, R w (add_log l msg w);
  frame_call : forall c w, P c -> R w (add_call c w);
  frame_disk : forall d w, R w (set_disk d w)
}.

Definition anyCall : Call -> Prop := fun _ => True.

(** The characters of the commands the watcher runs: letters, digits,
    [. _ - /], the colon and the space. *)
Definition plainChar (c : ascii) : bool :=
  safeRefChar c || (JS.code c =? 32) || (JS.code c =? 58).

Definition plainCommand (cmd : string) : bool := JS.string_forallb plainChar cmd.

(** A call that, if it starts a child process, does so with a plain
    command. *)
Definition plainCall (c : Call) : Prop :=
  match c with
  | ExecSync cmd _ => plainCommand cmd = true
  | _ => True
  end.

(** What [pull_and_deploy] keeps of the first step: nothing, or a commit
    hash. *)
Definition headOk (h : option string) : Prop :=
  match h with
  | Some previousHead => isCommitHash previousHead = true
  | None => True
  end.

(** A registration that the request [data] asks for, made for the main
    namespace, with the folder and the chat of the request and a folder
    name that [isValidGroupFolder] accepts. *)
Definition registrationOk (host : Host) (data : IpcData.t) (isMain : bool)
    (c : Call) : Prop :=
  match c with
  | RegisterGroup jid g =>
      isMain = true
      /\ IpcData.type data = "register_group"
      /\ isValidGroupFolder host (RegisteredGroup.folder g) = true
      /\ IpcData.folder data = Some (RegisteredGroup.folder g)
      /\ IpcData.jid data = Some jid
  | _ => True
  end.

(** ** The steps of [pull_and_deploy]

    The handler, cut at the numbered comments of the source; lemma
    [pull_and_deploy_steps] puts the pieces together again. *)

Section DeploySteps.

Context (cfg : Config) (host : Host).

(** The branch after [replace(/[^a-zA-Z0-9._\-/]/g, '')]. *)
Definition deployBranch (data : IpcData.t) : string :=
  JS.string_filter safeRefChar (JS.orElse (IpcData.branch data) "main").

(** 1. Save current HEAD for rollback *)
Definition deployHead : M (option string) :=
  tryCatch
    (out <- execSync host "git rev-parse HEAD" (Some (projectRoot cfg)) ;;
     let previousHead := JS.trim out in
     if negb (isCommitHash previousHead)
     then throw (TypeError ("Unexpected HEAD format: " +:+ previousHead))
     else ret (Some previousHead))
    (fun _ =>
       logger error "Failed to get current HEAD — aborting deploy" ;;;
       ret None).

(** 2. Fetch and reset to remote branch *)
Definition deployFetch (branch : string) : M bool :=
  tryCatch
    (exec_ host ("git fetch origin " +:+ branch) (Some (projectRoot cfg)) ;;;
     exec_ host ("git reset --hard origin/" +:+ branch) (Some (projectRoot cfg)) ;;;
     logger info "Git pull completed" ;;;
     ret true)
    (fun _ =>
       logger error "Git fetch/reset failed — aborting deploy" ;;;
       ret false).

(** 3. Check if package.json changed *)
Definition deployInstall (previousHead : string) : M unit :=
  tryCatch
    (diff <- execSync host ("git diff " +:+ previousHead +:+ " HEAD --name-only")
               (Some (projectRoot cfg)) ;;
     if JS.includes "package.json" diff || JS.includes "package-lock.json" diff
     then
       logger info "package.json changed — running npm install" ;;;
       exec_ host "npm install" (Some (projectRoot cfg))
     else ret tt)
    (fun _ => logger warn "npm install check/run failed — continuing with build").

(** 4. Build TypeScript; the result is [buildFailed]. *)
Definition deployBuild (previousHead : string) : M bool :=
  tryCatch
    (exec_ host "npm run build" (Some (projectRoot cfg)) ;;;
     logger info "TypeScript build succeeded" ;;;
     ret false)
    (fun _ =>
       logger error "TypeScript build failed — rolling back" ;;;
       tryCatch
         (exec_ host ("git reset --hard " +:+ previousHead) (Some (projectRoot cfg)) ;;;
          attempt (exec_ host "npm install" (Some (projectRoot cfg))) ;;;
          exec_ host "npm run build" (Some (projectRoot cfg)) ;;;
          logger info "Rollback completed successfully")
         (fun _ => logger error "Rollback build also failed — restarting with whatever is compiled") ;;;
       ret true).

(** 5. Rebuild Docker image if container/ files changed *)
Definition deployImage (previousHead : string) (buildFailed : bool) : M unit :=
  if negb buildFailed then
    tryCatch
      (diff <- execSync host ("git diff " +:+ previousHead +:+ " HEAD --name-only")
                 (Some (projectRoot cfg)) ;;
       if List.existsb (JS.startsWith "container/") (JS.split "010" diff)
       then
         logger info "container/ files changed — rebuilding Docker image" ;;;
         exec_ host "docker build -t nanoclawbster-agent:latest ."
           (Some (Path.join [projectRoot cfg; "container"])) ;;;
         logger info "Docker image rebuild completed" ;;;
         attempt (exec_ host "docker image prune -f" None)
       else ret tt)
      (fun _ => logger warn "Docker rebuild check/run failed — continuing with restart")
  else ret tt.

(** 6. Sync dev workspace to match the deployed branch *)
Definition deploySync (branch : string) : M unit :=
  let devWorkspaceDir := Path.join [DATA_DIR cfg; "dev-workspace"] in
  present <- existsSync devWorkspaceDir ;;
  if present then
    tryCatch
      (exec_ host ("git fetch origin " +:+ branch) (Some devWorkspaceDir) ;;;
       exec_ host ("git reset --hard origin/" +:+ branch) (Some devWorkspaceDir) ;;;
       logger info "Dev workspace synced to deployed branch")
      (fun _ => logger warn "Dev workspace sync failed — non-fatal")
  else ret tt.

(** Steps 3 to 7: what follows a successful pull. *)
Definition deployPulled (branch previousHead : string) : M unit :=
  deployInstall previousHead ;;;
  buildFailed <- deployBuild previousHead ;;
  deployImage previousHead buildFailed ;;;
  deploySync branch ;;;
  logger info "Pull and deploy complete — restarting" ;;;
  process_exit 0.

(** Whether a child process succeeds after the calls [history]. *)
Definition succeeds (history : list Call) (cmd : string) : bool :=
  match execResult host history cmd with Some _ => true | None => false end.

(** The pull of [pull_and_deploy] goes through: the branch name is not
    empty after sanitizing, [git rev-parse HEAD] prints a commit hash,
    and the fetch and the reset both succeed. *)
Definition deployable (data : IpcData.t) (w : World) : bool :=
  let branch := deployBranch data in
  let root := Some (projectRoot cfg) in
  let revParse := ExecSync "git rev-parse HEAD" root in
  let fetch := ExecSync ("git fetch origin " +:+ branch) root in
  negb (String.eqb branch "")
  && match execResult host (calls w) "git rev-parse HEAD" with
     | Some out =>
         isCommitHash (JS.trim out)
         && succeeds (calls w ++ [revParse])%list ("git fetch origin " +:+ branch)
         && succeeds (calls w ++ [revParse; fetch])%list
              ("git reset --hard origin/" +:+ branch)
     | None => false
     end.

(** The retry of the rollback: after a reset that succeeds, [npm
    install] and the build are run again. *)
Definition rollbackRetry (history : list Call) (previousHead : string)
    : list Call :=
  if succeeds history ("git reset --hard " +:+ previousHead)
  then [ExecSync "npm install" (Some (projectRoot cfg));
        ExecSync "npm run build" (Some (projectRoot cfg))]
  else [].

End DeploySteps.

(** A call that does not build the container image. *)
Definition notImageBuild (c : Call) : Prop :=
  match c with
  | ExecSync cmd _ => cmd <> "docker build -t nanoclawbster-agent:latest ."
  | _ => True
  end.

(** A call that neither builds the container image nor resets the work
    tree to [previousHead]. *)
Definition besideRollback (previousHead : string) (c : Call) : Prop :=
  notImageBuild c
  /\ match c with
     | ExecSync cmd _ => cmd <> "git reset --hard " +:+ previousHead
     | _ => True
     end.

(** The result file of [test_container_build]. *)
Definition buildResultPath (cfg : Config) : string :=
  Path.join [DATA_DIR cfg; "dev-workspace"; ".build-result.json"].

(** The commit the demo work tree is at. *)
Definition demoHead : string := "0123456789abcdef0123456789abcdef01234567".

(** The work tree has been reset to [previousHead]. *)
Definition rolledBack (previousHead : string) (history : list Call)
    : bool :=
  List.existsb
    (fun c => match c with
              | ExecSync cmd _ =>
                  String.eqb cmd ("git reset --hard " +:+ previousHead)
              | _ => false
              end)
    history.

(** A process in a work tree at a known commit, for which the pull
    brings code that does not build and touches [container/]: [npm run
    build] fails until the tree has been reset to the old commit. *)
Definition hostBrokenPull : Host :=
  mkHost JS.America_Los_Angeles (fun _ => None) Demo.everyMinute
    (fun history cmd =>
       if String.eqb cmd "npm run build"
       then (if rolledBack demoHead history then Some "" else None)
       else if String.eqb cmd "git rev-parse HEAD"
       then Some (demoHead +:+ String "010"%char "")
       else if JS.startsWith "git diff " cmd
       then Some ("container/Dockerfile" +:+ String "010"%char "src/ipc.ts")
       else Some "")
    Demo.noWrites (fun _ => false) Demo.plainFolder.

(** The demo installation with a dev workspace. *)
Definition withDevWorkspace : World :=
  Demo.world [("/srv/claw/data/dev-workspace", Fs.Dir)].

(** The registry file after registering the groups [gs], one after the
    other. *)
Definition registerAll (gs : list RegisteredGroup.t) (f : Registry.File)
    : Registry.File :=
  fold_left (fun f g => snd (Registry.registerGroup g f)) gs f.

(** The folders of the groups a registry file holds. *)
Definition foldersOf (f : Registry.File) : list string :=
  List.map RegisteredGroup.folder (Registry.loadRegisteredGroups f).

(** A name that is one normal path segment: not empty, not [.] or [..],
    and without a separator. *)
Definition plainName (f : string) : bool :=
  negb (JS.includes "/" f) && negb (String.eqb f "")
  && negb (String.eqb f ".") && negb (String.eqb f "..").

(** The absolute path with the segments [segs]. *)
Definition absPath (segs : list string) : string := "/" +:+ JS.join "/" segs.

(** An absolute path in normal form, other than the root: the form that
    [path.resolve] and [path.join] give. *)
Definition normalPath (p : string) : Prop :=
  exists segs, segs <> [] /\ forallb plainName segs = true /\ p = absPath segs.

(** A file that is read is a request file: its path is that of the
    mailbox followed by three further segments, the name of a namespace
    other than [errors], then [messages] or [tasks], then a name that
    ends in [.json]. *)
Definition requestRead (cfg : Config) (c : Call) : Prop :=
  match c with
  | ReadFile p =>
      exists sourceGroup queue file,
        p = ipcBaseDir cfg +:+ "/" +:+ sourceGroup +:+ "/" +:+ queue
            +:+ "/" +:+ file
        /\ plainName sourceGroup = true /\ sourceGroup <> "errors"
        /\ (queue = "messages" \/ queue = "tasks")
        /\ plainName file = true /\ JS.endsWith ".json" file = true
  | _ => True
  end.

(** The demo installation with one attachment saved by alice. *)
Definition withReport : World :=
  Demo.world [(Demo.ipc +:+ "/alice/attachments/report.pdf", Fs.File Fs.Blob)].

(** No path on the disk begins with [p]: neither [p] nor anything whose
    name extends it is there. *)
Definition freshName (p : string) (d : Fs.t) : Prop :=
  forall e, In e d -> JS.startsWith p (fst e) = false.

(** The container of alice: its mailbox is mounted at [/workspace/ipc],
    and holds a message written in the millisecond of [Demo.noon]. *)
Definition container : World :=
  mkWorld
    [ ("/workspace", Fs.Dir); ("/workspace/ipc", Fs.Dir);
      ("/workspace/ipc/messages", Fs.Dir); ("/workspace/ipc/tasks", Fs.Dir);
      ("/workspace/ipc/messages/1768478400000-zzzzzz.json",
       Fs.File (Fs.Json (messageRequest "dc:1" "earlier" None))) ]
    [] ∅ Demo.noon "k3x9qa" [] [].

(** An installation in which every chat has a channel with a typing
    indicator, no container is running, the assistant is called "Nano"
    and no group is flagged as main. *)
Definition demoDeps : Index.Deps :=
  Index.mkDeps (fun _ => Some (Index.mkChannel true)) (fun _ _ => false)
    (fun ms => JS.join (String "010"%char "") (List.map Index.content ms))
    (fun _ => []) "Nano" (fun _ => false).

(** The group [g] answers for the chat, and the message is one the
    router lets through: it is not the bot's own, the chat equals the
    folder of [g], the first such group, a channel owns the chat, and
    then, for a Discord chat, something is left of the text outside the
    internal blocks; for any other chat, the group needs no trigger or
    the text contains its trigger word. *)
Definition admitted (deps : Index.Deps) (groups : list RegisteredGroup.t)
    (chatJid : string) (m : Index.NewMessage) (g : RegisteredGroup.t) : Prop :=
  Index.is_from_me m = false /\ Index.is_bot_message m = false
  /\ List.find (fun g => String.eqb (RegisteredGroup.folder g) chatJid) groups
     = Some g
  /\ Index.findChannel deps chatJid <> None
  /\ if JS.startsWith "dc:" chatJid
     then JS.trim (Index.stripInternal O (Index.content m)) <> ""
     else RegisteredGroup.requiresTrigger g = Some false
          \/ JS.includes
               (JS.orElse (Some (RegisteredGroup.trigger g))
                          (Index.ASSISTANT_NAME deps))
               (Index.content m) = true.

(** A group registered for the Discord chat [dc:1]. *)
Definition discordGroup : RegisteredGroup.t :=
  RegisteredGroup.mk "garden" "dc:1" "@Nano" "2026-01-01T00:00:00.000Z" None None.

(** The tool of the group alice, whose chat is [dc:1], and a request
    to run every five minutes. *)
Definition aliceEnv : Tool.Env := Tool.mkEnv "dc:1" "alice" false.
Definition everyFiveMinutes : Tool.ScheduleArgs :=
  Tool.mkArgs "water the plants" "interval" "300000" "group" None.

(** A call that, if it sends a message, sends it where the namespace
    [sourceGroup] may send: anywhere for the main namespace, otherwise
    to a chat registered under its folder. *)
Definition authorizedSend (cfg : Config) (sourceGroup : string)
    (registeredGroups : gmap string RegisteredGroup.t) (c : Call) : Prop :=
  match c with
  | SendMessage jid _ _ => sendAllowed cfg sourceGroup (registeredGroups !! jid)
  | _ => True
  end.

(** A request file of a queue, as a poll finds it: an entry of the
    [messages] or the [tasks] directory whose name ends in [.json]. *)
Definition requestFile (queue file : string) : Prop :=
  (queue = "messages" \/ queue = "tasks")
  /\ JS.endsWith ".json" file = true
  /\ JS.includes "/" file = false /\ file <> "".

Definition requestPath (cfg : Config) (sourceGroup queue file : string)
    : string :=
  Path.join [Path.join [ipcBaseDir cfg; sourceGroup; queue]; file].

(** What [P] has to hold of, for the calls a poll makes on behalf of one
    namespace to satisfy it: the reading, the unlinking and the moving
    away of each request file, each send the namespace is allowed, and
    the unlinking of each forwarded attachment. *)
Record QueueRules (P : Call -> Prop) (cfg : Config) (sourceGroup : string)
    (isMain : bool) (registeredGroups : gmap string RegisteredGroup.t)
    : Prop := {
  rule_read : forall queue file,
    requestFile queue file -> P (ReadFile (requestPath cfg sourceGroup queue file));
  rule_unlink : forall queue file,
    requestFile queue file -> P (Unlink (requestPath cfg sourceGroup queue file));
  rule_rename : forall queue file,
    requestFile queue file ->
    P (Rename (requestPath cfg sourceGroup queue file)
         (Path.join [Path.join [ipcBaseDir cfg; "errors"];
                     sourceGroup +:+ "-" +:+ file]));
  rule_send : forall jid text fl,
    maySend sourceGroup isMain (registeredGroups !! jid) = true ->
    P (SendMessage jid text fl);
  rule_attachment : forall d files p,
    In p (resolveFiles d
            (Path.join [ipcBaseDir cfg; sourceGroup; "attachments"]) files) ->
    P (Unlink p)
}.

(** [p] is the directory [dir] or a path that continues it, and is in
    normal form: a path at or below [dir]. *)
Definition within (dir p : string) : bool :=
  String.eqb p dir || JS.startsWith (dir +:+ "/") p.

Definition inside (dir p : string) : Prop :=
  within dir p = true /\ normalPath p.

(** The directory of a namespace, and the one failed requests go to. *)
Definition namespaceDir (cfg : Config) (sourceGroup : string) : string :=
  Path.join [ipcBaseDir cfg; sourceGroup].
Definition ipcErrorsDir (cfg : Config) : string :=
  Path.join [ipcBaseDir cfg; "errors"].

(** A call that, where it reads, unlinks or moves a file, takes the file
    from the directory of [sourceGroup], and moves it nowhere but into the
    errors directory. *)
Definition staysInNamespace (cfg : Config) (sourceGroup : string) (c : Call)
    : Prop :=
  match c with
  | ReadFile p | Unlink p => inside (namespaceDir cfg sourceGroup) p
  | Rename p q =>
      inside (namespaceDir cfg sourceGroup) p /\ inside (ipcErrorsDir cfg) q
  | _ => True
  end.

(* ===================================================================== *)
(** * Running the runtime model *)
(* ===================================================================== *)

Example parseInt_5min : JS.parseInt10 "300000" = Some 300000.
Proof. reflexivity. Qed.
Example parseInt_garbage : JS.parseInt10 "abc" = None.
Proof. reflexivity. Qed.
Example parseInt_prefix : JS.parseInt10 "  12px" = Some 12.
Proof. reflexivity. Qed.
Example toISOString_epoch :
  JS.toISOString (Some 0) = Some "1970-01-01T00:00:00.000Z".
Proof. reflexivity. Qed.
Example toISOString_sample :
  JS.toISOString (Some 1769988600000) = Some "2026-02-01T23:30:00.000Z".
Proof. vm_compute. reflexivity. Qed.
Example parseIso_sample_pacific :
  JS.parseIso JS.America_Los_Angeles "2026-02-01T15:30:00" = Some 1769988600000.
Proof. vm_compute. reflexivity. Qed.
Example parseIso_summer_pacific :
  JS.toISOString (JS.parseIso JS.America_Los_Angeles "2026-07-01T09:00:00")
  = Some "2026-07-01T16:00:00.000Z".
Proof. vm_compute. reflexivity. Qed.
Example basename_dotdot : Path.basename ".." = "..".
Proof. reflexivity. Qed.
Example basename_nested : Path.basename "a/b.txt" = "b.txt".
Proof. reflexivity. Qed.
Example basename_trailing : Path.basename "dir/" = "dir".
Proof. reflexivity. Qed.
Example join_plain :
  Path.join ["/data/ipc"; "alice"; "attachments"] = "/data/ipc/alice/attachments".
Proof. reflexivity. Qed.
Example join_dotdot :
  Path.join ["/data/ipc/alice/attachments"; ".."] = "/data/ipc/alice".
Proof. reflexivity. Qed.
Example join_empty :
  Path.join ["/data/ipc/alice/attachments"; ""] = "/data/ipc/alice/attachments".
Proof. reflexivity. Qed.
Example readdir_order :
  Fs.readdirSync "/d"
    [("/d", Fs.Dir); ("/d/b.json", Fs.File Fs.Blob); ("/d/a.json", Fs.File Fs.Blob);
     ("/d/sub", Fs.Dir); ("/d/sub/x", Fs.File Fs.Blob); ("/d/B", Fs.Dir)]
  = inr ["B"; "a.json"; "b.json"; "sub"].
Proof. reflexivity. Qed.
Example parseIso_skipped_hour :
  JS.toISOString (JS.parseIso JS.America_Los_Angeles "2026-03-08T02:30:00")
  = Some "2026-03-08T10:30:00.000Z".
Proof. vm_compute. reflexivity. Qed.
Example parseIso_repeated_hour :
  JS.toISOString (JS.parseIso JS.America_Los_Angeles "2026-11-01T01:30:00")
  = Some "2026-11-01T08:30:00.000Z".
Proof. vm_compute. reflexivity. Qed.
Example mkdir_recursive :
  Fs.mkdirSync "/data/ipc/errors" [("/data", Fs.Dir)]
  = inr [("/data", Fs.Dir); ("/data/ipc", Fs.Dir); ("/data/ipc/errors", Fs.Dir)].
Proof. reflexivity. Qed.

(* ===================================================================== *)
(** * The registry: registering is idempotent on the folder *)
(* ===================================================================== *)

Section RegistryFacts.

Import Registry.

Lemma find_folder_hit (gs : list RegisteredGroup.t) (f : string) :
  In f (List.map RegisteredGroup.folder gs) ->
  exists g, List.find (fun g => String.eqb (RegisteredGroup.folder g) f) gs = Some g.
Proof.
  induction gs as [|g gs IH]; simpl; [tauto|].
  intros [Heq | Hin].
  - exists g. rewrite Heq, String.eqb_refl. reflexivity.
  - destruct (String.eqb (RegisteredGroup.folder g) f); eauto.
Qed.

Lemma find_folder_miss (gs : list RegisteredGroup.t) (f : string) :
  ~ In f (List.map RegisteredGroup.folder gs) ->
  List.find (fun g => String.eqb (RegisteredGroup.folder g) f) gs = None.
Proof.
  induction gs as [|g gs IH]; simpl; [reflexivity|].
  intros Hnot.
  destruct (String.eqb_spec (RegisteredGroup.folder g) f) as [Heq | Hne].
  - exfalso. apply Hnot. left. exact Heq.
  - apply IH. intros Hin. apply Hnot. right. exact Hin.
Qed.

(** C10.  For every persisted list of groups: registering a group whose
    folder is already in the list leaves the file as it is and returns
    [{success: true, alreadyExisted: true}]; registering a group with a
    new folder appends exactly that group and returns
    [{success: true, alreadyExisted: false}]. *)
Theorem registerGroup_idempotent_on_folder
    (gs : list RegisteredGroup.t) (g : RegisteredGroup.t) :
  (In (RegisteredGroup.folder g) (List.map RegisteredGroup.folder gs) ->
   registerGroup g (Groups gs) = (mkResult true true, Groups gs))
  /\
  (~ In (RegisteredGroup.folder g) (List.map RegisteredGroup.folder gs) ->
   registerGroup g (Groups gs) = (mkResult true false, Groups (gs ++ [g])%list)).
Proof.
  unfold registerGroup, saveRegisteredGroups; simpl. split; intros H.
  - destruct (find_folder_hit gs _ H) as [g' Hg']. rewrite Hg'. reflexivity.
  - rewrite (find_folder_miss gs _ H). reflexivity.
Qed.

Lemma registerGroup_idempotent_on_folder_witness :
  registerGroup (Demo.group "alice") (Groups [Demo.group "alice"; Demo.group "bob"])
  = (mkResult true true, Groups [Demo.group "alice"; Demo.group "bob"])
  /\
  registerGroup (Demo.group "carol") (Groups [Demo.group "alice"; Demo.group "bob"])
  = (mkResult true false,
     Groups [Demo.group "alice"; Demo.group "bob"; Demo.group "carol"]).
Proof.
  split.
  - apply (proj1 (registerGroup_idempotent_on_folder
                    [Demo.group "alice"; Demo.group "bob"] (Demo.group "alice"))).
    simpl. left. reflexivity.
  - apply (proj2 (registerGroup_idempotent_on_folder
                    [Demo.group "alice"; Demo.group "bob"] (Demo.group "carol"))).
    simpl. intros [H | [H | []]]; discriminate H.
Defined.

(** Registering the same group a second time changes nothing more. *)
Lemma registerGroup_twice (f : File) (g : RegisteredGroup.t) :
  registerGroup g (snd (registerGroup g f))
  = (mkResult true true, snd (registerGroup g f)).
Proof.
  unfold registerGroup at 2 3.
  destruct (List.find _ (loadRegisteredGroups f)) eqn:Hf; simpl.
  - unfold registerGroup. rewrite Hf. reflexivity.
  - unfold registerGroup; simpl.
    destruct (find_folder_hit (loadRegisteredGroups f ++ [g])%list
                (RegisteredGroup.folder g)) as [g' Hg'].
    + rewrite List.map_app, List.in_app_iff. right. simpl. left. reflexivity.
    + rewrite Hg'. reflexivity.
Qed.

End RegistryFacts.

(* ===================================================================== *)
(** * Authorization of task requests *)
(* ===================================================================== *)

Section TaskAuthorization.

Context (cfg : Config) (host : Host).

Lemma rejected_log (l : Level) (msg : string) (w : World) :
  rejected (Ret tt (add_log l msg w)) w.
Proof. exists (add_log l msg w). repeat split. Qed.

Lemma rejected_same (w : World) : rejected (Ret tt w) w.
Proof. exists w. repeat split. Qed.

(** C1 (amended).  A [register_group], [refresh_groups],
    [pull_and_deploy] or [test_container_build] request from a namespace
    other than the main one is rejected: the handler logs a warning and
    returns; no state is mutated, no command is run and the process does
    not exit. *)
Theorem guarded_action_rejected_outside_main
    (data : IpcData.t) (sourceGroup : string) (w : World) :
  In (IpcData.type data) guardedTypes ->
  sourceGroup <> MAIN_GROUP_FOLDER cfg ->
  exists msg,
    processTaskIpc cfg host data sourceGroup
      (String.eqb sourceGroup (MAIN_GROUP_FOLDER cfg)) w
    = Ret tt (add_log warn msg w).
Proof.
  intros Hty Hsrc.
  apply String.eqb_neq in Hsrc. rewrite Hsrc.
  unfold processTaskIpc, bind.
  simpl in Hty.
  destruct Hty as [H | [H | [H | [H | []]]]]; rewrite <- H; simpl;
    eexists; reflexivity.
Qed.

End TaskAuthorization.

Lemma guarded_action_rejected_outside_main_witness :
  exists msg,
    processTaskIpc Demo.cfg Demo.host (IpcData.empty "pull_and_deploy") "alice"
      (String.eqb "alice" (MAIN_GROUP_FOLDER Demo.cfg)) (Demo.world [])
    = Ret tt (add_log warn msg (Demo.world [])).
Proof.
  apply (guarded_action_rejected_outside_main Demo.cfg Demo.host
           (IpcData.empty "pull_and_deploy") "alice" (Demo.world [])).
  - simpl. right. right. left. reflexivity.
  - simpl. discriminate.
Defined.

(** C1 as stated fails: [restart] is on the list of privileged-only
    actions, yet a [restart] request found in the namespace of the group
    alice, which is not the main one, runs the build and exits the
    process. *)
Lemma restart_outside_main_not_rejected :
  In "restart" privilegedTypes
  /\ "alice" <> MAIN_GROUP_FOLDER Demo.cfg
  /\ processTaskIpc Demo.cfg Demo.host (IpcData.empty "restart") "alice"
       (String.eqb "alice" (MAIN_GROUP_FOLDER Demo.cfg)) (Demo.world [])
     = Exit 0
         (add_call (ProcessExit 0)
            (add_log info "Build completed successfully before restart"
               (add_call (ExecSync "npm run build" (Some "/srv/claw"))
                  (add_log info
                     "Restart requested via IPC — rebuilding and exiting for service manager restart"
                     (Demo.world [])))))
  /\ ~ rejected
         (processTaskIpc Demo.cfg Demo.host (IpcData.empty "restart") "alice"
            (String.eqb "alice" (MAIN_GROUP_FOLDER Demo.cfg)) (Demo.world []))
         (Demo.world []).
Proof.
  split; [simpl; tauto|].
  split; [discriminate|].
  split; [reflexivity|].
  intros [w' [Hret _]]. discriminate Hret.
Qed.

(** [rebuild] is no different. *)
Lemma rebuild_outside_main_exits :
  match processTaskIpc Demo.cfg Demo.host (IpcData.empty "rebuild") "alice"
          (String.eqb "alice" (MAIN_GROUP_FOLDER Demo.cfg)) (Demo.world [])
  with
  | Exit code w' =>
      code = 0
      /\ calls w'
         = [ExecSync "docker build -t nanoclawbster-agent:latest ."
              (Some "/srv/claw/container");
            ExecSync "docker image prune -f" None;
            ExecSync "npm run build" (Some "/srv/claw");
            ProcessExit 0]
  | _ => False
  end.
Proof. vm_compute. split; reflexivity. Qed.

(* ===================================================================== *)
(** * [schedule_task] *)
(* ===================================================================== *)

Section Scheduling.

Context (cfg : Config) (host : Host).

Lemma processTaskIpc_schedule (data : IpcData.t) (sourceGroup : string)
    (isMain : bool) (w : World) :
  IpcData.type data = "schedule_task" ->
  processTaskIpc cfg host data sourceGroup isMain w
  = schedule_task cfg host data sourceGroup isMain (registered w) w.
Proof. intros H. unfold processTaskIpc, bind. rewrite H. reflexivity. Qed.

Lemma truthy_Some (s : string) : s <> "" -> JS.truthy (Some s) = true.
Proof. intros H. simpl. apply String.eqb_neq in H. rewrite H. reflexivity. Qed.

(** C3.  A [schedule_task] request found in a namespace other than the
    main one, whose target resolves to a registered group with another
    folder than that namespace, is rejected and creates no task. *)
Theorem schedule_task_for_other_group_rejected
    (data : IpcData.t) (sourceGroup j : string) (g : RegisteredGroup.t)
    (w : World) :
  IpcData.type data = "schedule_task" ->
  sourceGroup <> MAIN_GROUP_FOLDER cfg ->
  IpcData.targetJid data = Some j ->
  registered w !! j = Some g ->
  RegisteredGroup.folder g <> sourceGroup ->
  rejected
    (processTaskIpc cfg host data sourceGroup
       (String.eqb sourceGroup (MAIN_GROUP_FOLDER cfg)) w) w
  /\ tasks (world_of
              (processTaskIpc cfg host data sourceGroup
                 (String.eqb sourceGroup (MAIN_GROUP_FOLDER cfg)) w))
     = tasks w.
Proof.
  intros Hty Hsrc Htgt Hreg Hfolder.
  rewrite (processTaskIpc_schedule _ _ _ _ Hty).
  apply String.eqb_neq in Hsrc, Hfolder.
  unfold schedule_task. rewrite Htgt, Hsrc.
  change (default "" (Some j)) with j.
  destruct (_ && _ && _ && _).
  - rewrite Hreg, Hfolder. simpl. split; [apply rejected_log | reflexivity].
  - split; [apply rejected_same | reflexivity].
Qed.

End Scheduling.

Lemma schedule_task_for_other_group_rejected_witness :
  rejected
    (processTaskIpc Demo.cfg Demo.host aliceTargetsBob "alice"
       (String.eqb "alice" (MAIN_GROUP_FOLDER Demo.cfg)) (Demo.world []))
    (Demo.world [])
  /\ tasks (world_of
              (processTaskIpc Demo.cfg Demo.host aliceTargetsBob "alice"
                 (String.eqb "alice" (MAIN_GROUP_FOLDER Demo.cfg)) (Demo.world [])))
     = tasks (Demo.world []).
Proof.
  apply (schedule_task_for_other_group_rejected Demo.cfg Demo.host
           aliceTargetsBob "alice" "dc:2" (Demo.group "bob") (Demo.world [])).
  - reflexivity.
  - simpl. discriminate.
  - reflexivity.
  - vm_compute. reflexivity.
  - simpl. discriminate.
Defined.

Section ScheduleValidation.

Context (cfg : Config) (host : Host).

Lemma computeNextRun_accepts (ty v : string) (w w' : World)
    (nr : option string) :
  knownType ty ->
  computeNextRun cfg host ty v w = Ret (Some nr) w' ->
  validSchedule host (Some (TIMEZONE cfg)) ty v.
Proof.
  intros Hknown.
  unfold computeNextRun, validSchedule, bind, logger, ret, Date_now, toISOString.
  destruct (String.eqb_spec ty "cron") as [-> | Hc].
  { intros H. left. split; [reflexivity|].
    destruct (cronParse host v (Some (TIMEZONE cfg))); [eauto | discriminate H]. }
  destruct (String.eqb_spec ty "interval") as [-> | Hi].
  { intros H. right; left. split; [reflexivity|].
    destruct (JS.parseInt10 v) as [ms|]; [|discriminate H].
    exists ms. split; [reflexivity|].
    destruct (Z.leb_spec ms 0); [discriminate H | lia]. }
  destruct (String.eqb_spec ty "once") as [-> | Ho].
  { intros H. right; right. split; [reflexivity|].
    destruct (JS.Date_parse _ _ v) as [t|]; [eauto | discriminate H]. }
  destruct Hknown as [? | [? | ?]]; contradiction.
Qed.

Lemma computeNextRun_rejects (ty v : string) (w : World) :
  knownType ty ->
  ~ validSchedule host (Some (TIMEZONE cfg)) ty v ->
  exists msg, computeNextRun cfg host ty v w = Ret None (add_log warn msg w).
Proof.
  intros Hknown Hinvalid. unfold computeNextRun.
  destruct (String.eqb_spec ty "cron") as [-> | Hc].
  { destruct (cronParse host v (Some (TIMEZONE cfg))) as [next|] eqn:Hp.
    - exfalso. apply Hinvalid. left. eauto.
    - eexists. reflexivity. }
  destruct (String.eqb_spec ty "interval") as [-> | Hi].
  { destruct (JS.parseInt10 v) as [ms|] eqn:Hp.
    - destruct (Z.leb_spec ms 0).
      + eexists. reflexivity.
      + exfalso. apply Hinvalid. right; left. eauto.
    - eexists. reflexivity. }
  destruct (String.eqb_spec ty "once") as [-> | Ho].
  { destruct (JS.Date_parse _ _ v) as [t|] eqn:Hp.
    - exfalso. apply Hinvalid. right; right. eauto.
    - eexists. reflexivity. }
  destruct Hknown as [? | [? | ?]]; contradiction.
Qed.

(** Whatever [computeNextRun] does, the task store is as it was. *)
Lemma computeNextRun_tasks (ty v : string) (w : World) :
  tasks (world_of (computeNextRun cfg host ty v w)) = tasks w.
Proof.
  unfold computeNextRun, bind, Date_now, toISOString, logger, ret, throw.
  destruct (String.eqb ty "cron").
  { destruct (cronParse host v _) as [next|]; [|reflexivity].
    cbv beta iota.
    destruct (next (clock w)); [|reflexivity].
    destruct (JS.toISOString _); reflexivity. }
  destruct (String.eqb ty "interval").
  { destruct (JS.parseInt10 v) as [ms|]; [|reflexivity].
    destruct (ms <=? 0); [reflexivity|].
    cbv beta iota.
    destruct (JS.toISOString _); reflexivity. }
  destruct (String.eqb ty "once"); [|reflexivity].
  destruct (JS.Date_parse _ _ v); [|reflexivity].
  destruct (JS.toISOString _); reflexivity.
Qed.

(** C4 (amended).  For a [schedule_task] request whose schedule type is
    one of cron, interval and once: a task record is created only if the
    schedule value is valid for that type, and when the value is invalid
    the request is rejected and no task record is created. *)
Theorem schedule_task_validates_schedule
    (data : IpcData.t) (sourceGroup ty v : string) (isMain : bool)
    (w : World) :
  IpcData.type data = "schedule_task" ->
  IpcData.schedule_type data = Some ty ->
  IpcData.schedule_value data = Some v ->
  knownType ty ->
  (tasks (world_of (processTaskIpc cfg host data sourceGroup isMain w))
     <> tasks w ->
   validSchedule host (Some (TIMEZONE cfg)) ty v)
  /\
  (~ validSchedule host (Some (TIMEZONE cfg)) ty v ->
   rejected (processTaskIpc cfg host data sourceGroup isMain w) w
   /\ tasks (world_of (processTaskIpc cfg host data sourceGroup isMain w))
      = tasks w).
Proof.
  intros Hty Hst Hsv Hknown.
  rewrite (processTaskIpc_schedule cfg host _ _ _ _ Hty).
  unfold schedule_task. rewrite Hst, Hsv.
  change (default "" (Some ty)) with ty. change (default "" (Some v)) with v.
  destruct (_ && _ && _ && _);
    [| split; [intros H; contradiction H; reflexivity
              | intros _; split; [apply rejected_same | reflexivity]]].
  destruct (registered w !! _) as [g|];
    [| split; [intros H; contradiction H; reflexivity
              | intros _; split; [apply rejected_log | reflexivity]]].
  destruct (negb isMain && _);
    [split; [intros H; contradiction H; reflexivity
            | intros _; split; [apply rejected_log | reflexivity]] |].
  split.
  - intros Hchanged. unfold bind in Hchanged.
    pose proof (computeNextRun_tasks ty v w) as Hframe.
    destruct (computeNextRun cfg host ty v w) as [[nr|] w1 | e w1 | c w1] eqn:E;
      simpl in Hframe; try (contradiction Hchanged; exact Hframe).
    exact (computeNextRun_accepts ty v w w1 nr Hknown E).
  - intros Hinvalid.
    destruct (computeNextRun_rejects ty v w Hknown Hinvalid) as [msg Hmsg].
    unfold bind. rewrite Hmsg.
    split; [apply rejected_log | reflexivity].
Qed.

(** The same check in the container, before the request is written. *)
Lemma tool_validates_schedule (chost : Host) (args : Tool.ScheduleArgs) :
  knownType (Tool.schedule_type args) ->
  Tool.validateSchedule chost args = inr tt ->
  validSchedule chost None (Tool.schedule_type args) (Tool.schedule_value args).
Proof.
  intros Hknown. unfold Tool.validateSchedule, validSchedule.
  destruct (String.eqb_spec (Tool.schedule_type args) "cron") as [-> | Hc].
  { intros H. left. split; [reflexivity|].
    destruct (cronParse chost _ None); [eauto | discriminate H]. }
  destruct (String.eqb_spec (Tool.schedule_type args) "interval") as [-> | Hi].
  { intros H. right; left. split; [reflexivity|].
    destruct (JS.parseInt10 _) as [ms|]; [|discriminate H].
    exists ms. split; [reflexivity|].
    destruct (Z.leb_spec ms 0); [discriminate H | lia]. }
  destruct (String.eqb_spec (Tool.schedule_type args) "once") as [-> | Ho].
  { intros H. right; right. split; [reflexivity|].
    destruct (_ || _); [discriminate H|].
    destruct (JS.Date_parse _ _ _) as [t|]; [eauto | discriminate H]. }
  destruct Hknown as [? | [? | ?]]; contradiction.
Qed.

End ScheduleValidation.

Lemma schedule_task_validates_schedule_witness :
  (rejected
     (processTaskIpc Demo.cfg Demo.host (scheduleRequest "cron" "not-a-cron" "dc:1")
        "alice" false (Demo.world []))
     (Demo.world [])
   /\ tasks (world_of
               (processTaskIpc Demo.cfg Demo.host
                  (scheduleRequest "cron" "not-a-cron" "dc:1") "alice" false
                  (Demo.world [])))
      = tasks (Demo.world []))
  /\ validSchedule Demo.host (Some (TIMEZONE Demo.cfg)) "interval" "300000".
Proof.
  split.
  - apply (proj2 (schedule_task_validates_schedule Demo.cfg Demo.host
                    (scheduleRequest "cron" "not-a-cron" "dc:1") "alice"
                    "cron" "not-a-cron" false (Demo.world [])
                    eq_refl eq_refl eq_refl (or_introl eq_refl))).
    intros [[_ [n Hn]] | [[H _] | [H _]]]; discriminate.
  - apply (proj1 (schedule_task_validates_schedule Demo.cfg Demo.host
                    (scheduleRequest "interval" "300000" "dc:1") "alice"
                    "interval" "300000" false (Demo.world [])
                    eq_refl eq_refl eq_refl (or_intror (or_introl eq_refl)))).
    vm_compute. discriminate.
Defined.

(** C4 as stated fails: a request whose schedule type is none of the
    three is not validated at all.  Its value is not valid in any of the
    three senses, yet the record is stored, with no [next_run]. *)
Lemma unknown_schedule_type_is_stored :
  ~ validSchedule Demo.host (Some (TIMEZONE Demo.cfg)) "weekly" "whenever"
  /\ tasks (world_of
              (processTaskIpc Demo.cfg Demo.host
                 (scheduleRequest "weekly" "whenever" "dc:1") "alice" false
                 (Demo.world [])))
     = [Task.mk "task-1768478400000-k3x9qa" "alice" "dc:1" "water the plants"
          "weekly" "whenever" "group" None "active" "2026-01-15T12:00:00.000Z"]
  /\ tasks (Demo.world []) = [].
Proof.
  split; [| split; [vm_compute; reflexivity | reflexivity]].
  intros [[H _] | [[H _] | [H _]]]; discriminate H.
Qed.

(* ===================================================================== *)
(** * One-shot schedules and the time zone *)
(* ===================================================================== *)

Section OneShot.

Context (cfg : Config) (host : Host).

Lemma parseIso_sample (tz : JS.Zone) :
  JS.parseIso tz "2026-02-01T15:30:00" = Some (JS.toUTC tz sampleWall).
Proof. reflexivity. Qed.

Lemma TimeClip_in_range (t : Z) :
  Z.abs t <= JS.maxTime -> JS.TimeClip t = Some t.
Proof.
  intros H. unfold JS.TimeClip.
  destruct (Z.leb_spec (Z.abs t) JS.maxTime); [reflexivity | lia].
Qed.

Lemma toISOString_defined (t : Z) :
  exists s, JS.toISOString (Some t) = Some s.
Proof.
  unfold JS.toISOString. destruct (JS.civil _) as [[y m] d]. eauto.
Qed.

(** What the [once] branch does, whatever the configuration: the
    wall-clock time is taken in the zone the process runs in. *)
Lemma once_next_run_in_process_zone
    (data : IpcData.t) (sourceGroup j : string) (isMain : bool)
    (g : RegisteredGroup.t) (w : World) :
  Z.abs (localZone host sampleWall) <= 86400000 ->
  Z.abs (clock w) <= JS.maxTime ->
  IpcData.type data = "schedule_task" ->
  JS.truthy (IpcData.prompt data) = true ->
  IpcData.schedule_type data = Some "once" ->
  IpcData.schedule_value data = Some "2026-02-01T15:30:00" ->
  IpcData.targetJid data = Some j ->
  j <> "" ->
  registered w !! j = Some g ->
  isMain = true \/ RegisteredGroup.folder g = sourceGroup ->
  exists t,
    processTaskIpc cfg host data sourceGroup isMain w
    = Ret tt (add_log info "Task created via IPC"
                (set_tasks (tasks w ++ [t])%list w))
    /\ Task.next_run t
       = JS.toISOString (Some (JS.toUTC (localZone host) sampleWall))
    /\ Task.schedule_type t = "once"
    /\ Task.group_folder t = RegisteredGroup.folder g
    /\ Task.status t = "active".
Proof.
  intros Hoff Hclock Hty Hprompt Hst Hsv Htgt Hj Hreg Hauth.
  rewrite (processTaskIpc_schedule cfg host _ _ _ _ Hty).
  unfold schedule_task.
  rewrite Hprompt, Hst, Hsv, Htgt, (truthy_Some j Hj).
  change (default "" (Some j)) with j.
  change (JS.truthy (Some "once")) with true.
  change (JS.truthy (Some "2026-02-01T15:30:00")) with true.
  change (true && true && true && true) with true.
  cbv beta iota. rewrite Hreg. cbv beta iota zeta.
  assert (Hgate : negb isMain
                  && negb (String.eqb (RegisteredGroup.folder g) sourceGroup)
                  = false).
  { destruct Hauth as [-> | <-]; [reflexivity|].
    rewrite String.eqb_refl. apply andb_false_r. }
  rewrite Hgate.
  change (default "" (Some "once")) with "once".
  change (default "" (Some "2026-02-01T15:30:00")) with "2026-02-01T15:30:00".
  unfold computeNextRun.
  change (String.eqb "once" "cron") with false.
  change (String.eqb "once" "interval") with false.
  change (String.eqb "once" "once") with true.
  cbv beta iota.
  unfold JS.Date_parse. rewrite parseIso_sample.
  assert (Hwall : sampleWall = 1769959800000) by reflexivity.
  assert (Hday : JS.msPerDay = 86400000) by reflexivity.
  assert (Hmax : JS.maxTime = 8640000000000000) by reflexivity.
  rewrite TimeClip_in_range by (unfold JS.toUTC; lia).
  destruct (toISOString_defined (JS.toUTC (localZone host) sampleWall)) as [s Hs].
  destruct (toISOString_defined (clock w)) as [c Hc].
  unfold bind, toISOString, Date_now, JS.Date_of_number, ret, createTask, logger.
  rewrite Hs. cbv beta iota.
  rewrite (TimeClip_in_range _ Hclock), Hc. cbv beta iota.
  eexists. repeat split; reflexivity.
Qed.


End OneShot.



(* ===================================================================== *)
(** * The messages queue *)
(* ===================================================================== *)

Section Messages.

Context (cfg : Config) (host : Host).

Lemma maySend_spec (sourceGroup : string) (target : option RegisteredGroup.t) :
  maySend sourceGroup (String.eqb sourceGroup (MAIN_GROUP_FOLDER cfg)) target = true
  <-> sendAllowed cfg sourceGroup target.
Proof.
  unfold maySend, sendAllowed. split.
  - intros H. apply orb_true_iff in H as [H | H].
    + left. apply String.eqb_eq. exact H.
    + right. destruct target as [g|]; [|discriminate H].
      exists g. split; [reflexivity | apply String.eqb_eq; exact H].
  - intros [-> | [g [-> Hg]]].
    + rewrite String.eqb_refl. reflexivity.
    + apply orb_true_iff. right. apply String.eqb_eq. exact Hg.
Qed.

Lemma attempt_unlink (p : string) (w : World) :
  exists w',
    attempt (unlinkSync p) w = Ret tt w'
    /\ calls w' = (calls w ++ [Unlink p])%list
    /\ tasks w' = tasks w /\ logged w' = logged w.
Proof.
  unfold attempt, tryCatch, unlinkSync, fsUpdate.
  destruct (Fs.unlinkSync p (disk w)) as [e | d'];
    eexists; (split; [reflexivity|]); simpl; auto.
Qed.

(** Removing the attachments after a send: one [unlink] per path,
    failures ignored. *)
Lemma cleanup_calls (ps : list string) (w : World) :
  exists w',
    forEach ps (fun p => attempt (unlinkSync p)) w = Ret tt w'
    /\ calls w' = (calls w ++ List.map Unlink ps)%list
    /\ tasks w' = tasks w /\ logged w' = logged w.
Proof.
  revert w. induction ps as [|p ps IH]; intros w.
  - exists w. simpl. rewrite app_nil_r. auto.
  - simpl. unfold bind.
    destruct (attempt_unlink p w) as [w1 [Hrun1 [Hc1 [Ht1 Hl1]]]].
    rewrite Hrun1.
    destruct (IH w1) as [w' [Hrun [Hc [Ht Hl]]]].
    exists w'. rewrite Hrun, Hc, Hc1, Ht, Hl, <- app_assoc. auto.
Qed.

(** C8 (amended).  A [message] request that carries a non-empty
    [chatJid] and a non-empty [text] is handed to [sendMessage] exactly
    when its namespace is the main one or the chat is registered with
    the folder of that namespace; in every other case nothing is sent:
    the request is blocked with a warning, or, when [chatJid] or [text]
    is missing or empty, dropped without a word. *)
Theorem message_sent_iff_allowed
    (data : IpcData.t) (sourceGroup : string)
    (registeredGroups : gmap string RegisteredGroup.t) (w : World) :
  IpcData.type data = "message" ->
  let jid := default "" (IpcData.chatJid data) in
  let text := default "" (IpcData.text data) in
  let deliverable :=
    JS.truthy (IpcData.chatJid data) = true
    /\ JS.truthy (IpcData.text data) = true
    /\ sendAllowed cfg sourceGroup (registeredGroups !! jid) in
  let outcome :=
    handleMessage cfg host data sourceGroup
      (String.eqb sourceGroup (MAIN_GROUP_FOLDER cfg)) registeredGroups w in
  (deliverable ->
   exists fl,
     calls (world_of outcome)
     = (calls w ++ SendMessage jid text fl
          :: (if sendFails host jid then []
              else List.map Unlink (default [] fl)))%list)
  /\
  (~ deliverable ->
   outcome = Ret tt w
   \/ outcome
      = Ret tt (add_log warn "Unauthorized IPC message attempt blocked" w)).
Proof.
  intros Hty. cbv zeta. unfold handleMessage. rewrite Hty.
  change (String.eqb "message" "message") with true. cbn [andb].
  destruct (JS.truthy (IpcData.chatJid data));
    [| split; [intros [H _]; discriminate H | intros _; left; reflexivity]].
  destruct (JS.truthy (IpcData.text data));
    [| split; [intros [_ [H _]]; discriminate H | intros _; left; reflexivity]].
  cbn [andb]. cbv beta iota zeta.
  destruct (maySend sourceGroup _ (registeredGroups !! _)) eqn:Hmay.
  - split.
    + intros _.
      unfold bind, getDisk, deps_sendMessage, call, logger.
      cbv beta iota zeta.
      set (jid := default "" (IpcData.chatJid data)).
      set (text := default "" (IpcData.text data)).
      set (resolved := resolveFiles (disk w) _ _).
      exists (match resolved with [] => None | _ => Some resolved end).
      destruct (sendFails host jid).
      * reflexivity.
      * unfold ret, bind. cbv beta iota.
        destruct (cleanup_calls resolved
                    (add_log info "IPC message sent"
                       (add_call (SendMessage jid text
                          (match resolved with [] => None | _ => Some resolved end)) w)))
          as [w' [Hrun [Hc _]]].
        rewrite Hrun. simpl world_of. rewrite Hc. simpl calls.
        rewrite <- app_assoc. simpl.
        destruct resolved; reflexivity.
    + intros Hno. exfalso. apply Hno.
      repeat split. apply maySend_spec. exact Hmay.
  - split.
    + intros [_ [_ Hyes]]. apply maySend_spec in Hyes. congruence.
    + intros _. right. reflexivity.
Qed.

(** A request without [chatJid] or without [text] is dropped, whatever
    its namespace. *)
Lemma message_without_text_dropped
    (data : IpcData.t) (sourceGroup : string) (isMain : bool)
    (registeredGroups : gmap string RegisteredGroup.t) (w : World) :
  JS.truthy (IpcData.chatJid data) && JS.truthy (IpcData.text data) = false ->
  handleMessage cfg host data sourceGroup isMain registeredGroups w = Ret tt w.
Proof.
  intros H. unfold handleMessage.
  rewrite <- andb_assoc, H, andb_false_r. reflexivity.
Qed.

(** C2.  Two requests found in the same namespace that differ only in
    the identity their payload claims are treated identically, in the
    tasks queue and in the messages queue: same outcome, same state,
    same log, same calls. *)
Theorem claimed_identity_is_ignored
    (d d' : IpcData.t) (sourceGroup : string) (w : World) :
  sameUpToClaimedIdentity d d' ->
  processTaskIpc cfg host d sourceGroup
    (String.eqb sourceGroup (MAIN_GROUP_FOLDER cfg)) w
  = processTaskIpc cfg host d' sourceGroup
      (String.eqb sourceGroup (MAIN_GROUP_FOLDER cfg)) w
  /\
  handleMessage cfg host d sourceGroup
    (String.eqb sourceGroup (MAIN_GROUP_FOLDER cfg)) (registered w) w
  = handleMessage cfg host d' sourceGroup
      (String.eqb sourceGroup (MAIN_GROUP_FOLDER cfg)) (registered w) w.
Proof.
  destruct d, d'. unfold sameUpToClaimedIdentity. simpl.
  intros H. decompose [and] H. subst. split; reflexivity.
Qed.

End Messages.

Lemma message_sent_iff_allowed_witness :
  (exists fl,
     calls (world_of
              (handleMessage Demo.cfg Demo.host (messageRequest "dc:1" "hello" None)
                 "alice" (String.eqb "alice" (MAIN_GROUP_FOLDER Demo.cfg))
                 Demo.groups (Demo.world [])))
     = (calls (Demo.world []) ++ SendMessage "dc:1" "hello" fl
          :: (if sendFails Demo.host "dc:1" then []
              else List.map Unlink (default [] fl)))%list)
  /\
  (handleMessage Demo.cfg Demo.host (messageRequest "dc:2" "hello" None)
     "alice" (String.eqb "alice" (MAIN_GROUP_FOLDER Demo.cfg))
     Demo.groups (Demo.world [])
   = Ret tt (Demo.world [])
   \/
   handleMessage Demo.cfg Demo.host (messageRequest "dc:2" "hello" None)
     "alice" (String.eqb "alice" (MAIN_GROUP_FOLDER Demo.cfg))
     Demo.groups (Demo.world [])
   = Ret tt (add_log warn "Unauthorized IPC message attempt blocked"
               (Demo.world []))).
Proof.
  split.
  - apply (proj1 (message_sent_iff_allowed Demo.cfg Demo.host
                    (messageRequest "dc:1" "hello" None) "alice"
                    Demo.groups (Demo.world []) eq_refl)).
    split; [reflexivity|]. split; [reflexivity|].
    right. exists (Demo.group "alice").
    split; [vm_compute; reflexivity | reflexivity].
  - apply (proj2 (message_sent_iff_allowed Demo.cfg Demo.host
                    (messageRequest "dc:2" "hello" None) "alice"
                    Demo.groups (Demo.world []) eq_refl)).
    intros [_ [_ [H | [g [Hg Hf]]]]]; [discriminate H|].
    vm_compute in Hg. injection Hg as <-. discriminate Hf.
Defined.

(** C8 as stated fails: a request of type [message] found in the main
    namespace, with an empty text, is not delivered. *)
Lemma empty_message_from_main_not_sent :
  IpcData.type (messageRequest "dc:1" "" None) = "message"
  /\ "main" = MAIN_GROUP_FOLDER Demo.cfg
  /\ handleMessage Demo.cfg Demo.host (messageRequest "dc:1" "" None) "main"
       (String.eqb "main" (MAIN_GROUP_FOLDER Demo.cfg)) Demo.groups (Demo.world [])
     = Ret tt (Demo.world [])
  /\ calls (Demo.world []) = [].
Proof. repeat split. Qed.

Lemma claimed_identity_is_ignored_witness :
  processTaskIpc Demo.cfg Demo.host aliceTargetsBob "alice"
    (String.eqb "alice" (MAIN_GROUP_FOLDER Demo.cfg)) (Demo.world [])
  = processTaskIpc Demo.cfg Demo.host aliceTargetsBobPlain "alice"
      (String.eqb "alice" (MAIN_GROUP_FOLDER Demo.cfg)) (Demo.world [])
  /\
  handleMessage Demo.cfg Demo.host aliceTargetsBob "alice"
    (String.eqb "alice" (MAIN_GROUP_FOLDER Demo.cfg))
    (registered (Demo.world [])) (Demo.world [])
  = handleMessage Demo.cfg Demo.host aliceTargetsBobPlain "alice"
      (String.eqb "alice" (MAIN_GROUP_FOLDER Demo.cfg))
      (registered (Demo.world [])) (Demo.world []).
Proof.
  apply (claimed_identity_is_ignored Demo.cfg Demo.host aliceTargetsBob
           aliceTargetsBobPlain "alice" (Demo.world [])).
  unfold sameUpToClaimedIdentity. simpl. repeat split.
Defined.

(* ===================================================================== *)
(** * Attachments *)
(* ===================================================================== *)

Section Attachments.

Lemma split_segments_have_no_slash (s seg : string) :
  In seg (JS.split Path.slash s) -> JS.includes "/" seg = false.
Proof.
  unfold Path.slash.
  revert seg. induction s as [|c r IH]; intros seg; cbn [JS.split].
  - intros [<- | []]. reflexivity.
  - destruct (Ascii.eqb_spec c "/"%char) as [-> | Hc].
    + intros [<- | Hin]; [reflexivity | apply IH; exact Hin].
    + assert (Hne : Ascii.eqb "/"%char c = false)
        by (apply Ascii.eqb_neq; congruence).
      destruct (JS.split "/"%char r) as [|x xs] eqn:Hs.
      * intros [<- | []].
        cbn [JS.includes JS.startsWith]. rewrite Hne. reflexivity.
      * intros [<- | Hin].
        -- cbn [JS.includes JS.startsWith]. rewrite Hne.
           apply (IH x). left. reflexivity.
        -- apply IH. right. exact Hin.
Qed.

Lemma dropTrailingEmpty_incl (l : list string) (x : string) :
  In x (Path.dropTrailingEmpty l) -> In x l.
Proof.
  revert x. induction l as [|y l IH]; intros x; simpl; [tauto|].
  destruct (Path.dropTrailingEmpty l) as [|z l'] eqn:Hd.
  - destruct (String.eqb y ""); simpl; tauto.
  - intros [<- | Hin]; [tauto | right; apply IH; exact Hin].
Qed.

Lemma last_in_or_default (l : list string) (d : string) :
  List.last l d = d \/ In (List.last l d) l.
Proof.
  induction l as [|x l IH]; [left; reflexivity|].
  destruct l as [|y l]; [right; left; reflexivity|].
  destruct IH as [IH | IH].
  - left. exact IH.
  - right. right. exact IH.
Qed.

(** [path.basename] never returns a separator. *)
Lemma basename_has_no_slash (p : string) :
  JS.includes "/" (Path.basename p) = false.
Proof.
  unfold Path.basename.
  destruct (last_in_or_default (Path.dropTrailingEmpty (JS.split Path.slash p)) "")
    as [-> | Hin]; [reflexivity|].
  apply (split_segments_have_no_slash p).
  apply dropTrailingEmpty_incl. exact Hin.
Qed.

Lemma split_without_slash (f : string) :
  JS.includes "/" f = false -> JS.split Path.slash f = [f].
Proof.
  unfold Path.slash. induction f as [|c r IH]; [reflexivity|].
  cbn [JS.includes JS.startsWith JS.split]. intros H.
  apply orb_false_iff in H as [Hhead Htail].
  destruct r; cbn [JS.startsWith] in Hhead; rewrite andb_true_r in Hhead;
    rewrite Ascii.eqb_sym, Hhead; rewrite (IH Htail); reflexivity.
Qed.

(** The filter [path.basename(f) === f] keeps exactly the names without
    a separator; the empty name, [.] and [..] are among them. *)
Lemma basename_fixed_iff (f : string) :
  Path.basename f = f <-> JS.includes "/" f = false.
Proof.
  split.
  - intros H. rewrite <- H. apply basename_has_no_slash.
  - intros H. unfold Path.basename. rewrite (split_without_slash f H).
    cbn [Path.dropTrailingEmpty].
    destruct (String.eqb_spec f "") as [-> | _]; reflexivity.
Qed.

(** An entry with a separator in it is never forwarded, nor is one that
    names nothing on the disk. *)
Lemma resolveFiles_sound (d : Fs.t) (dir p : string)
    (files : option (list JsonItem)) :
  In p (resolveFiles d dir files) ->
  exists f, In (JString f) (default [] files)
    /\ JS.includes "/" f = false
    /\ p = Path.join [dir; f]
    /\ Fs.existsSync p d = true.
Proof.
  unfold resolveFiles. intros Hin.
  apply List.filter_In in Hin as [Hin Hex].
  apply List.in_map_iff in Hin as [f [<- Hin]].
  apply List.filter_In in Hin as [Hin Hbase].
  apply String.eqb_eq in Hbase.
  exists f. repeat split; try assumption.
  - unfold stringItems in Hin.
    apply list_elem_of_In, list_elem_of_omap in Hin as [item [Hitem Hf]].
    destruct item; [|discriminate Hf]. injection Hf as ->.
    apply list_elem_of_In. exact Hitem.
  - rewrite <- Hbase. apply basename_has_no_slash.
Qed.

(** C9 fails on the entry [".."]: it is its own basename, it resolves to
    the namespace directory, which exists, and that path, which is not
    in the attachments directory, is forwarded to [sendMessage] and then
    handed to [unlink]. *)
Theorem dotdot_attachment_is_forwarded :
  let attachmentsDir := Path.join [ipcBaseDir Demo.cfg; "alice"; "attachments"] in
  let request := messageRequest "dc:1" "hi" (Some [JString ".."]) in
  resolveFiles (disk (Demo.world [])) attachmentsDir (IpcData.files request)
  = ["/srv/claw/data/ipc/alice"]
  /\ entryOf attachmentsDir "/srv/claw/data/ipc/alice" = false
  /\ calls (world_of
              (handleMessage Demo.cfg Demo.host request "alice"
                 (String.eqb "alice" (MAIN_GROUP_FOLDER Demo.cfg))
                 Demo.groups (Demo.world [])))
     = [SendMessage "dc:1" "hi" (Some ["/srv/claw/data/ipc/alice"]);
        Unlink "/srv/claw/data/ipc/alice"].
Proof. vm_compute. repeat split. Qed.

End Attachments.

(* ===================================================================== *)
(** * Consuming request files *)
(* ===================================================================== *)

(** C5 fails on a task request whose handler throws.  The file is
    deleted before [processTaskIpc] runs; when the handler throws, the
    [catch] block tries to rename the deleted file into [errors], which
    fails in turn: the request is gone and [errors] holds nothing. *)
Theorem throwing_task_request_is_lost :
  let file := aliceTasks +:+ "/1768478400000-ab12cd.json" in
  let after := world_of (processIpcFiles Demo.cfg Demo.host
                           (oneTask (Fs.Json farInterval))) in
  processTaskIpc Demo.cfg Demo.host farInterval "alice" false
    (Demo.world [])
  = Throw RangeError (Demo.world [])
  /\ Fs.existsSync file (disk after) = false
  /\ Fs.readdirSync errorsDir (disk after) = inr []
  /\ tasks after = []
  /\ calls after
     = [ReadFile file; Unlink file; Mkdir errorsDir;
        Rename file (errorsDir +:+ "/alice-1768478400000-ab12cd.json")]
  /\ logged after
     = [(error, "Error processing IPC task");
        (error, "Error reading IPC tasks directory")].
Proof. vm_compute. repeat split. Qed.

(** The messages queue, which deletes after acting, does keep a request
    whose handling throws. *)
Lemma throwing_message_request_is_kept :
  let after := world_of (processIpcFiles Demo.cfg hostOffline
                           (oneMessage (Fs.Json (messageRequest "dc:1" "hi" None)))) in
  Fs.existsSync (aliceMessages +:+ "/1768478400000-ab12cd.json") (disk after) = false
  /\ Fs.readdirSync errorsDir (disk after)
     = inr ["alice-1768478400000-ab12cd.json"].
Proof. vm_compute. split; reflexivity. Qed.

(** A file that is not JSON is moved to [errors] from either queue. *)
Lemma malformed_request_is_kept :
  Fs.readdirSync errorsDir
    (disk (world_of (processIpcFiles Demo.cfg Demo.host (oneTask Fs.Unparseable))))
  = inr ["alice-1768478400000-ab12cd.json"]
  /\ Fs.readdirSync errorsDir
       (disk (world_of (processIpcFiles Demo.cfg Demo.host (oneMessage Fs.Unparseable))))
     = inr ["alice-1768478400000-ab12cd.json"]
  /\ Fs.readdirSync aliceTasks
       (disk (world_of (processIpcFiles Demo.cfg Demo.host (oneTask Fs.Unparseable))))
     = inr [].
Proof. vm_compute. repeat split. Qed.

(** A request that is handled without error is deleted, and a second
    poll finds nothing to do. *)
Lemma handled_request_is_consumed_once :
  let once := world_of (processIpcFiles Demo.cfg Demo.host
                          (oneTask (Fs.Json (scheduleRequest "interval" "300000" "dc:1")))) in
  let twice := world_of (processIpcFiles Demo.cfg Demo.host once) in
  List.length (tasks once) = 1%nat
  /\ Fs.readdirSync aliceTasks (disk once) = inr []
  /\ tasks twice = tasks once
  /\ calls twice = calls once.
Proof. vm_compute. repeat split. Qed.

(* ===================================================================== *)
(** * Child processes *)
(* ===================================================================== *)

Section ChildProcesses.

Context (host : Host) (cmd : string) (cwd : option string) (w : World).

Lemma calls_afterExec :
  calls (afterExec host cmd cwd w) = (calls w ++ [ExecSync cmd cwd])%list.
Proof. unfold afterExec. destruct (writesFiles cmd); reflexivity. Qed.

Lemma tasks_afterExec : tasks (afterExec host cmd cwd w) = tasks w.
Proof. unfold afterExec. destruct (writesFiles cmd); reflexivity. Qed.

Lemma logged_afterExec : logged (afterExec host cmd cwd w) = logged w.
Proof. unfold afterExec. destruct (writesFiles cmd); reflexivity. Qed.

Lemma afterExec_docker :
  writesFiles cmd = false ->
  afterExec host cmd cwd w = add_call (ExecSync cmd cwd) w.
Proof. intros H. unfold afterExec. rewrite H. reflexivity. Qed.

Lemma afterExec_writes :
  writesFiles cmd = true ->
  afterExec host cmd cwd w
  = set_disk (execWrites host (calls w) cmd cwd (disk w))
      (add_call (ExecSync cmd cwd) w).
Proof. intros H. unfold afterExec. rewrite H. reflexivity. Qed.

End ChildProcesses.

(** Brings the calls of a world built by logging, calling and child
    processes into the form [calls w ++ l]. *)
Ltac calls_norm :=
  repeat first [rewrite calls_afterExec
               | progress cbn [calls add_log add_call]];
  rewrite <- ?List.app_assoc.

(* ===================================================================== *)
(** * The order in which a queue is drained *)
(* ===================================================================== *)

Section ReadTrace.

Lemma reads_app (a b : list Call) :
  reads (a ++ b)%list = (reads a ++ reads b)%list.
Proof. apply omap_app. Qed.

Lemma reads_add_call (c : Call) (w : World) :
  reads (calls (add_call c w))
  = (reads (calls w)
     ++ match c with ReadFile p => [p] | _ => [] end)%list.
Proof. simpl. rewrite reads_app. destruct c; reflexivity. Qed.

Lemma quiet_ret {A} (a : A) : quiet (ret a).
Proof. intros w. reflexivity. Qed.

Lemma quiet_throw {A} (e : Error) : quiet (@throw A e).
Proof. intros w. reflexivity. Qed.

Lemma quiet_get {A} (f : World -> A) : quiet (fun w => Ret (f w) w).
Proof. intros w. reflexivity. Qed.

Lemma quiet_bind {A B} (m : M A) (k : A -> M B) :
  quiet m -> (forall a, quiet (k a)) -> quiet (bind m k).
Proof.
  intros Hm Hk w. unfold bind. specialize (Hm w).
  destruct (m w) as [a w1 | e w1 | c w1]; simpl in Hm; [|exact Hm|exact Hm].
  rewrite (Hk a w1). exact Hm.
Qed.

Lemma quiet_tryCatch {A} (m : M A) (h : Error -> M A) :
  quiet m -> (forall e, quiet (h e)) -> quiet (tryCatch m h).
Proof.
  intros Hm Hh w. unfold tryCatch. specialize (Hm w).
  destruct (m w) as [a w1 | e w1 | c w1]; simpl in Hm; [exact Hm| |exact Hm].
  rewrite (Hh e w1). exact Hm.
Qed.

Lemma quiet_attempt (m : M unit) : quiet m -> quiet (attempt m).
Proof. intros H. apply quiet_tryCatch; [exact H | intros e; apply quiet_ret]. Qed.

Lemma quiet_forEach {A} (xs : list A) (body : A -> M unit) :
  (forall x, quiet (body x)) -> quiet (forEach xs body).
Proof.
  intros H. induction xs as [|x xs IH]; simpl.
  - apply quiet_ret.
  - apply quiet_bind; [apply H | intros _; exact IH].
Qed.

Lemma quiet_logger (l : Level) (msg : string) : quiet (logger l msg).
Proof. intros w. reflexivity. Qed.

Lemma quiet_call (c : Call) :
  match c with ReadFile _ => False | _ => True end -> quiet (call c).
Proof.
  intros Hc w. unfold call. simpl world_of. rewrite reads_add_call.
  destruct c; try contradiction; apply app_nil_r.
Qed.

Lemma quiet_process_exit {A} (code : Z) : quiet (@process_exit A code).
Proof.
  intros w. unfold process_exit. simpl world_of.
  rewrite reads_add_call. apply app_nil_r.
Qed.

Lemma quiet_fsUpdate (c : Call) (p : string) (op : Fs.t -> Fs.Errno + Fs.t) :
  match c with ReadFile _ => False | _ => True end -> quiet (fsUpdate c p op).
Proof.
  intros Hc w. unfold fsUpdate.
  destruct (op (disk w)); simpl world_of; simpl calls;
    rewrite reads_app; destruct c; try contradiction; apply app_nil_r.
Qed.

Lemma quiet_toISOString (tv : option Z) : quiet (toISOString tv).
Proof.
  unfold toISOString. destruct (JS.toISOString tv);
    [apply quiet_ret | apply quiet_throw].
Qed.

Lemma quiet_set_tasks (f : World -> list Task.t) :
  quiet (fun w => Ret tt (set_tasks (f w) w)).
Proof. intros w. reflexivity. Qed.

Context (cfg : Config) (host : Host).

Lemma quiet_execSync (cmd : string) (cwd : option string) :
  quiet (execSync host cmd cwd).
Proof.
  intros w. unfold execSync.
  destruct (execResult host (calls w) cmd); simpl world_of;
    rewrite calls_afterExec, reads_app; apply app_nil_r.
Qed.

Lemma quiet_exec_ (cmd : string) (cwd : option string) :
  quiet (exec_ host cmd cwd).
Proof.
  apply quiet_bind; [apply quiet_execSync | intros _; apply quiet_ret].
Qed.

End ReadTrace.

Create HintDb quiet discriminated.

#[local] Hint Resolve quiet_ret quiet_throw quiet_logger quiet_process_exit
  quiet_toISOString quiet_execSync quiet_exec_ quiet_attempt : quiet.
#[local] Hint Extern 1 (quiet (call _)) => apply quiet_call; exact I : quiet.
#[local] Hint Extern 1 (quiet (fsUpdate _ _ _)) =>
  apply quiet_fsUpdate; exact I : quiet.
#[local] Hint Extern 1 (quiet (fun w => Ret (_ w) w)) => apply quiet_get : quiet.

(** Walks down a handler: sequencing, [try], loops and branches. *)
Ltac quiet_step :=
  lazymatch goal with
  | |- quiet (bind _ _) => apply quiet_bind; [| intros ?]
  | |- quiet (tryCatch _ _) => apply quiet_tryCatch; [| intros ?]
  | |- quiet (attempt _) => apply quiet_attempt
  | |- quiet (forEach _ _) => apply quiet_forEach; intros ?
  | |- quiet (if ?b then _ else _) => destruct b
  | |- quiet (match ?x with _ => _ end) => destruct x
  | |- quiet (fun w => Ret _ w) => intros ?; reflexivity
  | |- quiet _ => solve [auto with quiet]
  end.

Section DrainOrder.

Context (cfg : Config) (host : Host).

Lemma quiet_computeNextRun (ty v : string) :
  quiet (computeNextRun cfg host ty v).
Proof.
  unfold computeNextRun, Date_now. repeat quiet_step.
Qed.

Lemma quiet_schedule_task (data : IpcData.t) (src : string) (isMain : bool)
    (rg : gmap string RegisteredGroup.t) :
  quiet (schedule_task cfg host data src isMain rg).
Proof.
  unfold schedule_task. cbv zeta.
  destruct (_ && _ && _ && _); [|apply quiet_ret].
  destruct (rg !! _); [|apply quiet_logger].
  destruct (negb isMain && _); [apply quiet_logger|].
  apply quiet_bind; [apply quiet_computeNextRun|].
  intros [nr|]; [|apply quiet_ret].
  unfold Date_now, createTask. repeat quiet_step.
  apply quiet_set_tasks.
Qed.

Lemma quiet_onOwnedTask (data : IpcData.t) (src : string) (isMain : bool)
    (act : string -> M unit) (done denied : string) :
  (forall id, quiet (act id)) ->
  quiet (onOwnedTask data src isMain act done denied).
Proof.
  intros Hact. unfold onOwnedTask. cbv zeta.
  destruct (JS.truthy _); [|apply quiet_ret].
  apply quiet_bind; [apply quiet_get|].
  intros [t|]; [|apply quiet_logger].
  destruct (_ || _); [|apply quiet_logger].
  apply quiet_bind; [apply Hact | intros _; apply quiet_logger].
Qed.

Lemma quiet_pull_and_deploy (data : IpcData.t) (isMain : bool) :
  quiet (pull_and_deploy cfg host data isMain).
Proof.
  unfold pull_and_deploy, existsSync. cbv zeta. repeat quiet_step.
Qed.

Lemma quiet_processTaskIpc (data : IpcData.t) (src : string) (isMain : bool) :
  quiet (processTaskIpc cfg host data src isMain).
Proof.
  unfold processTaskIpc. apply quiet_bind; [apply quiet_get | intros rg].
  cbv zeta.
  destruct (String.eqb _ "schedule_task"); [apply quiet_schedule_task|].
  destruct (String.eqb _ "pause_task");
    [apply quiet_onOwnedTask; intros id; apply quiet_set_tasks|].
  destruct (String.eqb _ "resume_task");
    [apply quiet_onOwnedTask; intros id; apply quiet_set_tasks|].
  destruct (String.eqb _ "cancel_task");
    [apply quiet_onOwnedTask; intros id; apply quiet_set_tasks|].
  destruct (String.eqb _ "refresh_groups");
    [unfold refresh_groups; repeat quiet_step|].
  destruct (String.eqb _ "register_group");
    [unfold register_group, Date_now; cbv zeta; repeat quiet_step|].
  destruct (String.eqb _ "restart"); [unfold restart; repeat quiet_step|].
  destruct (String.eqb _ "rebuild");
    [unfold rebuild; cbv zeta; repeat quiet_step|].
  destruct (String.eqb _ "test_container_build");
    [unfold test_container_build, writeFileSync; cbv zeta; repeat quiet_step|].
  destruct (String.eqb _ "pull_and_deploy"); [apply quiet_pull_and_deploy|].
  apply quiet_logger.
Qed.

Lemma quiet_moveToErrors (src file filePath : string) :
  quiet (moveToErrors cfg src file filePath).
Proof.
  unfold moveToErrors, mkdirSync, renameSync. cbv zeta. repeat quiet_step.
Qed.

Lemma quiet_handleMessage (data : IpcData.t) (src : string) (isMain : bool)
    (rg : gmap string RegisteredGroup.t) :
  quiet (handleMessage cfg host data src isMain rg).
Proof.
  unfold handleMessage, deps_sendMessage, getDisk, unlinkSync. cbv zeta.
  repeat quiet_step.
Qed.

End DrainOrder.

Section DrainOrderMain.

Context (cfg : Config) (host : Host).

Lemma readsOnly_readJson (p : string) : readsOnly p (readJson p).
Proof.
  intros w. unfold readJson, bind, readFileSync, fsQuery.
  destruct (Fs.readFileSync p (disk w)) as [e | c].
  - simpl world_of. apply reads_add_call.
  - destruct c; simpl world_of; apply reads_add_call.
Qed.

Lemma readsOnly_bind {A B} (p : string) (m : M A) (k : A -> M B) :
  readsOnly p m -> (forall a, quiet (k a)) -> readsOnly p (bind m k).
Proof.
  intros Hm Hk w. unfold bind. specialize (Hm w).
  destruct (m w) as [a w1 | e w1 | c w1]; simpl in Hm; [|exact Hm|exact Hm].
  rewrite (Hk a w1). exact Hm.
Qed.

Lemma readsOnly_tryCatch {A} (p : string) (m : M A) (h : Error -> M A) :
  readsOnly p m -> (forall e, quiet (h e)) -> readsOnly p (tryCatch m h).
Proof.
  intros Hm Hh w. unfold tryCatch. specialize (Hm w).
  destruct (m w) as [a w1 | e w1 | c w1]; simpl in Hm; [exact Hm| |exact Hm].
  rewrite (Hh e w1). exact Hm.
Qed.

Lemma readsOnly_processMessageFile (src : string) (isMain : bool)
    (rg : gmap string RegisteredGroup.t) (dir file : string) :
  readsOnly (Path.join [dir; file])
    (processMessageFile cfg host src isMain rg dir file).
Proof.
  unfold processMessageFile. cbv zeta.
  apply readsOnly_tryCatch.
  - apply readsOnly_bind; [apply readsOnly_readJson|].
    intros data. apply quiet_bind; [apply quiet_handleMessage|].
    intros _. apply quiet_fsUpdate. exact I.
  - intros e. apply quiet_bind; [apply quiet_logger|].
    intros _. apply quiet_moveToErrors.
Qed.

Lemma readsOnly_processTaskFile (src : string) (isMain : bool)
    (dir file : string) :
  readsOnly (Path.join [dir; file])
    (processTaskFile cfg host src isMain dir file).
Proof.
  unfold processTaskFile. cbv zeta.
  apply readsOnly_tryCatch.
  - apply readsOnly_bind; [apply readsOnly_readJson|].
    intros data. apply quiet_bind; [apply quiet_fsUpdate; exact I|].
    intros _. apply quiet_processTaskIpc.
  - intros e. apply quiet_bind; [apply quiet_logger|].
    intros _. apply quiet_moveToErrors.
Qed.

(** A loop whose body reads one file per element reads the files of a
    prefix of the list, in the order of the list: all of them if the
    loop returns, and at least one if a body throws or exits. *)
Lemma forEach_reads {A} (path : A -> string) (body : A -> M unit)
    (xs : list A) :
  (forall x, readsOnly (path x) (body x)) ->
  forall w, exists k,
    reads (calls (world_of (forEach xs body w)))
    = (reads (calls w) ++ List.map path (take k xs))%list
    /\ match forEach xs body w with
       | Ret _ _ => k = List.length xs
       | _ => (0 < k)%nat
       end.
Proof.
  intros Hbody. induction xs as [|x xs IH]; intros w.
  - exists 0%nat. simpl. split; [symmetry; apply app_nil_r | reflexivity].
  - simpl forEach. unfold bind. specialize (Hbody x w).
    destruct (body x w) as [[] w1 | e w1 | c w1]; simpl in Hbody.
    + destruct (IH w1) as [k [Hk Ho]]. exists (S k). split.
      * rewrite Hk, Hbody, <- app_assoc. reflexivity.
      * destruct (forEach xs body w1); cbn [List.length]; lia.
    + exists 1%nat. simpl. rewrite Hbody. split; [reflexivity | lia].
    + exists 1%nat. simpl. rewrite Hbody. split; [reflexivity | lia].
Qed.

Lemma last_snoc {A} (l : list A) (x d : A) : List.last (l ++ [x]) d = x.
Proof.
  induction l as [|y l IH]; [reflexivity|].
  cbn [app List.last]. destruct (l ++ [x])%list eqn:E; [|exact IH].
  destruct l; discriminate E.
Qed.

(** The loop over one queue directory. *)
Lemma queue_reads (dir msg : string) (body : string -> M unit) :
  (forall f, readsOnly (Path.join [dir; f]) (body f)) ->
  forall w,
    let o := tryCatch
               (present <- existsSync dir ;;
                if present then
                  files <- requestFiles dir ;; forEach files body
                else ret tt)
               (fun _ => logger error msg) w in
    exists k,
      reads (calls (world_of o))
      = (reads (calls w)
         ++ List.map (fun f => Path.join [dir; f])
              (take k (pendingNames dir w)))%list
      /\ (k = List.length (pendingNames dir w)
          \/ (0 < k)%nat /\ stoppedEarly msg o).
Proof.
  intros Hbody w. cbv zeta.
  cbv [tryCatch bind existsSync requestFiles readdirSync ret pendingNames].
  destruct (Fs.existsSync dir (disk w)) eqn:Hex.
  - destruct (Fs.readdirSync dir (disk w)) as [e | names].
    + exists 0%nat. simpl. split; [symmetry; apply app_nil_r | left; reflexivity].
    + destruct (forEach_reads (fun f => Path.join [dir; f]) body
                  (List.filter (JS.endsWith ".json") names) Hbody w)
        as [k [Hk Ho]].
      exists k.
      destruct (forEach _ body w) as [a w1 | e w1 | c w1].
      * split; [exact Hk | left; exact Ho].
      * split; [exact Hk|]. right. split; [exact Ho|].
        unfold logger, stoppedEarly. cbn [logged add_log]. apply last_snoc.
      * split; [exact Hk|]. right. split; [exact Ho | exact I].
  - exists 0%nat. simpl. split; [symmetry; apply app_nil_r | left].
    unfold Fs.readdirSync. unfold Fs.existsSync in Hex.
    destruct (Fs.lookup dir (disk w)); [discriminate Hex | reflexivity].
Qed.

End DrainOrderMain.

(* ===================================================================== *)
(** * The order of a directory listing *)
(* ===================================================================== *)

Lemma append_cons (x : ascii) (a b : string) :
  String x a +:+ b = String x (a +:+ b).
Proof. reflexivity. Qed.

Lemma append_assoc (a b c : string) : (a +:+ b) +:+ c = a +:+ (b +:+ c).
Proof.
  induction a as [|x a IH]; [reflexivity|].
  rewrite !append_cons, IH. reflexivity.
Qed.

Lemma append_nil_r (a : string) : a +:+ "" = a.
Proof.
  induction a as [|x a IH]; [reflexivity|].
  rewrite append_cons, IH. reflexivity.
Qed.

Ltac compare_codes :=
  repeat match goal with
         | |- context [?x <? ?y] => destruct (Z.ltb_spec x y)
         | |- context [?x =? ?y] => destruct (Z.eqb_spec x y)
         | H : context [?x <? ?y] |- _ => destruct (Z.ltb_spec x y)
         | H : context [?x =? ?y] |- _ => destruct (Z.eqb_spec x y)
         end;
  try discriminate; try lia; auto.

Lemma code_inj (x y : ascii) : JS.code x = JS.code y -> x = y.
Proof.
  unfold JS.code. intros H. apply N2Z.inj in H.
  apply (f_equal ascii_of_N) in H. rewrite !ascii_N_embedding in H. exact H.
Qed.

Lemma nameLe_refl (a : string) : Fs.nameLe a a = true.
Proof.
  induction a as [|x a IH]; [reflexivity|]. cbn [Fs.nameLe].
  rewrite Z.ltb_irrefl, Z.eqb_refl. exact IH.
Qed.

Lemma nameLe_total (a b : string) :
  Fs.nameLe a b = false -> Fs.nameLe b a = true.
Proof.
  revert b. induction a as [|x a IH]; intros [|y b]; cbn [Fs.nameLe];
    try discriminate; try reflexivity.
  generalize (IH b). generalize (JS.code x), (JS.code y). intros cx cy.
  compare_codes.
Qed.

Lemma nameLe_trans (a b c : string) :
  Fs.nameLe a b = true -> Fs.nameLe b c = true -> Fs.nameLe a c = true.
Proof.
  revert b c. induction a as [|x a IH]; intros [|y b] [|z c];
    cbn [Fs.nameLe]; try discriminate; try reflexivity.
  generalize (IH b c).
  generalize (JS.code x), (JS.code y), (JS.code z). intros cx cy cz.
  compare_codes.
Qed.

Lemma nameLe_antisym (a b : string) :
  Fs.nameLe a b = true -> Fs.nameLe b a = true -> a = b.
Proof.
  revert b. induction a as [|x a IH]; intros [|y b]; cbn [Fs.nameLe];
    try discriminate; try reflexivity.
  destruct (Z.ltb_spec (JS.code x) (JS.code y));
    destruct (Z.ltb_spec (JS.code y) (JS.code x)); try lia;
    destruct (Z.eqb_spec (JS.code x) (JS.code y)) as [E|];
    destruct (Z.eqb_spec (JS.code y) (JS.code x)); try lia; try discriminate.
  intros H1 H2. rewrite (code_inj _ _ E), (IH b H1 H2). reflexivity.
Qed.

Lemma nameLt_le (a b : string) : nameLt a b = true -> Fs.nameLe a b = true.
Proof.
  unfold nameLt. intros H. apply nameLe_total, negb_true_iff. exact H.
Qed.

Lemma In_insertName (x f : string) (l : list string) :
  In x (Fs.insertName f l) <-> x = f \/ In x l.
Proof.
  induction l as [|g l IH]; cbn [Fs.insertName In]; [intuition|].
  destruct (Fs.nameLe f g); cbn [In]; [intuition|].
  rewrite IH. intuition.
Qed.

Lemma In_sortNames (x : string) (l : list string) :
  In x (Fs.sortNames l) <-> In x l.
Proof.
  induction l as [|f l IH]; cbn [Fs.sortNames fold_right In]; [reflexivity|].
  fold (Fs.sortNames l). rewrite In_insertName, IH. intuition.
Qed.

Lemma insertName_sorted (f : string) (l : list string) :
  inNameOrder l -> inNameOrder (Fs.insertName f l).
Proof.
  unfold inNameOrder. induction 1 as [|g l Hs IH Hg]; cbn [Fs.insertName].
  - constructor; constructor.
  - destruct (Fs.nameLe f g) eqn:E.
    + constructor; [constructor; assumption|].
      constructor; [exact E|].
      apply List.Forall_forall. intros y Hy.
      apply (nameLe_trans f g y E).
      exact (proj1 (List.Forall_forall _ _) Hg y Hy).
    + constructor; [exact IH|].
      apply List.Forall_forall. intros y Hy.
      apply In_insertName in Hy as [-> | Hy].
      * apply nameLe_total. exact E.
      * exact (proj1 (List.Forall_forall _ _) Hg y Hy).
Qed.

Lemma sortNames_sorted (l : list string) : inNameOrder (Fs.sortNames l).
Proof.
  induction l as [|f l IH]; [constructor|].
  cbn [Fs.sortNames fold_right]. apply insertName_sorted. exact IH.
Qed.

Lemma filter_sorted (p : string -> bool) (l : list string) :
  inNameOrder l -> inNameOrder (List.filter p l).
Proof.
  unfold inNameOrder. induction 1 as [|g l Hs IH Hg]; cbn [List.filter].
  - constructor.
  - destruct (p g); [|exact IH]. constructor; [exact IH|].
    apply List.Forall_forall. intros y Hy. apply List.filter_In in Hy.
    exact (proj1 (List.Forall_forall _ _) Hg y (proj1 Hy)).
Qed.

Lemma pendingNames_sorted (dir : string) (w : World) :
  inNameOrder (pendingNames dir w).
Proof.
  unfold pendingNames, Fs.readdirSync.
  destruct (Fs.lookup dir (disk w)) as [[|c]|]; try constructor.
  apply filter_sorted, sortNames_sorted.
Qed.

Lemma insertName_first (f : string) (l : list string) :
  Forall (fun x => Fs.nameLe f x = true) l -> Fs.insertName f l = f :: l.
Proof.
  destruct 1 as [|x l Hx _]; [reflexivity|].
  cbn [Fs.insertName]. rewrite Hx. reflexivity.
Qed.

Lemma insertName_comm (a b : string) (l : list string) :
  Fs.insertName a (Fs.insertName b l) = Fs.insertName b (Fs.insertName a l).
Proof.
  induction l as [|g l IH]; cbn [Fs.insertName].
  - destruct (Fs.nameLe a b) eqn:Hab, (Fs.nameLe b a) eqn:Hba;
      try reflexivity.
    + rewrite (nameLe_antisym a b Hab Hba). reflexivity.
    + apply nameLe_total in Hab. congruence.
  - destruct (Fs.nameLe b g) eqn:Hbg, (Fs.nameLe a g) eqn:Hag;
      cbn [Fs.insertName]; rewrite ?Hbg, ?Hag.
    + destruct (Fs.nameLe a b) eqn:Hab, (Fs.nameLe b a) eqn:Hba;
        try reflexivity.
      * rewrite (nameLe_antisym a b Hab Hba). reflexivity.
      * apply nameLe_total in Hab. congruence.
    + destruct (Fs.nameLe a b) eqn:Hab; [|reflexivity].
      rewrite (nameLe_trans a b g Hab Hbg) in Hag. discriminate Hag.
    + destruct (Fs.nameLe b a) eqn:Hba; [|reflexivity].
      rewrite (nameLe_trans b a g Hba Hag) in Hbg. discriminate Hbg.
    + rewrite IH. reflexivity.
Qed.

Lemma sortNames_snoc (l : list string) (f : string) :
  Fs.sortNames (l ++ [f]) = Fs.insertName f (Fs.sortNames l).
Proof.
  induction l as [|g l IH]; [reflexivity|].
  cbn [app Fs.sortNames fold_right]. fold (Fs.sortNames (l ++ [f])).
  fold (Fs.sortNames l). rewrite IH. apply insertName_comm.
Qed.

Lemma filter_insertName (p : string -> bool) (f : string) (l : list string) :
  inNameOrder l ->
  List.filter p (Fs.insertName f l)
  = if p f then Fs.insertName f (List.filter p l) else List.filter p l.
Proof.
  unfold inNameOrder. induction 1 as [|g l Hs IH Hg].
  - cbn [Fs.insertName List.filter]. destruct (p f); reflexivity.
  - cbn [Fs.insertName]. destruct (Fs.nameLe f g) eqn:Hfg.
    + cbn [List.filter]. destruct (p f) eqn:Hpf; [|reflexivity].
      symmetry. apply insertName_first.
      apply List.Forall_forall. intros y Hy.
      destruct (p g).
      * destruct Hy as [<- | Hy]; [exact Hfg|].
        apply List.filter_In in Hy.
        apply (nameLe_trans f g y Hfg).
        exact (proj1 (List.Forall_forall _ _) Hg y (proj1 Hy)).
      * apply List.filter_In in Hy.
        apply (nameLe_trans f g y Hfg).
        exact (proj1 (List.Forall_forall _ _) Hg y (proj1 Hy)).
    + cbn [List.filter]. rewrite IH.
      destruct (p g), (p f); cbn [Fs.insertName]; rewrite ?Hfg; reflexivity.
Qed.

(** In a sorted list, a name that comes strictly first is met first. *)
Lemma sorted_before (l : list string) (k : nat) (a b : string) :
  inNameOrder l -> nameLt a b = true ->
  In a l -> In b (take k l) -> comesBefore a b (take k l).
Proof.
  unfold inNameOrder. intros Hs Hlt. revert k.
  induction Hs as [|x l Hs IH Hx]; intros k Ha Hb; [destruct Ha|].
  destruct k as [|k]; [destruct Hb|]. cbn [take] in *.
  assert (Hne : a <> b).
  { intros ->. unfold nameLt in Hlt. rewrite nameLe_refl in Hlt.
    discriminate Hlt. }
  destruct Hb as [<- | Hb].
  - exfalso. destruct Ha as [E | Ha]; [congruence|].
    pose proof (proj1 (List.Forall_forall _ _) Hx a Ha) as Hle.
    unfold nameLt in Hlt. rewrite Hle in Hlt. discriminate Hlt.
  - destruct Ha as [-> | Ha].
    + apply List.in_split in Hb as (l2 & l3 & E).
      exists [], l2, l3. rewrite E. reflexivity.
    + destruct (IH k Ha Hb) as (l1 & l2 & l3 & E).
      exists (x :: l1), l2, l3. rewrite E. reflexivity.
Qed.

(** ** Names that begin with a time of writing *)

Lemma code_pretty_N_char (x : N) :
  (x < 10)%N -> JS.code (pretty_N_char x) = 48 + Z.of_N x.
Proof.
  intros H.
  assert (x = 0 \/ x = 1 \/ x = 2 \/ x = 3 \/ x = 4 \/ x = 5 \/ x = 6
          \/ x = 7 \/ x = 8 \/ x = 9)%N as Hx by lia.
  repeat (destruct Hx as [-> | Hx]; [reflexivity|]). subst x. reflexivity.
Qed.

Lemma pretty_N_go_app (x : N) (s : string) :
  pretty_N_go x s = pretty_N_go x "" +:+ s.
Proof.
  revert s. induction (N.lt_wf_0 x) as [x _ IH]. intros s.
  destruct (N.eq_dec x 0) as [-> | Hx]; [rewrite !pretty_N_go_0; reflexivity|].
  rewrite !(pretty_N_go_step x) by lia.
  rewrite (IH (x `div` 10)%N) by (apply N.div_lt; lia).
  rewrite (IH (x `div` 10)%N (N.div_lt x 10 ltac:(lia) ltac:(lia))
             (String _ "")).
  rewrite append_assoc. reflexivity.
Qed.

Lemma nameLt_cons (x y : ascii) (a b : string) :
  JS.code x < JS.code y -> nameLt (String x a) (String y b) = true.
Proof.
  intros H. unfold nameLt. cbn [Fs.nameLe]. compare_codes.
Qed.

Lemma nameLt_prefix (p a b : string) :
  nameLt (p +:+ a) (p +:+ b) = nameLt a b.
Proof.
  induction p as [|x p IH]; [reflexivity|].
  rewrite !append_cons. unfold nameLt in *. cbn [Fs.nameLe].
  rewrite Z.ltb_irrefl, Z.eqb_refl. exact IH.
Qed.

(** Of two numbers with the same number of digits, the smaller is
    printed as the string that comes first. *)
Lemma pretty_N_go_lt (k : nat) (n m : N) (s1 s2 : string) :
  (10 ^ N.of_nat k <= n < 10 ^ N.of_nat (S k))%N ->
  (10 ^ N.of_nat k <= m < 10 ^ N.of_nat (S k))%N ->
  (n < m)%N ->
  nameLt (pretty_N_go n s1) (pretty_N_go m s2) = true.
Proof.
  revert n m s1 s2. induction k as [|k IH]; intros n m s1 s2 Hn Hm Hlt.
  - change (10 ^ N.of_nat 0)%N with 1%N in *.
    change (10 ^ N.of_nat 1)%N with 10%N in *.
    rewrite (pretty_N_go_step n), (pretty_N_go_step m) by lia.
    rewrite !N.div_small, !N.mod_small, !pretty_N_go_0 by lia.
    apply nameLt_cons. rewrite !code_pretty_N_char by lia. lia.
  - rewrite !Nat2N.inj_succ, !N.pow_succ_r' in Hn, Hm.
    set (P := (10 ^ N.of_nat k)%N) in *.
    assert (HP : (0 < P)%N) by (apply N.neq_0_lt_0, N.pow_nonzero; lia).
    pose proof (N.div_mod' n 10) as En. pose proof (N.div_mod' m 10) as Em.
    pose proof (N.mod_lt n 10 ltac:(lia)) as Hrn.
    pose proof (N.mod_lt m 10 ltac:(lia)) as Hrm.
    rewrite (pretty_N_go_step n), (pretty_N_go_step m) by lia.
    destruct (N.eq_dec (n `div` 10) (m `div` 10)) as [E | Hne].
    + rewrite E, (pretty_N_go_app _ (String _ s1)),
        (pretty_N_go_app _ (String _ s2)), nameLt_prefix.
      apply nameLt_cons. rewrite !code_pretty_N_char by assumption.
      assert (Hr : (n `mod` 10 < m `mod` 10)%N).
      { apply (N.add_lt_mono_l _ _ (10 * (m `div` 10))).
        rewrite <- E at 1. rewrite <- En, <- Em. exact Hlt. }
      clear - Hr. lia.
    + assert (Hq : (n `div` 10 <= m `div` 10)%N)
        by (apply N.Div0.div_le_mono; lia).
      apply IH; [| | lia]; rewrite Nat2N.inj_succ, N.pow_succ_r'; fold P;
        (split; [apply N.div_le_lower_bound | apply N.Div0.div_lt_upper_bound]);
        lia.
Qed.

Lemma ipcFileName_order (t1 t2 : Z) (r1 r2 : string) :
  thirteenDigits t1 -> thirteenDigits t2 -> t1 < t2 ->
  nameLt (Tool.ipcFileName t1 r1) (Tool.ipcFileName t2 r2) = true.
Proof.
  unfold thirteenDigits, Tool.ipcFileName. intros H1 H2 Hlt.
  destruct t1 as [|p1|p1]; try lia. destruct t2 as [|p2|p2]; try lia.
  change (pretty (Z.pos p1)) with (pretty_N_go (N.pos p1) "").
  change (pretty (Z.pos p2)) with (pretty_N_go (N.pos p2) "").
  rewrite <- !pretty_N_go_app.
  apply (pretty_N_go_lt 12);
    change (10 ^ N.of_nat 12)%N with 1000000000000%N;
    change (10 ^ N.of_nat 13)%N with 10000000000000%N; lia.
Qed.

Lemma queue_drained_in_order (dir msg early late : string)
    (body : string -> M unit) (w : World) :
  (forall f, readsOnly (Path.join [dir; f]) (body f)) ->
  nameLt early late = true ->
  drainedInOrder dir msg w
    (tryCatch
       (present <- existsSync dir ;;
        if present then
          files <- requestFiles dir ;; forEach files body
        else ret tt)
       (fun _ => logger error msg) w)
    early late.
Proof.
  intros Hbody Hlt. unfold drainedInOrder. cbv zeta.
  split; [apply pendingNames_sorted|].
  destruct (queue_reads dir msg body Hbody w) as (k & Hk & Hend).
  exists k. split; [exact Hk|]. split; [exact Hend|].
  apply sorted_before; [apply pendingNames_sorted | exact Hlt].
Qed.



(** The later message of [twoMessages] was put on the disk first; the
    poll still reads and sends the earlier one first. *)
Lemma earlier_file_is_handled_first :
  let earlier := aliceMessages +:+ "/1768478400100-aaaaaa.json" in
  let later := aliceMessages +:+ "/1768478400200-bbbbbb.json" in
  let after := world_of (processIpcFiles Demo.cfg Demo.host twoMessages) in
  List.map fst (List.filter (fun e => JS.endsWith ".json" (fst e))
                            (disk twoMessages))
  = [later; earlier]
  /\ calls after
     = [ReadFile earlier; SendMessage "dc:1" "first" None; Unlink earlier;
        ReadFile later; SendMessage "dc:1" "second" None; Unlink later].
Proof. vm_compute. repeat split. Qed.

(* ===================================================================== *)
(** * One poll, end to end *)
(* ===================================================================== *)

(** alice asks for a task in the chat of bob: the file is consumed, a
    warning is logged, no task exists. *)
Lemma poll_alice_schedules_for_bob :
  let after := world_of (processIpcFiles Demo.cfg Demo.host
                           (oneTask (Fs.Json aliceTargetsBob))) in
  tasks after = []
  /\ Fs.readdirSync aliceTasks (disk after) = inr []
  /\ logged after = [(warn, "Unauthorized schedule_task attempt blocked")].
Proof. vm_compute. repeat split. Qed.

(** The same request found in the namespace of the main group is
    carried out for bob. *)
Lemma poll_main_schedules_for_bob :
  let before :=
    Demo.world [("/srv/claw/data/ipc/main/tasks/1768478400000-ab12cd.json",
                 Fs.File (Fs.Json aliceTargetsBobPlain))] in
  List.map Task.group_folder
    (tasks (world_of (processIpcFiles Demo.cfg Demo.host before)))
  = ["bob"].
Proof. vm_compute. reflexivity. Qed.

(** A cron expression that does not parse. *)
Lemma poll_bad_cron :
  let after := world_of (processIpcFiles Demo.cfg Demo.host
                           (oneTask (Fs.Json (scheduleRequest "cron" "not-a-cron" "dc:1")))) in
  tasks after = []
  /\ Fs.readdirSync aliceTasks (disk after) = inr []
  /\ logged after = [(warn, "Invalid cron expression")].
Proof. vm_compute. repeat split. Qed.

(* ===================================================================== *)
(** * The container side *)
(* ===================================================================== *)

(** The [schedule_task] tool of a group other than the main one always
    targets the group's own chat, whatever [target_group_jid] says. *)
Lemma tool_schedules_for_own_chat (chost : Host) (env : Tool.Env) (now : Z)
    (args : Tool.ScheduleArgs) (d : IpcData.t) :
  Tool.isMain env = false ->
  Tool.schedule_task chost env now args = inr d ->
  IpcData.targetJid d = Some (Tool.chatJid env)
  /\ IpcData.type d = "schedule_task".
Proof.
  intros Hmain. unfold Tool.schedule_task. rewrite Hmain.
  destruct (Tool.validateSchedule chost args); [discriminate|].
  intros H. injection H as <-. split; reflexivity.
Qed.

Example parseInt_nbsp :
  JS.parseInt10 (String (ascii_of_nat 194) (String (ascii_of_nat 160) "7")) = Some 7.
Proof. reflexivity. Qed.
Example trim_both : JS.trim "  0123abc  " = "0123abc".
Proof. reflexivity. Qed.

(** The names [writeIpcFile] gives to request files start with the time
    of writing; those of [twoMessages] are of this form. *)
Example ipcFileName_sample :
  Tool.ipcFileName 1768478400100 "aaaaaa" = "1768478400100-aaaaaa.json"
  /\ Tool.ipcFileName 1768478400200 "bbbbbb" = "1768478400200-bbbbbb.json".
Proof. vm_compute. split; reflexivity. Qed.

(* ===================================================================== *)
(** * Actions on an existing task *)
(* ===================================================================== *)

Section TaskActions.

Context (cfg : Config) (host : Host).

Lemma processTaskIpc_pause (data : IpcData.t) (src : string) (isMain : bool)
    (w : World) :
  IpcData.type data = "pause_task" ->
  processTaskIpc cfg host data src isMain w
  = onOwnedTask data src isMain (fun id => updateTask_status id "paused")
      "Task paused via IPC" "Unauthorized task pause attempt" w.
Proof. intros H. unfold processTaskIpc, bind. rewrite H. reflexivity. Qed.

Lemma processTaskIpc_resume (data : IpcData.t) (src : string) (isMain : bool)
    (w : World) :
  IpcData.type data = "resume_task" ->
  processTaskIpc cfg host data src isMain w
  = onOwnedTask data src isMain (fun id => updateTask_status id "active")
      "Task resumed via IPC" "Unauthorized task resume attempt" w.
Proof. intros H. unfold processTaskIpc, bind. rewrite H. reflexivity. Qed.

Lemma processTaskIpc_cancel (data : IpcData.t) (src : string) (isMain : bool)
    (w : World) :
  IpcData.type data = "cancel_task" ->
  processTaskIpc cfg host data src isMain w
  = onOwnedTask data src isMain deleteTask
      "Task cancelled via IPC" "Unauthorized task cancel attempt" w.
Proof. intros H. unfold processTaskIpc, bind. rewrite H. reflexivity. Qed.

Lemma onOwnedTask_allowed (data : IpcData.t) (src id : string) (isMain : bool)
    (act : string -> M unit) (done denied : string) (t : Task.t) (w : World) :
  IpcData.taskId data = Some id -> id <> "" ->
  getTaskById id w = Some t ->
  isMain = true \/ Task.group_folder t = src ->
  onOwnedTask data src isMain act done denied w
  = (act id ;;; logger info done) w.
Proof.
  intros Hid Hne Hget Hauth. unfold onOwnedTask.
  rewrite Hid, (truthy_Some id Hne). change (default "" (Some id)) with id.
  unfold bind at 1. rewrite Hget.
  assert (Hgate : isMain || String.eqb (Task.group_folder t) src = true).
  { destruct Hauth as [-> | <-]; [reflexivity|].
    rewrite String.eqb_refl. apply orb_true_r. }
  rewrite Hgate. reflexivity.
Qed.

Lemma onOwnedTask_denied (data : IpcData.t) (src id : string)
    (act : string -> M unit) (done denied : string) (w : World) :
  IpcData.taskId data = Some id ->
  (forall t, getTaskById id w = Some t -> Task.group_folder t <> src) ->
  onOwnedTask data src false act done denied w = Ret tt w
  \/ onOwnedTask data src false act done denied w
     = Ret tt (add_log warn denied w).
Proof.
  intros Hid Hown. unfold onOwnedTask. rewrite Hid.
  destruct (JS.truthy (Some id)); [|left; reflexivity].
  right. change (default "" (Some id)) with id. unfold bind.
  destruct (getTaskById id w) as [t|] eqn:Hget; [|reflexivity].
  specialize (Hown t eq_refl). apply String.eqb_neq in Hown.
  rewrite Hown. reflexivity.
Qed.

(** X2.  Pausing, resuming and cancelling go by the recorded owner: a
    request from a namespace that is not the main one, for a task that
    does not exist or that the store records under another folder, is
    rejected, whatever the payload says. *)
Theorem task_action_needs_recorded_owner
    (data : IpcData.t) (sourceGroup id : string) (w : World) :
  In (IpcData.type data) taskActions ->
  IpcData.taskId data = Some id ->
  sourceGroup <> MAIN_GROUP_FOLDER cfg ->
  (forall t, getTaskById id w = Some t -> Task.group_folder t <> sourceGroup) ->
  rejected
    (processTaskIpc cfg host data sourceGroup
       (String.eqb sourceGroup (MAIN_GROUP_FOLDER cfg)) w) w.
Proof.
  intros Hty Hid Hsrc Hown.
  apply String.eqb_neq in Hsrc. rewrite Hsrc.
  simpl in Hty. destruct Hty as [H | [H | [H | []]]]; symmetry in H.
  - rewrite (processTaskIpc_pause _ _ _ _ H).
    destruct (onOwnedTask_denied data sourceGroup id
                (fun id => updateTask_status id "paused")
                "Task paused via IPC" "Unauthorized task pause attempt" w Hid Hown)
      as [-> | ->]; [apply rejected_same | apply rejected_log].
  - rewrite (processTaskIpc_resume _ _ _ _ H).
    destruct (onOwnedTask_denied data sourceGroup id
                (fun id => updateTask_status id "active")
                "Task resumed via IPC" "Unauthorized task resume attempt" w Hid Hown)
      as [-> | ->]; [apply rejected_same | apply rejected_log].
  - rewrite (processTaskIpc_cancel _ _ _ _ H).
    destruct (onOwnedTask_denied data sourceGroup id deleteTask
                "Task cancelled via IPC" "Unauthorized task cancel attempt" w Hid Hown)
      as [-> | ->]; [apply rejected_same | apply rejected_log].
Qed.

Lemma with_status_id (s : string) (t : Task.t) :
  Task.id (Task.with_status s t) = Task.id t.
Proof. reflexivity. Qed.

Lemma with_status_same (t : Task.t) :
  Task.with_status (Task.status t) t = t.
Proof. destruct t. reflexivity. Qed.

Lemma find_retagged (id s : string) (l : list Task.t) (t : Task.t) :
  List.find (fun t => String.eqb (Task.id t) id) l = Some t ->
  List.find (fun t => String.eqb (Task.id t) id)
    (List.map (fun t => if String.eqb (Task.id t) id
                        then Task.with_status s t else t) l)
  = Some (Task.with_status s t).
Proof.
  induction l as [|x l IH]; [discriminate|]. simpl.
  destruct (String.eqb (Task.id x) id) eqn:Hx.
  - intros H. injection H as <-. simpl. rewrite Hx. reflexivity.
  - rewrite Hx. exact IH.
Qed.

Lemma find_by_unique_id (id : string) (l : list Task.t) (t t' : Task.t) :
  NoDup (List.map Task.id l) ->
  List.find (fun t => String.eqb (Task.id t) id) l = Some t ->
  In t' l -> Task.id t' = id -> t' = t.
Proof.
  induction l as [|x l IH]; [intros _ H; discriminate H|].
  simpl. intros Hnd Hfind Hin Hid. inversion Hnd as [|? ? Hnotin Hnd']; subst.
  destruct (String.eqb_spec (Task.id x) (Task.id t')) as [Hx | Hx].
  - injection Hfind as <-. destruct Hin as [<- | Hin]; [reflexivity|].
    exfalso. apply Hnotin. rewrite Hx. apply list_elem_of_In, List.in_map.
    exact Hin.
  - destruct Hin as [<- | Hin]; [contradiction Hx; reflexivity|].
    apply IH; auto.
Qed.

(** X1.  Pausing a task and then resuming it, from the owning namespace
    or from the main one, takes its status to paused and back to active;
    no [next_run] in the store changes, and when the task was active and
    ids are unique the store ends exactly as it began. *)
Theorem pause_then_resume_round_trip
    (pause resume : IpcData.t) (sourceGroup id : string) (isMain : bool)
    (t : Task.t) (w : World) :
  IpcData.type pause = "pause_task" ->
  IpcData.type resume = "resume_task" ->
  IpcData.taskId pause = Some id ->
  IpcData.taskId resume = Some id ->
  id <> "" ->
  getTaskById id w = Some t ->
  isMain = true \/ Task.group_folder t = sourceGroup ->
  exists w1 w2,
    processTaskIpc cfg host pause sourceGroup isMain w = Ret tt w1
    /\ processTaskIpc cfg host resume sourceGroup isMain w1 = Ret tt w2
    /\ getTaskById id w1 = Some (Task.with_status "paused" t)
    /\ getTaskById id w2 = Some (Task.with_status "active" t)
    /\ List.map Task.next_run (tasks w2) = List.map Task.next_run (tasks w)
    /\ (Task.status t = "active" -> NoDup (List.map Task.id (tasks w)) ->
        tasks w2 = tasks w).
Proof.
  intros Hp Hr Hidp Hidr Hne Hget Hauth.
  rewrite (processTaskIpc_pause _ _ _ _ Hp).
  rewrite (onOwnedTask_allowed pause sourceGroup id isMain _ _ _ t w
             Hidp Hne Hget Hauth).
  unfold bind at 1, updateTask_status at 1, logger at 1.
  eexists. 
  assert (Hget1 : getTaskById id
            (add_log info "Task paused via IPC"
               (set_tasks
                  (List.map (fun t => if String.eqb (Task.id t) id
                                      then Task.with_status "paused" t else t)
                            (tasks w)) w))
          = Some (Task.with_status "paused" t)).
  { unfold getTaskById. simpl tasks. apply find_retagged. exact Hget. }
  rewrite (processTaskIpc_resume _ _ _ _ Hr).
  rewrite (onOwnedTask_allowed resume sourceGroup id isMain _ _ _ _ _
             Hidr Hne Hget1 Hauth).
  unfold bind, updateTask_status, logger.
  eexists. split; [reflexivity|]. split; [reflexivity|].
  split; [exact Hget1|].
  assert (Hmap :
    List.map (fun t => if String.eqb (Task.id t) id
                       then Task.with_status "active" t else t)
      (List.map (fun t => if String.eqb (Task.id t) id
                          then Task.with_status "paused" t else t) (tasks w))
    = List.map (fun t => if String.eqb (Task.id t) id
                         then Task.with_status "active" t else t) (tasks w)).
  { rewrite List.map_map. apply List.map_ext. intros x.
    destruct (String.eqb (Task.id x) id) eqn:Hx.
    - rewrite with_status_id, Hx. reflexivity.
    - rewrite Hx. reflexivity. }
  simpl tasks. rewrite Hmap.
  split.
  { unfold getTaskById. simpl tasks.
    rewrite (find_retagged id "active" (tasks w) t Hget). reflexivity. }
  split.
  { rewrite List.map_map. apply List.map_ext. intros x.
    destruct (String.eqb (Task.id x) id); reflexivity. }
  intros Hactive Hnd.
  rewrite <- (List.map_id (tasks w)) at 2.
  apply List.map_ext_in. intros x Hin.
  destruct (String.eqb_spec (Task.id x) id) as [Hx | _]; [|reflexivity].
  rewrite (find_by_unique_id id (tasks w) t x Hnd Hget Hin Hx).
  rewrite <- Hactive. apply with_status_same.
Qed.

Lemma find_after_delete (id id' : string) (l : list Task.t) :
  List.find (fun t => String.eqb (Task.id t) id')
    (List.filter (fun t => negb (String.eqb (Task.id t) id)) l)
  = if String.eqb id' id then None
    else List.find (fun t => String.eqb (Task.id t) id') l.
Proof.
  induction l as [|x l IH]; simpl.
  - destruct (String.eqb id' id); reflexivity.
  - destruct (String.eqb_spec (Task.id x) id) as [Hx | Hx]; simpl.
    + rewrite IH. destruct (String.eqb_spec id' id) as [-> | Hne]; [reflexivity|].
      destruct (String.eqb_spec (Task.id x) id') as [E | _]; [congruence | reflexivity].
    + rewrite IH.
      destruct (String.eqb_spec (Task.id x) id') as [E | _]; [|reflexivity].
      destruct (String.eqb_spec id' id) as [E' | _]; [congruence | reflexivity].
Qed.

(** X3.  Cancelling a task from the owning namespace or from the main
    one removes the records with that id and no other: the id is no
    longer found, every other id is found as before, and nothing else is
    done. *)
Theorem cancel_task_removes_only_that_task
    (data : IpcData.t) (sourceGroup id : string) (isMain : bool)
    (t : Task.t) (w : World) :
  IpcData.type data = "cancel_task" ->
  IpcData.taskId data = Some id ->
  id <> "" ->
  getTaskById id w = Some t ->
  isMain = true \/ Task.group_folder t = sourceGroup ->
  exists w',
    processTaskIpc cfg host data sourceGroup isMain w = Ret tt w'
    /\ getTaskById id w' = None
    /\ (forall id', id' <> id -> getTaskById id' w' = getTaskById id' w)
    /\ (forall t', In t' (tasks w') <-> In t' (tasks w) /\ Task.id t' <> id)
    /\ calls w' = calls w /\ disk w' = disk w.
Proof.
  intros Hty Hid Hne Hget Hauth.
  rewrite (processTaskIpc_cancel _ _ _ _ Hty).
  rewrite (onOwnedTask_allowed data sourceGroup id isMain _ _ _ t w
             Hid Hne Hget Hauth).
  unfold bind, deleteTask, logger. eexists. split; [reflexivity|].
  unfold getTaskById. simpl tasks.
  split; [rewrite find_after_delete, String.eqb_refl; reflexivity|].
  split.
  { intros id' Hne'. rewrite find_after_delete.
    apply String.eqb_neq in Hne'. rewrite Hne'. reflexivity. }
  split; [|split; reflexivity].
  intros t'. rewrite List.filter_In, negb_true_iff, String.eqb_neq. reflexivity.
Qed.

End TaskActions.

(* ===================================================================== *)
(** * Rules for running a piece of the process *)
(* ===================================================================== *)

Lemma Frame_anyWorld : Frame anyWorld anyCall.
Proof. split; intros; exact I. Qed.

Lemma Frame_sameTasks : Frame sameTasks anyCall.
Proof.
  split; unfold sameTasks; intros; try reflexivity. congruence.
Qed.

Lemma Frame_callsAdded (P : Call -> Prop) : Frame (callsAdded P) P.
Proof.
  split; unfold callsAdded.
  - intros w. exists []. rewrite app_nil_r. split; [reflexivity | constructor].
  - intros a b c [l1 [H1 F1]] [l2 [H2 F2]]. exists (l1 ++ l2)%list.
    rewrite H2, H1, <- List.app_assoc. split; [reflexivity|].
    apply Forall_app; split; assumption.
  - intros l msg w. exists []. simpl. rewrite app_nil_r.
    split; [reflexivity | constructor].
  - intros c w Hc. exists [c]. split; [reflexivity|].
    constructor; [exact Hc | constructor].
  - intros d w. exists []. simpl. rewrite app_nil_r.
    split; [reflexivity | constructor].
Qed.

Section RunsRules.

Context {R : World -> World -> Prop} {P : Call -> Prop} (F : Frame R P).

Lemma runs_weaken {A} (Q Q' : A -> Prop) (thr thr' : bool) (ex ex' : Z -> Prop) (m : M A) :
  runs R Q thr ex m ->
  (forall a, Q a -> Q' a) ->
  (thr = true -> thr' = true) -> (forall code, ex code -> ex' code) ->
  runs R Q' thr' ex' m.
Proof.
  intros H HQ Ht He w. destruct (H w) as [HR Ho]. split; [exact HR|].
  destruct (m w); auto.
Qed.

Lemma runs_ret {A} (Q : A -> Prop) (thr : bool) (ex : Z -> Prop) (a : A) :
  Q a -> runs R Q thr ex (ret a).
Proof. intros H w. split; [apply (frame_refl _ _ F) | exact H]. Qed.

Lemma runs_get {A} (Q : A -> Prop) (thr : bool) (ex : Z -> Prop) (f : World -> A) :
  (forall w, Q (f w)) -> runs R Q thr ex (fun w => Ret (f w) w).
Proof. intros H w. split; [apply (frame_refl _ _ F) | apply H]. Qed.

Lemma runs_throw {A} (Q : A -> Prop) (ex : Z -> Prop) (e : Error) :
  runs R Q true ex (throw e).
Proof. intros w. split; [apply (frame_refl _ _ F) | reflexivity]. Qed.

Lemma runs_bind {A B} (Q : A -> Prop) (Q' : B -> Prop) (thr : bool) (ex : Z -> Prop)
    (m : M A) (k : A -> M B) :
  runs R Q thr ex m ->
  (forall a, Q a -> runs R Q' thr ex (k a)) ->
  runs R Q' thr ex (bind m k).
Proof.
  intros Hm Hk w. unfold bind. destruct (Hm w) as [HR Ho].
  destruct (m w) as [a w1 | e w1 | c w1]; simpl in HR.
  - destruct (Hk a Ho w1) as [HR' Ho']. split; [|exact Ho'].
    exact (frame_trans _ _ F _ _ _ HR HR').
  - split; assumption.
  - split; assumption.
Qed.

Lemma runs_tryCatch {A} (thr0 : bool) (Q : A -> Prop) (thr : bool) (ex : Z -> Prop)
    (m : M A) (h : Error -> M A) :
  runs R Q thr0 ex m ->
  (forall e, runs R Q thr ex (h e)) ->
  runs R Q thr ex (tryCatch m h).
Proof.
  intros Hm Hh w. unfold tryCatch. destruct (Hm w) as [HR Ho].
  destruct (m w) as [a w1 | e w1 | c w1]; simpl in HR.
  - split; assumption.
  - destruct (Hh e w1) as [HR' Ho']. split; [|exact Ho'].
    exact (frame_trans _ _ F _ _ _ HR HR').
  - split; assumption.
Qed.

Lemma runs_attempt (thr0 thr : bool) (ex : Z -> Prop) (m : M unit) :
  runs R anyValue thr0 ex m -> runs R anyValue thr ex (attempt m).
Proof.
  intros H. apply (runs_tryCatch thr0); [exact H|].
  intros e. apply runs_ret. exact I.
Qed.

Lemma runs_forEach {A} (thr : bool) (ex : Z -> Prop) (xs : list A) (body : A -> M unit) :
  (forall x, In x xs -> runs R anyValue thr ex (body x)) ->
  runs R anyValue thr ex (forEach xs body).
Proof.
  induction xs as [|x xs IH]; intros H; simpl.
  - apply runs_ret. exact I.
  - apply (runs_bind anyValue); [apply H; left; reflexivity|].
    intros _ _. apply IH. intros y Hy. apply H. right. exact Hy.
Qed.

Lemma runs_logger (thr : bool) (ex : Z -> Prop) (l : Level) (msg : string) :
  runs R anyValue thr ex (logger l msg).
Proof. intros w. split; [apply (frame_log _ _ F) | exact I]. Qed.

Lemma runs_call (thr : bool) (ex : Z -> Prop) (c : Call) :
  P c -> runs R anyValue thr ex (call c).
Proof. intros Hc w. split; [apply (frame_call _ _ F); exact Hc | exact I]. Qed.

Lemma runs_process_exit {A} (Q : A -> Prop) (thr : bool) (ex : Z -> Prop)
    (code : Z) :
  P (ProcessExit code) -> ex code -> runs R Q thr ex (process_exit code).
Proof.
  intros Hc He w. split; [apply (frame_call _ _ F); exact Hc | exact He].
Qed.

Lemma runs_fsQuery {A} (ex : Z -> Prop) (c : Call) (p : string)
    (op : Fs.t -> Fs.Errno + A) :
  P c -> runs R anyValue true ex (fsQuery c p op).
Proof.
  intros Hc w. unfold fsQuery.
  destruct (op (disk w)); (split; [apply (frame_call _ _ F); exact Hc|]);
    [reflexivity | exact I].
Qed.

Lemma runs_fsUpdate (ex : Z -> Prop) (c : Call) (p : string)
    (op : Fs.t -> Fs.Errno + Fs.t) :
  P c -> runs R anyValue true ex (fsUpdate c p op).
Proof.
  intros Hc w. unfold fsUpdate. destruct (op (disk w)); simpl world_of.
  - split; [apply (frame_call _ _ F); exact Hc | reflexivity].
  - split; [|exact I].
    apply (frame_trans _ _ F _ (add_call c w));
      [apply (frame_call _ _ F); exact Hc | apply (frame_disk _ _ F)].
Qed.

Lemma runs_readdirSync (ex : Z -> Prop) (d : string) :
  runs R anyValue true ex (readdirSync d).
Proof.
  intros w. unfold readdirSync.
  destruct (Fs.readdirSync d (disk w));
    (split; [apply (frame_refl _ _ F)|]); [reflexivity | exact I].
Qed.

Lemma runs_toISOString (ex : Z -> Prop) (tv : option Z) :
  runs R anyValue true ex (toISOString tv).
Proof.
  unfold toISOString. destruct (JS.toISOString tv);
    [apply runs_ret; exact I | apply runs_throw].
Qed.

Lemma runs_store (thr : bool) (ex : Z -> Prop) (f : World -> list Task.t) :
  (forall ts w, R w (set_tasks ts w)) ->
  runs R anyValue thr ex (fun w => Ret tt (set_tasks (f w) w)).
Proof. intros H w. split; [apply H | exact I]. Qed.

Lemma runs_execSync (host : Host) (ex : Z -> Prop) (cmd : string)
    (cwd : option string) :
  P (ExecSync cmd cwd) -> runs R anyValue true ex (execSync host cmd cwd).
Proof.
  intros Hc w. unfold execSync.
  assert (HR : R w (afterExec host cmd cwd w)).
  { unfold afterExec. destruct (writesFiles cmd);
      [|apply (frame_call _ _ F); exact Hc].
    apply (frame_trans _ _ F _ (add_call (ExecSync cmd cwd) w));
      [apply (frame_call _ _ F); exact Hc | apply (frame_disk _ _ F)]. }
  destruct (execResult host (calls w) cmd);
    (split; [exact HR|]); [exact I | reflexivity].
Qed.

Lemma runs_exec_ (host : Host) (ex : Z -> Prop) (cmd : string)
    (cwd : option string) :
  P (ExecSync cmd cwd) -> runs R anyValue true ex (exec_ host cmd cwd).
Proof.
  intros Hc. apply (runs_bind anyValue); [apply runs_execSync; exact Hc|].
  intros _ _. apply runs_ret. exact I.
Qed.

End RunsRules.

(** Walks down a handler, leaving what each call has to satisfy. *)
Ltac runs_step F :=
  lazymatch goal with
  | |- runs _ _ _ _ (bind _ _) => apply (runs_bind F anyValue); [| intros ? _]
  | |- runs _ _ _ _ (tryCatch _ _) => apply (runs_tryCatch F true); [| intros ?]
  | |- runs _ _ _ _ (attempt _) => apply (runs_attempt F true)
  | |- runs _ _ _ _ (forEach _ _) => apply (runs_forEach F); intros ? _
  | |- runs _ _ _ _ (if ?b then _ else _) => destruct b
  | |- runs _ _ _ _ (match ?x with _ => _ end) => destruct x
  | |- runs _ _ _ _ (ret _) => apply (runs_ret F); try exact I
  | |- runs _ _ _ _ (throw _) => apply (runs_throw F)
  | |- runs _ _ _ _ (logger _ _) => apply (runs_logger F)
  | |- runs _ _ _ _ (call _) => apply (runs_call F); try exact I
  | |- runs _ _ _ _ (process_exit _) =>
      apply (runs_process_exit F); try exact I; try assumption
  | |- runs _ _ _ _ (fsQuery _ _ _) => apply (runs_fsQuery F); try exact I
  | |- runs _ _ _ _ (fsUpdate _ _ _) => apply (runs_fsUpdate F); try exact I
  | |- runs _ _ _ _ (readdirSync _) => apply (runs_readdirSync F)
  | |- runs _ _ _ _ (toISOString _) => apply (runs_toISOString F)
  | |- runs _ _ _ _ (execSync _ _ _) => apply (runs_execSync F); try exact I
  | |- runs _ _ _ _ (exec_ _ _ _) => apply (runs_exec_ F); try exact I
  | |- runs _ _ _ _ (fun w => Ret _ w) =>
      apply (runs_get F _ _ _ (fun w => _)); intros ?; try exact I
  end.

Lemma runs_neverExits {A} (Q : A -> Prop) (thr : bool) (m : M A) :
  runs anyWorld Q thr noExit m -> neverExits m.
Proof.
  intros H w code w' E. destruct (H w) as [_ Ho]. rewrite E in Ho.
  exact Ho.
Qed.

Lemma runs_neverThrows {A} (Q : A -> Prop) (ex : Z -> Prop) (m : M A) :
  runs anyWorld Q false ex m -> neverThrows m.
Proof.
  intros H w e w' E. destruct (H w) as [_ Ho]. rewrite E in Ho.
  discriminate Ho.
Qed.

Lemma runs_keepsTasks {A} (Q : A -> Prop) (thr : bool) (ex : Z -> Prop) (m : M A) :
  runs sameTasks Q thr ex m -> keepsTasks m.
Proof. intros H w. exact (proj1 (H w)). Qed.

Lemma runs_emits {A} (P : Call -> Prop) (Q : A -> Prop) (thr : bool) (ex : Z -> Prop)
    (m : M A) :
  runs (callsAdded P) Q thr ex m -> emits P m.
Proof. intros H w. exact (proj1 (H w)). Qed.

(* ===================================================================== *)
(** * What the task handlers may do *)
(* ===================================================================== *)

Lemma string_forallb_app (p : ascii -> bool) (a b : string) :
  JS.string_forallb p (a +:+ b)
  = JS.string_forallb p a && JS.string_forallb p b.
Proof.
  induction a as [|c a IH]; [reflexivity|].
  simpl. rewrite IH. apply andb_assoc.
Qed.

Lemma string_forallb_filter (p : ascii -> bool) (s : string) :
  JS.string_forallb p (JS.string_filter p s) = true.
Proof.
  induction s as [|c s IH]; [reflexivity|].
  simpl. destruct (p c) eqn:Hc; [simpl; rewrite Hc|]; exact IH.
Qed.

Lemma string_forallb_impl (p q : ascii -> bool) (s : string) :
  (forall c, p c = true -> q c = true) ->
  JS.string_forallb p s = true -> JS.string_forallb q s = true.
Proof.
  intros Hpq. induction s as [|c s IH]; [reflexivity|].
  simpl. rewrite !andb_true_iff. intros [Hc Hs]. split; auto.
Qed.

Lemma safeRefChar_plain (c : ascii) : safeRefChar c = true -> plainChar c = true.
Proof. intros H. unfold plainChar. rewrite H. reflexivity. Qed.

Lemma isHexLower_plain (c : ascii) : JS.isHexLower c = true -> plainChar c = true.
Proof.
  unfold JS.isHexLower, plainChar, safeRefChar, JS.isDigit, JS.isLower.
  generalize (JS.code c). intros z.
  rewrite !orb_true_iff, !andb_true_iff, !Z.leb_le.
  intros [H | H]; [left; left; left; left; left; left; right; exact H|].
  left. left. left. left. left. left. left. lia.
Qed.

Lemma plain_branch (s : string) :
  plainCommand (JS.string_filter safeRefChar s) = true.
Proof.
  apply (string_forallb_impl safeRefChar); [exact safeRefChar_plain|].
  apply string_forallb_filter.
Qed.

Lemma plain_hash (h : string) : isCommitHash h = true -> plainCommand h = true.
Proof.
  unfold isCommitHash. rewrite andb_true_iff. intros [_ H].
  exact (string_forallb_impl _ _ _ isHexLower_plain H).
Qed.

Section Handlers.

Context {R : World -> World -> Prop} {P : Call -> Prop} (F : Frame R P).
Context (Hother : forall c,
           match c with
           | ExecSync _ _ | RegisterGroup _ _ | ReadFile _
           | SendMessage _ _ _ | Unlink _ | Rename _ _ => False
           | _ => True
           end -> P c).
Context (Hexec : forall cmd cwd, plainCommand cmd = true -> P (ExecSync cmd cwd)).
Context (cfg : Config) (host : Host).

Lemma runs_computeNextRun (ex : Z -> Prop) (ty v : string) :
  runs R anyValue true ex (computeNextRun cfg host ty v).
Proof. unfold computeNextRun, Date_now. repeat runs_step F. Qed.

Lemma runs_schedule_task (ex : Z -> Prop) (data : IpcData.t) (src : string)
    (isMain : bool) (rg : gmap string RegisteredGroup.t) :
  (forall ts w, R w (set_tasks ts w)) ->
  runs R anyValue true ex (schedule_task cfg host data src isMain rg).
Proof.
  intros Hstore. unfold schedule_task. cbv zeta.
  destruct (_ && _ && _ && _); [|apply (runs_ret F); exact I].
  destruct (rg !! _); [|apply (runs_logger F)].
  destruct (negb isMain && _); [apply (runs_logger F)|].
  apply (runs_bind F anyValue); [apply runs_computeNextRun|].
  intros [nr|] _; [|apply (runs_ret F); exact I].
  unfold Date_now, createTask. repeat runs_step F.
  apply runs_store. exact Hstore.
Qed.

Lemma runs_onOwnedTask (ex : Z -> Prop) (data : IpcData.t) (src : string)
    (isMain : bool) (act : string -> M unit) (done denied : string) :
  (forall id, runs R anyValue true ex (act id)) ->
  runs R anyValue true ex (onOwnedTask data src isMain act done denied).
Proof.
  intros Hact. unfold onOwnedTask. cbv zeta.
  destruct (JS.truthy _); [|apply (runs_ret F); exact I].
  apply (runs_bind F anyValue); [apply (runs_get F); intros ?; exact I|].
  intros [t|] _; [|apply (runs_logger F)].
  destruct (_ || _); [|apply (runs_logger F)].
  apply (runs_bind F anyValue); [apply Hact | intros _ _; apply (runs_logger F)].
Qed.

Lemma runs_refresh_groups (ex : Z -> Prop) (src : string) (isMain : bool)
    (rg : gmap string RegisteredGroup.t) :
  runs R anyValue true ex (refresh_groups src isMain rg).
Proof. unfold refresh_groups. repeat runs_step F; apply Hother; exact I. Qed.

Lemma truthy_inv (o : option string) :
  JS.truthy o = true -> o = Some (default "" o).
Proof. destruct o; [reflexivity | discriminate]. Qed.

Lemma runs_register_group (ex : Z -> Prop) (data : IpcData.t) (isMain : bool) :
  (forall jid g,
     isMain = true ->
     isValidGroupFolder host (RegisteredGroup.folder g) = true ->
     IpcData.folder data = Some (RegisteredGroup.folder g) ->
     IpcData.jid data = Some jid ->
     P (RegisterGroup jid g)) ->
  runs R anyValue true ex (register_group host data isMain).
Proof.
  intros Hreg. unfold register_group, Date_now. cbv zeta.
  destruct isMain; simpl negb; [|apply (runs_logger F)].
  destruct (_ && _ && _ && _) eqn:Hfields; [|apply (runs_logger F)].
  rewrite !andb_true_iff in Hfields.
  destruct Hfields as [[[Hjid _] Hfolder] _].
  destruct (isValidGroupFolder host _) eqn:Hvalid; simpl negb;
    [|apply (runs_logger F)].
  repeat runs_step F.
  apply Hreg; [reflexivity | exact Hvalid | |]; apply truthy_inv; assumption.
Qed.

Lemma runs_restart (ex : Z -> Prop) :
  ex 0 -> runs R anyValue true ex (restart cfg host).
Proof.
  intros Hex. unfold restart. repeat runs_step F;
    [apply Hexec; reflexivity | apply Hother; exact I].
Qed.

Lemma runs_rebuild (ex : Z -> Prop) :
  ex 0 -> runs R anyValue true ex (rebuild cfg host).
Proof.
  intros Hex. unfold rebuild. cbv zeta. repeat runs_step F;
    try (apply Hexec; reflexivity); apply Hother; exact I.
Qed.

Lemma runs_test_container_build (ex : Z -> Prop) (isMain : bool) :
  runs R anyValue true ex (test_container_build cfg host isMain).
Proof.
  unfold test_container_build, writeFileSync. cbv zeta. repeat runs_step F;
    try (apply Hexec; reflexivity); apply Hother; exact I.
Qed.

Lemma runs_pull_and_deploy (ex : Z -> Prop) (data : IpcData.t) (isMain : bool) :
  ex 0 -> runs R anyValue true ex (pull_and_deploy cfg host data isMain).
Proof.
  intros Hex. unfold pull_and_deploy, existsSync. cbv zeta.
  destruct (negb isMain); [apply (runs_logger F)|].
  destruct (String.eqb _ ""); [apply (runs_logger F)|].
  apply (runs_bind F anyValue); [apply (runs_logger F) | intros _ _].
  apply (runs_bind F headOk).
  { apply (runs_tryCatch F true).
    - apply (runs_bind F anyValue);
        [apply (runs_execSync F); apply Hexec; reflexivity|].
      intros out _. destruct (isCommitHash (JS.trim out)) eqn:E; simpl negb;
        [apply (runs_ret F); exact E | apply (runs_throw F)].
    - intros e. apply (runs_bind F anyValue); [apply (runs_logger F)|].
      intros _ _. apply (runs_ret F). exact I. }
  intros [previousHead|] Hhead; [|apply (runs_ret F); exact I].
  apply plain_hash in Hhead.
  assert (Hbranch := plain_branch (JS.orElse (IpcData.branch data) "main")).
  unfold plainCommand in Hhead, Hbranch.
  repeat runs_step F;
    try (apply Hother; exact I);
    apply Hexec; unfold plainCommand;
    rewrite ?string_forallb_app, ?Hhead, ?Hbranch; reflexivity.
Qed.

Lemma runs_processTaskIpc (ex : Z -> Prop) (data : IpcData.t) (src : string)
    (isMain : bool) :
  (In (IpcData.type data) storeTypes -> forall ts w, R w (set_tasks ts w)) ->
  (In (IpcData.type data) exitingTypes -> ex 0) ->
  (forall jid g,
     IpcData.type data = "register_group" ->
     isMain = true ->
     isValidGroupFolder host (RegisteredGroup.folder g) = true ->
     IpcData.folder data = Some (RegisteredGroup.folder g) ->
     IpcData.jid data = Some jid ->
     P (RegisterGroup jid g)) ->
  runs R anyValue true ex (processTaskIpc cfg host data src isMain).
Proof.
  intros Hstore Hex Hreg. unfold processTaskIpc.
  apply (runs_bind F anyValue); [apply (runs_get F); intros ?; exact I|].
  intros rg _. cbv zeta.
  destruct (String.eqb_spec (IpcData.type data) "schedule_task") as [E|_].
  { apply runs_schedule_task. apply Hstore. rewrite E. simpl. auto. }
  destruct (String.eqb_spec (IpcData.type data) "pause_task") as [E|_].
  { apply runs_onOwnedTask. intros id. apply runs_store.
    apply Hstore. rewrite E. simpl. auto. }
  destruct (String.eqb_spec (IpcData.type data) "resume_task") as [E|_].
  { apply runs_onOwnedTask. intros id. apply runs_store.
    apply Hstore. rewrite E. simpl. auto. }
  destruct (String.eqb_spec (IpcData.type data) "cancel_task") as [E|_].
  { apply runs_onOwnedTask. intros id. apply runs_store.
    apply Hstore. rewrite E. simpl. auto. }
  destruct (String.eqb_spec (IpcData.type data) "refresh_groups") as [E|_].
  { apply runs_refresh_groups. }
  destruct (String.eqb_spec (IpcData.type data) "register_group") as [E|_].
  { apply runs_register_group. intros jid g. apply Hreg. exact E. }
  destruct (String.eqb_spec (IpcData.type data) "restart") as [E|_].
  { apply runs_restart. apply Hex. rewrite E. simpl. auto. }
  destruct (String.eqb_spec (IpcData.type data) "rebuild") as [E|_].
  { apply runs_rebuild. apply Hex. rewrite E. simpl. auto. }
  destruct (String.eqb_spec (IpcData.type data) "test_container_build") as [E|_].
  { apply runs_test_container_build. }
  destruct (String.eqb_spec (IpcData.type data) "pull_and_deploy") as [E|_].
  { apply runs_pull_and_deploy. apply Hex. rewrite E. simpl. auto. }
  apply (runs_logger F).
Qed.

End Handlers.

(** X6.  Only [restart], [rebuild] and [pull_and_deploy] can end the
    process: a request of any other type, from any namespace, never
    makes the handler exit. *)
Theorem only_restart_rebuild_deploy_exit
    (cfg : Config) (host : Host) (data : IpcData.t) (sourceGroup : string)
    (isMain : bool) :
  ~ In (IpcData.type data) exitingTypes ->
  neverExits (processTaskIpc cfg host data sourceGroup isMain).
Proof.
  intros Hty. apply (runs_neverExits anyValue true).
  apply (runs_processTaskIpc Frame_anyWorld).
  - intros c _. exact I.
  - intros cmd cwd _. exact I.
  - intros _ ts w. exact I.
  - intros Hin. contradiction.
  - intros; exact I.
Qed.

(** X7.  Only [schedule_task], [pause_task], [resume_task] and
    [cancel_task] write to the task store: a request of any other type
    leaves it as it was, however the handler ends. *)
Theorem only_task_requests_change_the_store
    (cfg : Config) (host : Host) (data : IpcData.t) (sourceGroup : string)
    (isMain : bool) :
  ~ In (IpcData.type data) storeTypes ->
  keepsTasks (processTaskIpc cfg host data sourceGroup isMain).
Proof.
  intros Hty. apply (runs_keepsTasks anyValue true anyExit).
  apply (runs_processTaskIpc Frame_sameTasks).
  - intros c _. exact I.
  - intros cmd cwd _. exact I.
  - intros Hin. contradiction.
  - intros _. reflexivity.
  - intros; exact I.
Qed.

Lemma handler_commands_are_plain
    (cfg : Config) (host : Host) (data : IpcData.t) (sourceGroup : string)
    (isMain : bool) :
  emits plainCall (processTaskIpc cfg host data sourceGroup isMain).
Proof.
  apply (runs_emits plainCall anyValue true anyExit).
  apply (runs_processTaskIpc (Frame_callsAdded plainCall)).
  - intros []; simpl; intros H; try exact I. contradiction.
  - intros cmd cwd H. exact H.
  - intros _ ts w. exists []. simpl. rewrite app_nil_r.
    split; [reflexivity | constructor].
  - intros _. reflexivity.
  - intros; exact I.
Qed.

(* ===================================================================== *)
(** * [restart] and [rebuild] *)
(* ===================================================================== *)

(** X4.  [restart] always ends the process with code 0, after exactly
    one attempt at [npm run build] in the project root: a failing build
    does not keep the process alive.  The task store is not touched, and
    the handler writes no file of its own: the disk is left as that one
    build left it. *)
Theorem restart_builds_once_then_exits
    (cfg : Config) (host : Host) (w : World) :
  exists w',
    restart cfg host w = Exit 0 w'
    /\ calls w'
       = (calls w ++ [ExecSync "npm run build" (Some (projectRoot cfg));
                      ProcessExit 0])%list
    /\ tasks w' = tasks w
    /\ disk w'
       = execWrites host (calls w) "npm run build" (Some (projectRoot cfg))
           (disk w).
Proof.
  cbv [restart bind tryCatch exec_ execSync logger process_exit ret].
  cbn [calls add_log].
  destruct (execResult host (calls w) "npm run build"); eexists;
    (split; [reflexivity|]); cbn [calls tasks disk add_log add_call];
    rewrite calls_afterExec, tasks_afterExec,
      (afterExec_writes host "npm run build" _ _ eq_refl);
    cbn [calls tasks disk add_log add_call set_disk];
    rewrite <- List.app_assoc; repeat split.
Qed.

(** X5.  [rebuild] always ends the process with code 0.  It builds the
    container image, prunes dangling images only if that build
    succeeded, and in either case attempts [npm run build] before
    exiting; no failure of a child process changes the exit. *)
Theorem rebuild_always_exits
    (cfg : Config) (host : Host) (w : World) :
  exists w',
    rebuild cfg host w = Exit 0 w'
    /\ calls w'
       = (calls w
          ++ ExecSync "docker build -t nanoclawbster-agent:latest ."
               (Some (Path.join [moduleDir cfg; ".."; "container"]))
          :: match execResult host (calls w)
                     "docker build -t nanoclawbster-agent:latest ." with
             | Some _ => [ExecSync "docker image prune -f" None]
             | None => []
             end
          ++ [ExecSync "npm run build" (Some (projectRoot cfg));
              ProcessExit 0])%list
    /\ tasks w' = tasks w
    /\ disk w'
       = execWrites host
           (calls w
            ++ ExecSync "docker build -t nanoclawbster-agent:latest ."
                 (Some (Path.join [moduleDir cfg; ".."; "container"]))
            :: match execResult host (calls w)
                       "docker build -t nanoclawbster-agent:latest ." with
               | Some _ => [ExecSync "docker image prune -f" None]
               | None => []
               end)%list
           "npm run build" (Some (projectRoot cfg)) (disk w).
Proof.
  cbv [rebuild bind tryCatch attempt exec_ execSync logger process_exit ret].
  cbn [calls add_log].
  rewrite (afterExec_docker host
             "docker build -t nanoclawbster-agent:latest ." _ _ eq_refl).
  destruct (execResult host (calls w)
              "docker build -t nanoclawbster-agent:latest .");
    cbn [calls add_log add_call];
    rewrite ?(afterExec_docker host "docker image prune -f" _ _ eq_refl);
    repeat match goal with
           | |- context [execResult host ?h ?c] =>
               destruct (execResult host h c); cbn [calls add_log add_call]
           end;
    eexists; (split; [reflexivity|]); cbn [calls tasks disk add_log add_call];
    rewrite calls_afterExec, tasks_afterExec,
      (afterExec_writes host "npm run build" _ _ eq_refl);
    cbn [calls tasks disk add_log add_call set_disk];
    rewrite <- ?List.app_assoc; repeat split.
Qed.

(** X12.  A group is registered through the mailbox only by a
    [register_group] request handled for the main namespace, with the
    chat and the folder the request names, and only if the folder name
    passes [isValidGroupFolder]; no other request type and no other
    namespace reaches [deps.registerGroup]. *)
Theorem registration_needs_main_and_valid_folder
    (cfg : Config) (host : Host) (data : IpcData.t) (sourceGroup : string)
    (isMain : bool) :
  emits (registrationOk host data isMain)
    (processTaskIpc cfg host data sourceGroup isMain).
Proof.
  apply (runs_emits _ anyValue true anyExit).
  apply (runs_processTaskIpc (Frame_callsAdded _)).
  - intros []; simpl; intros H; try exact I; contradiction.
  - intros cmd cwd _. exact I.
  - intros _ ts w. exists []. simpl. rewrite app_nil_r.
    split; [reflexivity | constructor].
  - intros _. reflexivity.
  - intros jid g Hty Hmain Hvalid Hfolder Hjid. simpl. auto.
Qed.

(* ===================================================================== *)
(** * What one poll may do *)
(* ===================================================================== *)

Lemma plainName_spec (f : string) :
  plainName f = true ->
  JS.includes "/" f = false /\ f <> "" /\ f <> "." /\ f <> "..".
Proof.
  unfold plainName. rewrite !andb_true_iff, !negb_true_iff.
  intros [[[H1 H2] H3] H4]. repeat split; try exact H1;
    apply String.eqb_neq; assumption.
Qed.

Section Poll.

Context {R : World -> World -> Prop} {P : Call -> Prop} (F : Frame R P).
Context (cfg : Config) (host : Host).
Context (Hother : forall c,
           match c with
           | ExecSync _ _ | RegisterGroup _ _ | ReadFile _
           | SendMessage _ _ _ | Unlink _ | Rename _ _ => False
           | _ => True
           end -> P c).
Context (Hexec : forall cmd cwd, plainCommand cmd = true -> P (ExecSync cmd cwd)).
Context (Hreg : forall jid g,
           isValidGroupFolder host (RegisteredGroup.folder g) = true ->
           P (RegisterGroup jid g)).
Context (Hstore : forall ts w, R w (set_tasks ts w)).
Context (Hqueue : forall sourceGroup isMain registeredGroups,
           sourceGroup <> "errors" -> plainName sourceGroup = true ->
           QueueRules P cfg sourceGroup isMain registeredGroups).

Lemma runs_readJson (ex : Z -> Prop) (p : string) :
  P (ReadFile p) -> runs R anyValue true ex (readJson p).
Proof.
  intros Hp. unfold readJson, readFileSync.
  apply (runs_bind F anyValue); [apply (runs_fsQuery F); exact Hp|].
  intros c _. destruct c; repeat runs_step F.
Qed.

Lemma runs_handleMessage (ex : Z -> Prop) (data : IpcData.t) (src : string)
    (isMain : bool) (rg : gmap string RegisteredGroup.t) :
  QueueRules P cfg src isMain rg ->
  runs R anyValue true ex (handleMessage cfg host data src isMain rg).
Proof.
  intros Hq. unfold handleMessage. cbv zeta.
  destruct (_ && _ && _); [|apply (runs_ret F); exact I].
  destruct (maySend src isMain _) eqn:Hmay; [|apply (runs_logger F)].
  unfold deps_sendMessage, getDisk, unlinkSync.
  apply (runs_bind F anyValue); [apply (runs_get F); intros ?; exact I|].
  intros d _.
  apply (runs_bind F anyValue).
  { apply (runs_bind F anyValue);
      [apply (runs_call F); apply (rule_send _ _ _ _ _ Hq); exact Hmay|].
    intros _ _. destruct (sendFails host _);
      [apply (runs_throw F) | apply (runs_ret F); exact I]. }
  intros _ _.
  apply (runs_bind F anyValue); [apply (runs_logger F)|]. intros _ _.
  apply (runs_forEach F). intros p Hp.
  apply (runs_attempt F true), (runs_fsUpdate F).
  exact (rule_attachment _ _ _ _ _ Hq _ _ _ Hp).
Qed.

Lemma runs_moveToErrors (ex : Z -> Prop) (src file filePath : string) :
  P (Rename filePath
       (Path.join [Path.join [ipcBaseDir cfg; "errors"]; src +:+ "-" +:+ file])) ->
  runs R anyValue true ex (moveToErrors cfg src file filePath).
Proof.
  intros Hp. unfold moveToErrors, mkdirSync, renameSync. cbv zeta.
  apply (runs_bind F anyValue);
    [apply (runs_fsUpdate F); apply Hother; exact I|].
  intros _ _. apply (runs_fsUpdate F). exact Hp.
Qed.

Lemma runs_processMessageFile (ex : Z -> Prop) (src : string) (isMain : bool)
    (rg : gmap string RegisteredGroup.t) (file : string) :
  QueueRules P cfg src isMain rg ->
  requestFile "messages" file ->
  runs R anyValue true ex
    (processMessageFile cfg host src isMain rg
       (Path.join [ipcBaseDir cfg; src; "messages"]) file).
Proof.
  intros Hq Hfile. unfold processMessageFile. cbv zeta.
  apply (runs_tryCatch F true).
  - apply (runs_bind F anyValue);
      [apply runs_readJson; exact (rule_read _ _ _ _ _ Hq _ _ Hfile)|].
    intros data _.
    apply (runs_bind F anyValue); [apply runs_handleMessage; exact Hq|].
    intros _ _. unfold unlinkSync. apply (runs_fsUpdate F).
    exact (rule_unlink _ _ _ _ _ Hq _ _ Hfile).
  - intros e. apply (runs_bind F anyValue); [apply (runs_logger F)|].
    intros _ _. apply runs_moveToErrors.
    exact (rule_rename _ _ _ _ _ Hq _ _ Hfile).
Qed.

Lemma runs_processTaskFile (src : string) (isMain isMain' : bool)
    (rg : gmap string RegisteredGroup.t) (file : string) :
  QueueRules P cfg src isMain' rg ->
  requestFile "tasks" file ->
  runs R anyValue true exitZero
    (processTaskFile cfg host src isMain
       (Path.join [ipcBaseDir cfg; src; "tasks"]) file).
Proof.
  intros Hq Hfile. unfold processTaskFile. cbv zeta.
  apply (runs_tryCatch F true).
  - apply (runs_bind F anyValue);
      [apply runs_readJson; exact (rule_read _ _ _ _ _ Hq _ _ Hfile)|].
    intros data _.
    apply (runs_bind F anyValue);
      [unfold unlinkSync; apply (runs_fsUpdate F);
       exact (rule_unlink _ _ _ _ _ Hq _ _ Hfile)|].
    intros _ _. apply (runs_processTaskIpc F Hother Hexec).
    + intros _. exact Hstore.
    + intros _. reflexivity.
    + intros jid g _ _ Hvalid _ _. apply Hreg. exact Hvalid.
  - intros e. apply (runs_bind F anyValue); [apply (runs_logger F)|].
    intros _ _. apply runs_moveToErrors.
    exact (rule_rename _ _ _ _ _ Hq _ _ Hfile).
Qed.

Lemma readdir_names (d : string) (fs : Fs.t) (names : list string) (f : string) :
  Fs.readdirSync d fs = inr names -> In f names -> plainName f = true.
Proof.
  unfold Fs.readdirSync.
  destruct (Fs.lookup d fs) as [[|c]|]; try discriminate.
  intros E. injection E as <-. intros Hin.
  apply In_sortNames, List.filter_In in Hin as [Hin Hdots].
  apply list_elem_of_In, list_elem_of_omap in Hin as [e [_ He]].
  unfold Fs.childName in He.
  destruct (Fs.stripPrefix _ _) as [rest|]; [|discriminate He].
  destruct (String.eqb rest "") eqn:Hne; [discriminate He|].
  destruct (JS.includes "/" rest) eqn:Hs; [discriminate He|].
  cbn [orb] in He. injection He as <-.
  unfold plainName. rewrite Hs, Hne. exact Hdots.
Qed.

Lemma runs_requestFiles (ex : Z -> Prop) (queue dir : string) :
  queue = "messages" \/ queue = "tasks" ->
  runs R (fun names => forall f, In f names -> requestFile queue f)
       true ex (requestFiles dir).
Proof.
  intros Hqueue'. unfold requestFiles, bind, readdirSync, ret. intros w.
  destruct (Fs.readdirSync dir (disk w)) as [e | names] eqn:Hdir;
    (split; [apply (frame_refl _ _ F)|]); [reflexivity|].
  intros f Hf. apply List.filter_In in Hf as [Hin Hjson].
  destruct (plainName_spec f (readdir_names _ _ _ _ Hdir Hin))
    as (Hs & Hne & _).
  unfold requestFile. auto.
Qed.

Lemma runs_processMessages (ex : Z -> Prop) (src : string) (isMain : bool)
    (rg : gmap string RegisteredGroup.t) :
  QueueRules P cfg src isMain rg ->
  runs R anyValue false ex (processMessages cfg host src isMain rg).
Proof.
  intros Hq. unfold processMessages, existsSync. cbv zeta.
  apply (runs_tryCatch F true); [|intros e; apply (runs_logger F)].
  apply (runs_bind F anyValue); [apply (runs_get F); intros ?; exact I|].
  intros [|] _; [|apply (runs_ret F); exact I].
  apply (runs_bind F _ _ _ _ _ _
           (runs_requestFiles _ "messages" _ (or_introl eq_refl))).
  intros names Hnames. apply (runs_forEach F). intros f Hf.
  apply runs_processMessageFile; [exact Hq | apply Hnames; exact Hf].
Qed.

Lemma runs_processTasks (src : string) (isMain isMain' : bool)
    (rg : gmap string RegisteredGroup.t) :
  QueueRules P cfg src isMain' rg ->
  runs R anyValue false exitZero (processTasks cfg host src isMain).
Proof.
  intros Hq. unfold processTasks, existsSync. cbv zeta.
  apply (runs_tryCatch F true); [|intros e; apply (runs_logger F)].
  apply (runs_bind F anyValue); [apply (runs_get F); intros ?; exact I|].
  intros [|] _; [|apply (runs_ret F); exact I].
  apply (runs_bind F _ _ _ _ _ _
           (runs_requestFiles _ "tasks" _ (or_intror eq_refl))).
  intros names Hnames. apply (runs_forEach F). intros f Hf.
  apply (runs_processTaskFile _ _ isMain' rg);
    [exact Hq | apply Hnames; exact Hf].
Qed.

Lemma runs_processGroup (rg : gmap string RegisteredGroup.t) (src : string) :
  QueueRules P cfg src (String.eqb src (MAIN_GROUP_FOLDER cfg)) rg ->
  runs R anyValue false exitZero (processGroup cfg host rg src).
Proof.
  intros Hq. unfold processGroup. cbv zeta.
  apply (runs_bind F anyValue); [apply runs_processMessages; exact Hq|].
  intros _ _. apply runs_processTasks with (rg := rg) (1 := Hq).
Qed.

Lemma runs_groupFolders (ex : Z -> Prop) :
  runs R (fun folders =>
            forall f, In f folders -> f <> "errors" /\ plainName f = true)
       true ex (groupFolders cfg).
Proof.
  unfold groupFolders, getDisk, bind, readdirSync, ret. intros w.
  destruct (Fs.readdirSync (ipcBaseDir cfg) (disk w)) as [e | names] eqn:Hdir;
    (split; [apply (frame_refl _ _ F)|]); [reflexivity|].
  intros f Hf. apply List.filter_In in Hf. destruct Hf as [Hin Hf].
  apply andb_true_iff in Hf. destruct Hf as [_ Hf].
  apply negb_true_iff, String.eqb_neq in Hf.
  split; [exact Hf | exact (readdir_names _ _ _ _ Hdir Hin)].
Qed.

Lemma runs_processIpcFiles :
  runs R anyValue false exitZero (processIpcFiles cfg host).
Proof.
  unfold processIpcFiles.
  apply (runs_bind F
           (fun scanned => match scanned with
                           | Some folders =>
                               forall f, In f folders ->
                                 f <> "errors" /\ plainName f = true
                           | None => True
                           end)).
  - apply (runs_tryCatch F true).
    + apply (runs_bind F _ _ _ _ _ _ (runs_groupFolders _)).
      intros folders Hfolders. apply (runs_ret F). exact Hfolders.
    + intros e. apply (runs_bind F anyValue); [apply (runs_logger F)|].
      intros _ _. apply (runs_ret F). exact I.
  - intros [folders|] Hfolders; [|apply (runs_ret F); exact I].
    apply (runs_bind F anyValue); [apply (runs_get F); intros ?; exact I|].
    intros rg _. apply (runs_forEach F). intros f Hf.
    apply runs_processGroup. apply Hqueue; apply Hfolders; exact Hf.
Qed.

End Poll.

(** X13.  A poll never throws: whatever lies in the mailbox and however a
    request fails, one run of [processIpcFiles] returns, or the process
    has exited, and then with code 0. *)
Theorem poll_never_throws (cfg : Config) (host : Host) :
  neverThrows (processIpcFiles cfg host)
  /\ forall w code w', processIpcFiles cfg host w = Exit code w' -> code = 0.
Proof.
  assert (H : runs anyWorld anyValue false exitZero (processIpcFiles cfg host))
    by (apply (runs_processIpcFiles Frame_anyWorld);
        try (intros; exact I); split; intros; exact I).
  split; [exact (runs_neverThrows anyValue exitZero _ H)|].
  intros w code w' E. destruct (H w) as [_ Ho]. rewrite E in Ho. exact Ho.
Qed.

(** X9.  Every command a poll hands to a child process is made of
    letters, digits, [. _ - / :] and spaces only, whatever the request
    files contain: the branch of a [pull_and_deploy] request and the
    recorded commit reach the shell only after every other character
    has been removed or the value refused. *)
Theorem poll_commands_are_plain (cfg : Config) (host : Host) :
  emits plainCall (processIpcFiles cfg host).
Proof.
  apply (runs_emits _ anyValue false exitZero).
  apply (runs_processIpcFiles (Frame_callsAdded _)).
  - intros []; simpl; intros H; try exact I; contradiction.
  - intros cmd cwd H. exact H.
  - intros jid g _. exact I.
  - intros ts w. exists []. simpl. rewrite app_nil_r.
    split; [reflexivity | constructor].
  - intros g isMain rg _. split; intros; exact I.
Qed.

(* ===================================================================== *)
(** * [pull_and_deploy] *)
(* ===================================================================== *)

Section Deploy.

Context (cfg : Config) (host : Host).

Lemma pull_and_deploy_steps (data : IpcData.t) (isMain : bool) :
  pull_and_deploy cfg host data isMain
  = if negb isMain then logger warn "Unauthorized pull_and_deploy attempt"
    else
      let branch := deployBranch data in
      if String.eqb branch "" then
        logger error "Invalid branch name — aborting deploy"
      else
        logger info "Pull and deploy requested via IPC" ;;;
        head <- deployHead cfg host ;;
        match head with
        | None => ret tt
        | Some previousHead =>
            fetched <- deployFetch cfg host branch ;;
            if negb fetched then ret tt
            else deployPulled cfg host branch previousHead
        end.
Proof. reflexivity. Qed.

Lemma bind_eq {A B} (m : M A) (k : A -> M B) (w : World) :
  bind m k w
  = match m w with
    | Ret a w' => k a w'
    | Throw e w' => Throw e w'
    | Exit c w' => Exit c w'
    end.
Proof. reflexivity. Qed.

Lemma deployHead_spec (w : World) :
  deployHead cfg host w
  = let w1 := afterExec host "git rev-parse HEAD" (Some (projectRoot cfg)) w in
    let failed :=
      Ret None (add_log error "Failed to get current HEAD — aborting deploy" w1) in
    match execResult host (calls w) "git rev-parse HEAD" with
    | Some out =>
        if isCommitHash (JS.trim out) then Ret (Some (JS.trim out)) w1 else failed
    | None => failed
    end.
Proof.
  cbv [deployHead tryCatch bind execSync throw ret logger].
  destruct (execResult host (calls w) "git rev-parse HEAD") as [out|];
    [destruct (isCommitHash (JS.trim out))|]; reflexivity.
Qed.

Lemma deployFetch_spec (branch : string) (w : World) :
  deployFetch cfg host branch w
  = let root := Some (projectRoot cfg) in
    let w1 := afterExec host ("git fetch origin " +:+ branch) root w in
    let w2 := afterExec host ("git reset --hard origin/" +:+ branch) root w1 in
    let failed := add_log error "Git fetch/reset failed — aborting deploy" in
    if succeeds host (calls w) ("git fetch origin " +:+ branch) then
      if succeeds host (calls w1) ("git reset --hard origin/" +:+ branch)
      then Ret true (add_log info "Git pull completed" w2)
      else Ret false (failed w2)
    else Ret false (failed w1).
Proof.
  cbv [deployFetch tryCatch bind exec_ execSync ret logger succeeds].
  destruct (execResult host (calls w) _); [|reflexivity].
  destruct (execResult host _ _); reflexivity.
Qed.

Lemma deployPulled_exits (branch previousHead : string) :
  runs anyWorld noValue false exitZero (deployPulled cfg host branch previousHead).
Proof.
  unfold deployPulled, deployInstall, deployBuild, deployImage, deploySync,
    existsSync.
  cbv zeta. repeat runs_step Frame_anyWorld; reflexivity.
Qed.

(** X10.  [pull_and_deploy] for the main namespace never throws, and it
    ends the process, with code 0, exactly when the pull went through:
    the sanitized branch is not empty, [git rev-parse HEAD] printed a
    commit hash, and the fetch and the reset succeeded.  After that no
    failure (install, build, image, dev workspace) keeps the process
    alive.  Before that the handler returns with the task store as it
    was, having started no child process other than the three [git]
    commands of the pull, in their order. *)
Theorem deploy_restarts_iff_pulled (data : IpcData.t) (w : World) :
  match pull_and_deploy cfg host data true w with
  | Exit code _ => code = 0 /\ deployable cfg host data w = true
  | Ret _ w' =>
      deployable cfg host data w = false
      /\ tasks w' = tasks w
      /\ exists n,
           calls w'
           = (calls w
              ++ take n
                   [ExecSync "git rev-parse HEAD" (Some (projectRoot cfg));
                    ExecSync ("git fetch origin " +:+ deployBranch data)
                      (Some (projectRoot cfg));
                    ExecSync ("git reset --hard origin/" +:+ deployBranch data)
                      (Some (projectRoot cfg))])%list
  | Throw _ _ => False
  end.
Proof.
  rewrite pull_and_deploy_steps. cbn [negb]. cbv iota zeta.
  unfold deployable. cbv zeta.
  destruct (String.eqb (deployBranch data) "") eqn:Hb.
  { simpl. repeat split. exists 0%nat. symmetry. apply app_nil_r. }
  cbn [negb]. rewrite andb_true_l. cbv iota.
  rewrite bind_eq. unfold logger at 1. rewrite bind_eq, deployHead_spec.
  cbv zeta. cbn [calls add_log].
  destruct (execResult host (calls w) "git rev-parse HEAD") as [out|].
  2:{ unfold ret. cbn [tasks calls add_log].
      rewrite tasks_afterExec, calls_afterExec. cbn [tasks calls add_log].
      repeat split. exists 1%nat. reflexivity. }
  destruct (isCommitHash (JS.trim out)).
  2:{ unfold ret. cbn [tasks calls add_log].
      rewrite tasks_afterExec, calls_afterExec. cbn [tasks calls add_log].
      repeat split. exists 1%nat. reflexivity. }
  rewrite andb_true_l, bind_eq, deployFetch_spec. cbv zeta.
  rewrite !calls_afterExec. cbn [calls add_log].
  rewrite <- !List.app_assoc. cbn [app].
  destruct (succeeds host _ _).
  2:{ unfold ret. cbn [negb tasks calls add_log].
      rewrite !tasks_afterExec, !calls_afterExec. cbn [tasks calls add_log].
      rewrite <- !List.app_assoc. repeat split. exists 2%nat. reflexivity. }
  destruct (succeeds host _ _).
  2:{ unfold ret. cbn [negb tasks calls add_log].
      rewrite !tasks_afterExec, !calls_afterExec. cbn [tasks calls add_log].
      rewrite <- !List.app_assoc. repeat split. exists 3%nat. reflexivity. }
  cbn [negb]. cbv iota.
  match goal with
  | |- match ?m ?w0 with _ => _ end =>
      destruct (deployPulled_exits (deployBranch data) (JS.trim out) w0)
        as [_ Hexit]; destruct (m w0)
  end.
  - destruct Hexit.
  - discriminate Hexit.
  - split; [exact Hexit | reflexivity].
Qed.

Lemma deployBuild_failing (previousHead : string) (w : World) :
  execResult host (calls w) "npm run build" = None ->
  exists w',
    deployBuild cfg host previousHead w = Ret true w'
    /\ calls w'
       = (calls w
          ++ [ExecSync "npm run build" (Some (projectRoot cfg));
              ExecSync ("git reset --hard " +:+ previousHead)
                (Some (projectRoot cfg))]
          ++ rollbackRetry cfg host
               (calls w ++ [ExecSync "npm run build" (Some (projectRoot cfg))])
               previousHead)%list.
Proof.
  intros Hfail.
  cbv [deployBuild tryCatch bind exec_ execSync ret logger attempt
       rollbackRetry succeeds].
  rewrite Hfail. clear Hfail. cbn [calls add_log]. rewrite calls_afterExec.
  destruct (execResult host _ ("git reset --hard " +:+ previousHead)).
  - cbn [calls add_log].
    destruct (execResult host _ "npm install"); cbn [calls add_log];
      destruct (execResult host _ "npm run build"); cbn [calls add_log];
      eexists; (split; [reflexivity|]); calls_norm; reflexivity.
  - eexists. split; [reflexivity|]. calls_norm. reflexivity.
Qed.

Lemma besideRollback_history (previousHead : string) (l : list Call) :
  Forall (besideRollback previousHead) l -> rolledBack previousHead l = false.
Proof.
  induction 1 as [|c l [_ Hc] _ IH]; [reflexivity|].
  cbn [rolledBack List.existsb]. fold (rolledBack previousHead l).
  rewrite IH, orb_false_r.
  destruct c; try reflexivity. apply String.eqb_neq. exact Hc.
Qed.

(** Two commands that differ in their literal beginnings. *)
Ltac differ :=
  simpl; intros H; cbv [String.append] in H; discriminate H.

Lemma deployInstall_quiet (previousHead : string) :
  runs (callsAdded (besideRollback previousHead)) anyValue false noExit
    (deployInstall cfg host previousHead).
Proof.
  unfold deployInstall.
  repeat runs_step (Frame_callsAdded (besideRollback previousHead));
    split; differ.
Qed.

Lemma deployEnd_exits (branch : string) :
  runs (callsAdded notImageBuild) noValue false exitZero
    (deploySync cfg host branch ;;;
     logger info "Pull and deploy complete — restarting" ;;;
     @process_exit unit 0).
Proof.
  unfold deploySync, existsSync. cbv zeta.
  repeat runs_step (Frame_callsAdded notImageBuild);
    try reflexivity; simpl; discriminate.
Qed.

Lemma hash_not_origin (h b : string) :
  isCommitHash h = true ->
  "git reset --hard origin/" +:+ b <> "git reset --hard " +:+ h.
Proof.
  unfold isCommitHash. rewrite andb_true_iff. intros [_ Hhex] E.
  cbv [String.append] in E. fold String.append in E.
  injection E as E. subst h. simpl in Hhex. discriminate Hhex.
Qed.

(** X11.  When the pull went through and the build of the pulled code
    fails, [pull_and_deploy] resets the work tree to the commit it
    recorded before the pull and, if that reset succeeds, runs [npm
    install] and the build again.  Whether or not this second build
    succeeds, nothing further is built: the container image is not
    rebuilt, and the process ends with code 0.  The build of the pulled
    code fails: [npm run build] fails after any calls that do not
    include the reset to the recorded commit. *)
Theorem failed_build_rolls_back (data : IpcData.t) (w : World) (out : string) :
  deployable cfg host data w = true ->
  execResult host (calls w) "git rev-parse HEAD" = Some out ->
  (forall l, rolledBack (JS.trim out) l = false ->
             execResult host (calls w ++ l)%list "npm run build" = None) ->
  exists w' l1 l2,
    pull_and_deploy cfg host data true w = Exit 0 w'
    /\ calls w'
       = (calls w ++ l1
          ++ [ExecSync "npm run build" (Some (projectRoot cfg));
              ExecSync ("git reset --hard " +:+ JS.trim out)
                (Some (projectRoot cfg))]
          ++ rollbackRetry cfg host
               (calls w ++ l1
                ++ [ExecSync "npm run build" (Some (projectRoot cfg))])
               (JS.trim out)
          ++ l2)%list
    /\ Forall (besideRollback (JS.trim out)) l1
    /\ Forall notImageBuild l2.
Proof.
  intros Hdep Hout Hfail. unfold deployable in Hdep. cbv zeta in Hdep.
  rewrite !andb_true_iff in Hdep. destruct Hdep as [Hb Hdep].
  apply negb_true_iff in Hb. rewrite Hout in Hdep.
  rewrite !andb_true_iff in Hdep. destruct Hdep as [[Hhash Hfetch] Hreset].
  rewrite pull_and_deploy_steps. cbn [negb]. cbv iota zeta. rewrite Hb.
  rewrite bind_eq. unfold logger at 1. rewrite bind_eq, deployHead_spec.
  cbv zeta. cbn [calls add_log]. rewrite Hout, Hhash.
  rewrite bind_eq, deployFetch_spec. cbv zeta.
  rewrite !calls_afterExec. cbn [calls add_log].
  rewrite <- !List.app_assoc. cbn [app].
  rewrite Hfetch, Hreset. cbn [negb]. cbv iota.
  unfold deployPulled.
  match goal with |- context [bind _ _ ?w0] => set (w1 := w0) end.
  set (pull := [ExecSync "git rev-parse HEAD" (Some (projectRoot cfg));
                ExecSync ("git fetch origin " +:+ deployBranch data)
                  (Some (projectRoot cfg));
                ExecSync ("git reset --hard origin/" +:+ deployBranch data)
                  (Some (projectRoot cfg))]).
  assert (Hw1 : calls w1 = (calls w ++ pull)%list).
  { subst w1 pull. cbn [calls add_log]. rewrite !calls_afterExec.
    cbn [calls add_log]. rewrite <- !List.app_assoc. reflexivity. }
  assert (Hpull : Forall (besideRollback (JS.trim out)) pull).
  { subst pull.
    constructor; [split; differ|].
    constructor; [split; differ|].
    constructor; [split; [differ | apply hash_not_origin; exact Hhash]|].
    constructor. }
  clearbody w1.
  rewrite bind_eq.
  destruct (deployInstall_quiet (JS.trim out) w1) as [[l2 [Hc2 Hf2]] Ho2].
  destruct (deployInstall cfg host (JS.trim out) w1) as [[] w2 | e w2 | c w2];
    [|discriminate Ho2 | destruct Ho2].
  cbn [world_of] in Hc2. rewrite bind_eq.
  assert (Hw2 : calls w2 = (calls w ++ pull ++ l2)%list)
    by (rewrite Hc2, Hw1, <- List.app_assoc; reflexivity).
  assert (Hbefore : Forall (besideRollback (JS.trim out)) (pull ++ l2))
    by (apply Forall_app; split; assumption).
  destruct (deployBuild_failing (JS.trim out) w2) as (w3 & E3 & Hc3).
  { rewrite Hw2. apply Hfail, besideRollback_history. exact Hbefore. }
  rewrite E3. rewrite bind_eq.
  change (deployImage cfg host (JS.trim out) true w3) with (Ret tt w3).
  cbv iota beta.
  destruct (deployEnd_exits (deployBranch data) w3) as [[l4 [Hc4 Hf4]] Ho4].
  match goal with
  | |- exists _ _ _, ?m = _ /\ _ => destruct m as [[] w4 | e w4 | c w4]
  end; [destruct Ho4 | discriminate Ho4 |].
  cbn [world_of] in Hc4. unfold exitZero in Ho4. subst c.
  exists w4, (pull ++ l2)%list, l4. split; [reflexivity|].
  split; [|split; assumption].
  rewrite Hc4, Hc3, Hw2, <- !List.app_assoc. reflexivity.
Qed.

End Deploy.

(* ===================================================================== *)
(** * Writing files *)
(* ===================================================================== *)

Lemma lookup_app (p : string) (a b : Fs.t) :
  Fs.lookup p (a ++ b)%list
  = match Fs.lookup p a with Some n => Some n | None => Fs.lookup p b end.
Proof.
  unfold Fs.lookup. induction a as [|e a IH]; [reflexivity|].
  simpl. destruct (String.eqb (fst e) p); [reflexivity | exact IH].
Qed.

Lemma lookup_replace (p : string) (n : Fs.Node) (fs : Fs.t) :
  Fs.lookup p fs <> None ->
  Fs.lookup p (List.map (fun e => if String.eqb (fst e) p then (p, n) else e) fs)
  = Some n.
Proof.
  unfold Fs.lookup. induction fs as [|e fs IH]; [intros H; contradiction|].
  simpl. destruct (String.eqb (fst e) p) eqn:He; simpl.
  - rewrite String.eqb_refl. reflexivity.
  - rewrite He. exact IH.
Qed.

Lemma lookup_replace_other (p q : string) (n : Fs.Node) (fs : Fs.t) :
  q <> p ->
  Fs.lookup q (List.map (fun e => if String.eqb (fst e) p then (p, n) else e) fs)
  = Fs.lookup q fs.
Proof.
  intros Hq. unfold Fs.lookup. induction fs as [|e fs IH]; [reflexivity|].
  simpl. destruct (String.eqb_spec (fst e) p) as [He | He]; simpl.
  - destruct (String.eqb_spec p q) as [E | _]; [congruence|].
    destruct (String.eqb_spec (fst e) q) as [E | _]; [congruence | exact IH].
  - destruct (String.eqb (fst e) q); [reflexivity | exact IH].
Qed.

Lemma writeFileSync_lookup (p : string) (c : Fs.Contents) (fs fs' : Fs.t) :
  Fs.writeFileSync p c fs = inr fs' ->
  Fs.lookup p fs' = Some (Fs.File c)
  /\ forall q, q <> p -> Fs.lookup q fs' = Fs.lookup q fs.
Proof.
  unfold Fs.writeFileSync.
  destruct (Fs.lookup p fs) as [[|c0]|] eqn:Hp; [discriminate| |].
  - intros H. injection H as <-. split.
    + apply lookup_replace. rewrite Hp. discriminate.
    + intros q Hq. apply lookup_replace_other. exact Hq.
  - destruct (Fs.isDirectory (Fs.dirname p) fs); [|discriminate].
    intros H. injection H as <-. split.
    + rewrite lookup_app, Hp. unfold Fs.lookup. simpl.
      rewrite String.eqb_refl. reflexivity.
    + intros q Hq. rewrite lookup_app.
      destruct (Fs.lookup q fs); [reflexivity|].
      unfold Fs.lookup. simpl.
      destruct (String.eqb_spec p q) as [E | _]; [congruence | reflexivity].
Qed.

Lemma writeFileSync_ok (p : string) (c : Fs.Contents) (fs : Fs.t) :
  Fs.lookup p fs <> Some Fs.Dir ->
  Fs.isDirectory (Fs.dirname p) fs = true ->
  exists fs', Fs.writeFileSync p c fs = inr fs'.
Proof.
  intros Hp Hd. unfold Fs.writeFileSync.
  destruct (Fs.lookup p fs) as [[|c0]|]; [contradiction | eauto |].
  rewrite Hd. eauto.
Qed.

(* ===================================================================== *)
(** * [test_container_build] *)
(* ===================================================================== *)

(** X8.  [test_container_build] for the main namespace never ends the
    process: with the dev workspace in place it returns, and the result
    file then records whether the image build succeeded; no other path
    of the disk and no task changes. *)
Theorem test_container_build_records_outcome
    (cfg : Config) (host : Host) (w : World) :
  Fs.lookup (buildResultPath cfg) (disk w) <> Some Fs.Dir ->
  Fs.isDirectory (Fs.dirname (buildResultPath cfg)) (disk w) = true ->
  exists w',
    test_container_build cfg host true w = Ret tt w'
    /\ Fs.readFileSync (buildResultPath cfg) (disk w')
       = inr (Fs.BuildResult
                (succeeds host (calls w)
                   "docker build -t nanoclawbster-agent:test ."))
    /\ (forall q, q <> buildResultPath cfg ->
        Fs.lookup q (disk w') = Fs.lookup q (disk w))
    /\ tasks w' = tasks w.
Proof.
  intros Hp Hd.
  cbv [test_container_build negb]. fold (buildResultPath cfg).
  cbv [bind tryCatch attempt exec_ execSync ret logger writeFileSync fsUpdate
       succeeds].
  rewrite (afterExec_docker host "docker build -t nanoclawbster-agent:test ."
             _ _ eq_refl).
  cbn [calls disk add_log add_call].
  destruct (execResult host (calls w) "docker build -t nanoclawbster-agent:test .").
  - destruct (writeFileSync_ok (buildResultPath cfg) (Fs.BuildResult true)
                (disk w) Hp Hd) as [fs' E].
    destruct (writeFileSync_lookup _ _ _ _ E) as [Hl Ho].
    rewrite (afterExec_docker host "docker rmi nanoclawbster-agent:test"
               _ _ eq_refl).
    destruct (execResult host _ "docker rmi nanoclawbster-agent:test");
      cbn [calls disk add_log add_call]; rewrite E; eexists;
      (split; [reflexivity|]); cbn [disk tasks set_disk add_log add_call];
      unfold Fs.readFileSync; rewrite Hl; auto.
  - destruct (writeFileSync_ok (buildResultPath cfg) (Fs.BuildResult false)
                (disk w) Hp Hd) as [fs' E].
    destruct (writeFileSync_lookup _ _ _ _ E) as [Hl Ho].
    cbn [calls disk add_log add_call]. rewrite E. eexists.
    split; [reflexivity|]. cbn [disk tasks set_disk add_log add_call].
    unfold Fs.readFileSync. rewrite Hl. auto.
Qed.

Lemma test_container_build_records_outcome_witness :
  exists w',
    test_container_build Demo.cfg Demo.host true withDevWorkspace = Ret tt w'
    /\ Fs.readFileSync (buildResultPath Demo.cfg) (disk w')
       = inr (Fs.BuildResult true).
Proof.
  destruct (test_container_build_records_outcome Demo.cfg Demo.host
              withDevWorkspace) as (w' & E & Hr & _).
  - vm_compute. discriminate.
  - vm_compute. reflexivity.
  - exists w'. split; [exact E | exact Hr].
Defined.

(* ===================================================================== *)
(** * Instances of the properties above *)
(* ===================================================================== *)

Lemma pause_then_resume_round_trip_witness :
  exists w1 w2,
    processTaskIpc Demo.cfg Demo.host (taskRequest "pause_task" "task-1-bob")
      "bob" false withTasks = Ret tt w1
    /\ processTaskIpc Demo.cfg Demo.host (taskRequest "resume_task" "task-1-bob")
         "bob" false w1 = Ret tt w2
    /\ getTaskById "task-1-bob" w1 = Some (Task.with_status "paused" bobsTask)
    /\ tasks w2 = tasks withTasks.
Proof.
  destruct (pause_then_resume_round_trip Demo.cfg Demo.host
              (taskRequest "pause_task" "task-1-bob")
              (taskRequest "resume_task" "task-1-bob")
              "bob" "task-1-bob" false bobsTask withTasks)
    as (w1 & w2 & H1 & H2 & H3 & _ & _ & H6); try reflexivity.
  - discriminate.
  - right. reflexivity.
  - exists w1, w2. repeat split; try assumption.
    apply H6; [reflexivity|].
    apply (bool_decide_unpack _). vm_compute. exact I.
Defined.

Lemma task_action_needs_recorded_owner_witness :
  rejected
    (processTaskIpc Demo.cfg Demo.host (taskRequest "cancel_task" "task-1-bob")
       "alice" (String.eqb "alice" (MAIN_GROUP_FOLDER Demo.cfg)) withTasks)
    withTasks.
Proof.
  apply (task_action_needs_recorded_owner Demo.cfg Demo.host
           (taskRequest "cancel_task" "task-1-bob") "alice" "task-1-bob"
           withTasks).
  - simpl. right. right. left. reflexivity.
  - reflexivity.
  - simpl. discriminate.
  - intros t H. vm_compute in H. injection H as <-. simpl. discriminate.
Defined.

Lemma cancel_task_removes_only_that_task_witness :
  exists w',
    processTaskIpc Demo.cfg Demo.host (taskRequest "cancel_task" "task-1-bob")
      "bob" false withTasks = Ret tt w'
    /\ getTaskById "task-1-bob" w' = None
    /\ getTaskById "task-2-alice" w' = Some alicesTask.
Proof.
  destruct (cancel_task_removes_only_that_task Demo.cfg Demo.host
              (taskRequest "cancel_task" "task-1-bob") "bob" "task-1-bob" false
              bobsTask withTasks)
    as (w' & E & Hgone & Hkept & _); try reflexivity.
  - discriminate.
  - right. reflexivity.
  - exists w'. split; [exact E|]. split; [exact Hgone|].
    rewrite Hkept; [reflexivity | discriminate].
Defined.

Lemma only_restart_rebuild_deploy_exit_witness :
  neverExits
    (processTaskIpc Demo.cfg Demo.host (IpcData.empty "test_container_build")
       "main" true).
Proof.
  apply (only_restart_rebuild_deploy_exit Demo.cfg Demo.host
           (IpcData.empty "test_container_build") "main" true).
  simpl. intros [H | [H | [H | []]]]; discriminate H.
Defined.

Lemma only_task_requests_change_the_store_witness :
  keepsTasks
    (processTaskIpc Demo.cfg Demo.host (IpcData.empty "rebuild") "alice" false).
Proof.
  apply (only_task_requests_change_the_store Demo.cfg Demo.host
           (IpcData.empty "rebuild") "alice" false).
  simpl. intros [H | [H | [H | [H | []]]]]; discriminate H.
Defined.

Lemma failed_build_rolls_back_witness :
  exists w' l1 l2,
    pull_and_deploy Demo.cfg hostBrokenPull (IpcData.empty "pull_and_deploy")
      true (Demo.world [])
    = Exit 0 w'
    /\ calls w'
       = (l1
          ++ [ExecSync "npm run build" (Some "/srv/claw");
              ExecSync ("git reset --hard " +:+ demoHead) (Some "/srv/claw");
              ExecSync "npm install" (Some "/srv/claw");
              ExecSync "npm run build" (Some "/srv/claw")]
          ++ l2)%list
    /\ Forall notImageBuild (l1 ++ l2).
Proof.
  destruct (failed_build_rolls_back Demo.cfg hostBrokenPull
              (IpcData.empty "pull_and_deploy") (Demo.world [])
              (demoHead +:+ String "010"%char ""))
    as (w' & l1 & l2 & E & Hc & H1 & H2).
  - vm_compute. reflexivity.
  - reflexivity.
  - intros l Hl. change (JS.trim (demoHead +:+ String "010"%char ""))
      with demoHead in Hl.
    cbn [calls Demo.world app]. unfold hostBrokenPull, execResult.
    rewrite String.eqb_refl, Hl. reflexivity.
  - exists w', l1, l2. split; [exact E|]. split.
    + rewrite Hc. reflexivity.
    + apply Forall_app. split; [|exact H2].
      eapply List.Forall_impl; [|exact H1]. intros c Hc'. exact (proj1 Hc').
Defined.

(* ===================================================================== *)
(** * The registry: folders stay unique *)
(* ===================================================================== *)

Section RegistryInvariant.

Import Registry.

Lemma registerGroup_step (g : RegisteredGroup.t) (f : File) :
  loadRegisteredGroups (snd (registerGroup g f))
  = if bool_decide (RegisteredGroup.folder g ∈ foldersOf f)
    then loadRegisteredGroups f
    else (loadRegisteredGroups f ++ [g])%list.
Proof.
  unfold registerGroup, foldersOf. cbv zeta.
  destruct (decide (RegisteredGroup.folder g
                    ∈ List.map RegisteredGroup.folder (loadRegisteredGroups f)))
    as [Hin | Hnot].
  - rewrite (bool_decide_eq_true_2 _ Hin).
    apply list_elem_of_In in Hin.
    destruct (find_folder_hit _ _ Hin) as [g' Hg']. rewrite Hg'. reflexivity.
  - rewrite (bool_decide_eq_false_2 _ Hnot).
    rewrite find_folder_miss; [reflexivity|].
    intros Hin. apply Hnot, list_elem_of_In. exact Hin.
Qed.

Lemma registerGroup_invariant (g : RegisteredGroup.t) (f : File) :
  NoDup (foldersOf f) ->
  NoDup (foldersOf (snd (registerGroup g f)))
  /\ (exists added,
        loadRegisteredGroups (snd (registerGroup g f))
        = (loadRegisteredGroups f ++ added)%list)
  /\ RegisteredGroup.folder g ∈ foldersOf (snd (registerGroup g f)).
Proof.
  intros Hnd. unfold foldersOf at 1 2. rewrite registerGroup_step.
  destruct (decide (RegisteredGroup.folder g ∈ foldersOf f)) as [Hin | Hnot].
  - rewrite (bool_decide_eq_true_2 _ Hin). split; [exact Hnd|]. split.
    + exists []. symmetry. apply app_nil_r.
    + exact Hin.
  - rewrite (bool_decide_eq_false_2 _ Hnot). split; [|split].
    + rewrite List.map_app. apply NoDup_app. split; [exact Hnd|]. split.
      * intros x Hx Hx'. simpl in Hx'. apply list_elem_of_singleton in Hx'.
        subst x. exact (Hnot Hx).
      * simpl. apply NoDup_singleton.
    + exists [g]. reflexivity.
    + rewrite List.map_app. apply elem_of_app. right. simpl.
      apply list_elem_of_singleton. reflexivity.
Qed.

(** X15.  Registration keeps the registry well formed.  Starting from a
    file in which no two groups share a folder (or from no file at all),
    after any sequence of [registerGroup] calls no two groups share a
    folder, the groups that were there are still there, unchanged and in
    the same order, and the folder of every group passed in is present. *)
Theorem registerGroup_keeps_folders_unique
    (gs : list RegisteredGroup.t) (f : File) :
  NoDup (foldersOf f) ->
  NoDup (foldersOf (registerAll gs f))
  /\ (exists added,
        loadRegisteredGroups (registerAll gs f)
        = (loadRegisteredGroups f ++ added)%list)
  /\ (forall g, In g gs ->
        RegisteredGroup.folder g ∈ foldersOf (registerAll gs f)).
Proof.
  revert f. induction gs as [|g gs IH]; intros f Hnd.
  - simpl. split; [exact Hnd|]. split; [|intros g []].
    exists []. symmetry. apply app_nil_r.
  - destruct (registerGroup_invariant g f Hnd) as (Hnd1 & [a1 Ha1] & Hin1).
    destruct (IH _ Hnd1) as (Hnd2 & [a2 Ha2] & Hin2).
    change (registerAll (g :: gs) f)
      with (registerAll gs (snd (registerGroup g f))).
    split; [exact Hnd2|]. split.
    + exists (a1 ++ a2)%list. rewrite Ha2, Ha1, <- List.app_assoc. reflexivity.
    + intros g' [<- | Hg']; [|apply Hin2; exact Hg'].
      unfold foldersOf in *. rewrite Ha2, List.map_app.
      apply elem_of_app. left. exact Hin1.
Qed.

End RegistryInvariant.

Lemma registerGroup_keeps_folders_unique_witness :
  NoDup (foldersOf
           (registerAll [Demo.group "alice"; Demo.group "bob"; Demo.group "alice"]
              Registry.Missing))
  /\ foldersOf
       (registerAll [Demo.group "alice"; Demo.group "bob"; Demo.group "alice"]
          Registry.Missing)
     = ["alice"; "bob"].
Proof.
  split; [|reflexivity].
  apply (registerGroup_keeps_folders_unique
           [Demo.group "alice"; Demo.group "bob"; Demo.group "alice"]
           Registry.Missing).
  simpl. apply NoDup_nil_2.
Defined.

(* ===================================================================== *)
(** * Paths in normal form *)
(* ===================================================================== *)

Lemma split_nonempty (sep : ascii) (s : string) : JS.split sep s <> [].
Proof.
  destruct s as [|c r]; [discriminate|]. cbn [JS.split].
  destruct (Ascii.eqb c sep); [discriminate|].
  destruct (JS.split sep r); discriminate.
Qed.

Lemma split_app_sep (sep : ascii) (a b : string) :
  JS.split sep (a +:+ String sep b) = (JS.split sep a ++ JS.split sep b)%list.
Proof.
  induction a as [|c a IH].
  - change ("" +:+ String sep b) with (String sep b).
    cbn [JS.split]. rewrite Ascii.eqb_refl. reflexivity.
  - rewrite append_cons. cbn [JS.split]. rewrite IH.
    destruct (Ascii.eqb c sep); [reflexivity|].
    destruct (JS.split sep a) eqn:Ha; [exfalso; exact (split_nonempty _ _ Ha)|].
    reflexivity.
Qed.

Lemma join_cons (x y : string) (l : list string) :
  JS.join "/" (x :: y :: l) = x +:+ String "/"%char (JS.join "/" (y :: l)).
Proof. reflexivity. Qed.

Lemma split_join (segs : list string) :
  segs <> [] ->
  forallb (fun f => negb (JS.includes "/" f)) segs = true ->
  JS.split Path.slash (JS.join "/" segs) = segs.
Proof.
  induction segs as [|x segs IH]; [intros H; contradiction|].
  intros _ Hall. cbn [forallb] in Hall. apply andb_true_iff in Hall as [Hx Hall].
  apply negb_true_iff in Hx.
  pose proof (split_without_slash x Hx) as Ex.
  destruct segs as [|y segs]; [exact Ex|].
  rewrite join_cons. unfold Path.slash in *. rewrite split_app_sep, Ex.
  rewrite IH; [reflexivity | discriminate | exact Hall].
Qed.

Lemma fold_normStep_plain (above : bool) (segs acc : list string) :
  forallb plainName segs = true ->
  fold_left (Path.normStep above) segs acc = (List.rev segs ++ acc)%list.
Proof.
  revert acc. induction segs as [|x segs IH]; intros acc Hall; [reflexivity|].
  cbn [forallb] in Hall. apply andb_true_iff in Hall as [Hx Hall].
  destruct (plainName_spec x Hx) as (_ & H1 & H2 & H3).
  apply String.eqb_neq in H1, H2, H3.
  cbn [fold_left]. rewrite (IH _ Hall).
  unfold Path.normStep. rewrite H1, H2, H3. cbn [orb].
  cbn [List.rev]. rewrite <- List.app_assoc. reflexivity.
Qed.

Lemma join_snoc (l : list string) (f : string) :
  l <> [] -> JS.join "/" (l ++ [f]) = JS.join "/" l +:+ "/" +:+ f.
Proof.
  induction l as [|x l IH]; [intros H; contradiction|]. intros _.
  destruct l as [|y l]; [reflexivity|].
  change ((x :: y :: l) ++ [f])%list with (x :: y :: (l ++ [f]))%list.
  rewrite join_cons.
  change (y :: (l ++ [f]))%list with ((y :: l) ++ [f])%list.
  rewrite IH by discriminate. rewrite join_cons, append_assoc. reflexivity.
Qed.

Lemma rev_string_app (a b acc : string) :
  JS.rev_string (a +:+ b) acc = JS.rev_string b (JS.rev_string a acc).
Proof.
  revert acc. induction a as [|c a IH]; intros acc; [reflexivity|].
  rewrite append_cons. cbn [JS.rev_string]. apply IH.
Qed.

Lemma string_last (f : string) :
  f <> "" -> exists g c, f = g +:+ String c "".
Proof.
  induction f as [|c f IH]; [intros H; contradiction|]. intros _.
  destruct f as [|d f].
  - exists "", c. reflexivity.
  - destruct IH as (g & e & E); [discriminate|].
    exists (String c g), e. rewrite E. reflexivity.
Qed.

Lemma includes_slash_last (g : string) (c : ascii) :
  JS.includes "/" (g +:+ String c "") = false -> Ascii.eqb "/"%char c = false.
Proof.
  induction g as [|d g IH].
  - change ("" +:+ String c "") with (String c "").
    cbn [JS.includes JS.startsWith].
    rewrite andb_true_r, orb_false_r. auto.
  - rewrite append_cons. cbn [JS.includes]. intros H.
    apply orb_false_iff in H as [_ H]. auto.
Qed.

Lemma endsWith_slash_name (a f : string) :
  JS.includes "/" f = false -> f <> "" -> JS.endsWith "/" (a +:+ f) = false.
Proof.
  intros Hs Hne.
  destruct (string_last f Hne) as (g & c & ->).
  unfold JS.endsWith. rewrite !rev_string_app. cbn [JS.rev_string JS.startsWith].
  rewrite (includes_slash_last g c Hs). reflexivity.
Qed.

Lemma plain_noSlash (segs : list string) :
  forallb plainName segs = true ->
  forallb (fun f => negb (JS.includes "/" f)) segs = true.
Proof.
  induction segs as [|x segs IH]; [reflexivity|]. cbn [forallb].
  rewrite !andb_true_iff. intros [Hx Hall]. split; [|exact (IH Hall)].
  apply negb_true_iff. exact (proj1 (plainName_spec x Hx)).
Qed.

Lemma absPath_snoc (segs : list string) (f : string) :
  segs <> [] -> absPath (segs ++ [f]) = absPath segs +:+ "/" +:+ f.
Proof.
  intros H. unfold absPath. rewrite (join_snoc segs f H).
  rewrite !append_cons. reflexivity.
Qed.

Lemma join_nonempty (segs : list string) :
  segs <> [] -> forallb plainName segs = true -> JS.join "/" segs <> "".
Proof.
  destruct segs as [|x segs]; [intros H; contradiction|]. intros _ Hall.
  cbn [forallb] in Hall. apply andb_true_iff in Hall as [Hx _].
  destruct (plainName_spec x Hx) as (_ & Hne & _).
  destruct x as [|c x]; [contradiction|].
  destruct segs; cbn [JS.join]; rewrite ?append_cons; discriminate.
Qed.

Lemma endsWith_slash_absPath (segs : list string) :
  segs <> [] -> forallb plainName segs = true ->
  JS.endsWith "/" (absPath segs) = false.
Proof.
  intros Hne Hall.
  destruct (exists_last Hne) as (l & f & ->).
  rewrite forallb_app in Hall. apply andb_true_iff in Hall as [_ Hf].
  cbn [forallb] in Hf. rewrite andb_true_r in Hf.
  destruct (plainName_spec f Hf) as (Hs & Hnef & _).
  destruct l as [|x l].
  - apply (endsWith_slash_name "/" f Hs Hnef).
  - rewrite absPath_snoc by discriminate.
    rewrite <- append_assoc.
    apply endsWith_slash_name; assumption.
Qed.

(** A path in normal form is left as it is by [path.normalize]. *)
Lemma normalize_absPath (segs : list string) :
  segs <> [] -> forallb plainName segs = true ->
  Path.normalize (absPath segs) = absPath segs.
Proof.
  intros Hne Hall. unfold Path.normalize.
  change (String.eqb (absPath segs) "") with false. cbv iota zeta.
  change (JS.startsWith "/" (absPath segs)) with true.
  rewrite (endsWith_slash_absPath segs Hne Hall).
  change (JS.split Path.slash (absPath segs))
    with ("" :: JS.split Path.slash (JS.join "/" segs))%list.
  rewrite (split_join segs Hne (plain_noSlash segs Hall)).
  cbn [fold_left negb].
  change (Path.normStep false [] "") with (@nil string).
  rewrite (fold_normStep_plain _ segs [] Hall), app_nil_r, List.rev_involutive.
  destruct (String.eqb_spec (JS.join "/" segs) "") as [E | _];
    [exfalso; exact (join_nonempty segs Hne Hall E)|].
  unfold absPath. cbn [negb]. rewrite append_nil_r. reflexivity.
Qed.

Lemma join_app (l1 l2 : list string) :
  l1 <> [] -> l2 <> [] ->
  JS.join "/" (l1 ++ l2) = JS.join "/" l1 +:+ "/" +:+ JS.join "/" l2.
Proof.
  induction l1 as [|x l1 IH]; [intros H; contradiction|]. intros _ H2.
  destruct l1 as [|y l1].
  - destruct l2 as [|z l2]; [contradiction | reflexivity].
  - change ((x :: y :: l1) ++ l2)%list with (x :: y :: (l1 ++ l2))%list.
    rewrite join_cons.
    change (y :: (l1 ++ l2))%list with ((y :: l1) ++ l2)%list.
    rewrite IH by (discriminate || assumption).
    rewrite join_cons, append_assoc. reflexivity.
Qed.

Lemma filter_plain (l : list string) :
  forallb plainName l = true ->
  List.filter (fun a => negb (String.eqb a "")) l = l.
Proof.
  induction l as [|x l IH]; [reflexivity|]. cbn [forallb List.filter].
  intros H. apply andb_true_iff in H as [Hx Hl].
  destruct (plainName_spec x Hx) as (_ & Hne & _).
  apply String.eqb_neq in Hne. rewrite Hne. cbn [negb]. rewrite (IH Hl).
  reflexivity.
Qed.

(** Joining plain names to a path in normal form appends them. *)
Lemma join_absPath (segs rest : list string) :
  segs <> [] -> forallb plainName segs = true -> forallb plainName rest = true ->
  Path.join (absPath segs :: rest) = absPath (segs ++ rest).
Proof.
  intros Hne Hsegs Hrest. unfold Path.join. cbn [List.filter].
  change (String.eqb (absPath segs) "") with false. cbn [negb].
  rewrite (filter_plain rest Hrest).
  assert (E : JS.join "/" (absPath segs :: rest) = absPath (segs ++ rest)).
  { destruct rest as [|r rest]; [rewrite app_nil_r; reflexivity|].
    unfold absPath. rewrite join_app by (assumption || discriminate).
    rewrite join_cons, !append_cons. reflexivity. }
  rewrite E. apply normalize_absPath.
  - destruct segs; [contradiction | discriminate].
  - rewrite forallb_app, Hsegs, Hrest. reflexivity.
Qed.

(** [path.normalize] on an absolute path, from what its segments leave
    on the stack. *)
Lemma normalize_abs_fold (all res : list string) :
  all <> [] ->
  forallb (fun f => negb (JS.includes "/" f)) all = true ->
  JS.endsWith "/" (absPath all) = false ->
  fold_left (Path.normStep false) all [] = List.rev res ->
  res <> [] -> forallb plainName res = true ->
  Path.normalize (absPath all) = absPath res.
Proof.
  intros Hne Hall Hend Hfold Hres Hplain. unfold Path.normalize.
  change (String.eqb (absPath all) "") with false. cbv iota zeta.
  change (JS.startsWith "/" (absPath all)) with true.
  rewrite Hend.
  change (JS.split Path.slash (absPath all))
    with ("" :: JS.split Path.slash (JS.join "/" all))%list.
  rewrite (split_join all Hne Hall).
  cbn [fold_left negb].
  change (Path.normStep false [] "") with (@nil string).
  rewrite Hfold, List.rev_involutive.
  destruct (String.eqb_spec (JS.join "/" res) "") as [E | _];
    [exfalso; exact (join_nonempty res Hres Hplain E)|].
  unfold absPath. rewrite append_nil_r. reflexivity.
Qed.

Lemma noSlash_app (l : list string) (x : string) :
  forallb plainName l = true -> JS.includes "/" x = false ->
  forallb (fun f => negb (JS.includes "/" f)) (l ++ [x]) = true.
Proof.
  intros Hl Hx. rewrite forallb_app, (plain_noSlash l Hl). cbn [forallb].
  rewrite Hx. reflexivity.
Qed.

Lemma fold_normStep_snoc (segs : list string) (x : string) :
  forallb plainName segs = true ->
  fold_left (Path.normStep false) (segs ++ [x]) []
  = Path.normStep false (List.rev segs) x.
Proof.
  intros H. rewrite fold_left_app, (fold_normStep_plain _ segs [] H), app_nil_r.
  reflexivity.
Qed.

Lemma join_two (a b : string) : JS.join "/" [a; b] = a +:+ "/" +:+ b.
Proof. reflexivity. Qed.

(** [path.join(dir, name)] for a directory in normal form and a name
    without a separator: the directory itself for the empty name and
    for [.], its parent for [..], and otherwise the entry of that name
    in the directory. *)
Lemma join_name (segs : list string) (g f : string) :
  segs <> [] -> forallb plainName (segs ++ [g]) = true ->
  JS.includes "/" f = false ->
  Path.join [absPath (segs ++ [g]); f]
  = if String.eqb f "" || String.eqb f "." then absPath (segs ++ [g])
    else if String.eqb f ".." then absPath segs
    else absPath (segs ++ [g]) +:+ "/" +:+ f.
Proof.
  intros Hne Hplain Hf.
  assert (Hne' : (segs ++ [g])%list <> []) by (destruct segs; discriminate).
  assert (Hsegs : forallb plainName segs = true).
  { rewrite forallb_app in Hplain. apply andb_true_iff in Hplain. tauto. }
  destruct (String.eqb_spec f "") as [-> | Hf0].
  { cbn [orb]. unfold Path.join. cbn [List.filter String.eqb negb].
    change (String.eqb (absPath (segs ++ [g])) "") with false. cbn [negb].
    cbn [JS.join]. apply normalize_absPath; assumption. }
  unfold Path.join. cbn [List.filter].
  change (String.eqb (absPath (segs ++ [g])) "") with false. cbn [negb].
  apply String.eqb_neq in Hf0. rewrite Hf0. cbn [negb orb].
  rewrite join_two, <- absPath_snoc by exact Hne'.
  apply String.eqb_neq in Hf0.
  assert (Hend : JS.endsWith "/" (absPath ((segs ++ [g]) ++ [f])) = false).
  { rewrite absPath_snoc by exact Hne'. rewrite <- append_assoc.
    apply endsWith_slash_name; assumption. }
  assert (Hall := noSlash_app (segs ++ [g]) f Hplain Hf).
  assert (Hne'' : ((segs ++ [g]) ++ [f])%list <> [])
    by (destruct (segs ++ [g])%list; discriminate).
  pose proof (fold_normStep_snoc (segs ++ [g]) f Hplain) as Hfold.
  destruct (String.eqb_spec f ".") as [-> | Hf1].
  { apply (normalize_abs_fold _ (segs ++ [g]) Hne'' Hall Hend); assumption. }
  destruct (String.eqb_spec f "..") as [-> | Hf2].
  { apply (normalize_abs_fold _ segs Hne'' Hall Hend); try assumption.
    rewrite Hfold, List.rev_app_distr. cbn [List.rev app].
    unfold Path.normStep. cbn [String.eqb Ascii.eqb orb].
    rewrite forallb_app in Hplain. apply andb_true_iff in Hplain as [_ Hg].
    cbn [forallb] in Hg. rewrite andb_true_r in Hg.
    destruct (plainName_spec g Hg) as (_ & _ & _ & Hg2).
    apply String.eqb_neq in Hg2. rewrite Hg2. reflexivity. }
  apply (normalize_abs_fold _ ((segs ++ [g]) ++ [f]) Hne'' Hall Hend);
    try assumption.
  - rewrite Hfold. unfold Path.normStep.
    apply String.eqb_neq in Hf0, Hf1, Hf2. rewrite Hf0, Hf1, Hf2. cbn [orb].
    rewrite (List.rev_app_distr (segs ++ [g]) [f]). reflexivity.
  - rewrite forallb_app, Hplain. cbn [forallb]. unfold plainName.
    apply String.eqb_neq in Hf0, Hf1, Hf2. rewrite Hf, Hf0, Hf1, Hf2.
    reflexivity.
Qed.

(* ===================================================================== *)
(** * Attachments: how far a forwarded path can lie *)
(* ===================================================================== *)

Lemma stripPrefix_app (a b : string) : Fs.stripPrefix a (a +:+ b) = Some b.
Proof.
  induction a as [|c a IH]; [destruct b; reflexivity|].
  rewrite append_cons. cbn [Fs.stripPrefix]. rewrite Ascii.eqb_refl. exact IH.
Qed.

Lemma childName_entry (dir f : string) :
  JS.includes "/" f = false -> f <> "" ->
  Fs.childName dir (dir +:+ "/" +:+ f) = Some f.
Proof.
  intros Hs Hne. unfold Fs.childName.
  rewrite <- append_assoc, stripPrefix_app.
  apply String.eqb_neq in Hne. rewrite Hne, Hs. reflexivity.
Qed.

Section AttachmentsInside.

Context (cfg : Config).

Lemma ipcBaseDir_normal (dsegs : list string) :
  dsegs <> [] -> forallb plainName dsegs = true ->
  DATA_DIR cfg = absPath dsegs ->
  ipcBaseDir cfg = absPath (dsegs ++ ["ipc"]).
Proof.
  intros Hne Hplain E. unfold ipcBaseDir. rewrite E.
  apply join_absPath; [assumption | assumption | reflexivity].
Qed.

(** X16.  How far the attachment filter can be led astray.  With the
    data directory in normal form, every path the message handler
    forwards to [sendMessage] (and then unlinks) is an entry of the
    attachments directory of the source namespace, or that directory
    itself (names [""] and ["."]), or the namespace directory (name
    [".."]): no other path is ever forwarded. *)
Theorem forwarded_attachment_stays_near
    (d : Fs.t) (sourceGroup p : string) (files : option (list JsonItem)) :
  normalPath (DATA_DIR cfg) ->
  plainName sourceGroup = true ->
  In p (resolveFiles d (Path.join [ipcBaseDir cfg; sourceGroup; "attachments"])
          files) ->
  entryOf (Path.join [ipcBaseDir cfg; sourceGroup; "attachments"]) p = true
  \/ p = Path.join [ipcBaseDir cfg; sourceGroup; "attachments"]
  \/ p = Path.join [ipcBaseDir cfg; sourceGroup].
Proof.
  intros (dsegs & Hne & Hplain & E) Hg Hin.
  assert (Hbase := ipcBaseDir_normal dsegs Hne Hplain E).
  assert (Hne1 : (dsegs ++ ["ipc"])%list <> []) by (destruct dsegs; discriminate).
  assert (Hplain1 : forallb plainName (dsegs ++ ["ipc"]) = true)
    by (rewrite forallb_app, Hplain; reflexivity).
  assert (Hns : Path.join [ipcBaseDir cfg; sourceGroup]
                = absPath ((dsegs ++ ["ipc"]) ++ [sourceGroup])).
  { rewrite Hbase. apply join_absPath; try assumption.
    cbn [forallb]. rewrite Hg. reflexivity. }
  assert (Hdir : Path.join [ipcBaseDir cfg; sourceGroup; "attachments"]
                 = absPath (((dsegs ++ ["ipc"]) ++ [sourceGroup])
                            ++ ["attachments"])).
  { rewrite Hbase,
      <- (List.app_assoc (dsegs ++ ["ipc"]) [sourceGroup] ["attachments"]).
    apply join_absPath; try assumption.
    cbn [app forallb]. rewrite Hg. reflexivity. }
  destruct (resolveFiles_sound _ _ _ _ Hin) as (f & _ & Hf & Hp & _).
  rewrite Hns. rewrite Hdir in Hp |- *.
  assert (Hne2 : ((dsegs ++ ["ipc"]) ++ [sourceGroup])%list <> [])
    by (destruct (dsegs ++ ["ipc"])%list; discriminate).
  assert (Hplain2 : forallb plainName
                      (((dsegs ++ ["ipc"]) ++ [sourceGroup]) ++ ["attachments"])
                    = true).
  { rewrite !forallb_app, Hplain. cbn [forallb]. rewrite Hg. reflexivity. }
  rewrite (join_name _ "attachments" f Hne2 Hplain2 Hf) in Hp.
  destruct (String.eqb_spec f "") as [-> | Hf0]; [right; left; exact Hp|].
  destruct (String.eqb_spec f ".") as [-> | Hf1]; [right; left; exact Hp|].
  destruct (String.eqb_spec f "..") as [-> | Hf2]; [right; right; exact Hp|].
  left. cbn [orb] in Hp. subst p. unfold entryOf.
  rewrite (childName_entry _ f Hf Hf0). reflexivity.
Qed.

End AttachmentsInside.

Lemma forwarded_attachment_stays_near_witness :
  entryOf (Path.join [ipcBaseDir Demo.cfg; "alice"; "attachments"])
    (Demo.ipc +:+ "/alice/attachments/report.pdf") = true
  \/ Demo.ipc +:+ "/alice/attachments/report.pdf"
     = Path.join [ipcBaseDir Demo.cfg; "alice"; "attachments"]
  \/ Demo.ipc +:+ "/alice/attachments/report.pdf"
     = Path.join [ipcBaseDir Demo.cfg; "alice"].
Proof.
  apply (forwarded_attachment_stays_near Demo.cfg (disk withReport) "alice" _
           (Some [JString "report.pdf"])).
  - exists ["srv"; "claw"; "data"]. repeat split. discriminate.
  - reflexivity.
  - vm_compute. left. reflexivity.
Defined.

(* ===================================================================== *)
(** * The tools: a request appears by the rename *)
(* ===================================================================== *)

Lemma includes_slash_cons (c : ascii) (s : string) :
  JS.includes "/" (String c s) = Ascii.eqb "/"%char c || JS.includes "/" s.
Proof. cbn [JS.includes JS.startsWith]. rewrite andb_true_r. reflexivity. Qed.

Lemma includes_slash_app (a b : string) :
  JS.includes "/" (a +:+ b) = JS.includes "/" a || JS.includes "/" b.
Proof.
  induction a as [|c a IH].
  - change ("" +:+ b) with b. destruct b; reflexivity.
  - rewrite append_cons, !includes_slash_cons, IH. apply orb_assoc.
Qed.

Lemma pretty_N_go_no_slash (x : N) (s : string) :
  JS.includes "/" s = false -> JS.includes "/" (pretty_N_go x s) = false.
Proof.
  revert s. induction (N.lt_wf_0 x) as [x _ IH]. intros s Hs.
  destruct (N.eq_dec x 0) as [-> | Hx]; [rewrite pretty_N_go_0; exact Hs|].
  rewrite pretty_N_go_step by lia. apply IH.
  - apply N.div_lt; lia.
  - rewrite includes_slash_cons, Hs, orb_false_r.
    unfold pretty_N_char. repeat case_match; reflexivity.
Qed.

Lemma pretty_Z_no_slash (z : Z) : JS.includes "/" (pretty z) = false.
Proof.
  assert (HN : forall n : N, JS.includes "/" (pretty n) = false).
  { intros n. unfold pretty, pretty_N. destruct (decide (n = 0%N));
      [reflexivity | apply pretty_N_go_no_slash; reflexivity]. }
  destruct z as [|p|p]; [reflexivity | apply HN |].
  unfold pretty, pretty_Z. rewrite includes_slash_app.
  change (JS.includes "/" "-") with false. apply HN.
Qed.

Lemma ipcFileName_no_slash (now : Z) (rnd : string) :
  JS.includes "/" rnd = false ->
  JS.includes "/" (Tool.ipcFileName now rnd) = false.
Proof.
  intros H. unfold Tool.ipcFileName.
  rewrite !includes_slash_app, pretty_Z_no_slash, H. reflexivity.
Qed.

Lemma startsWith_app (a b : string) : JS.startsWith a (a +:+ b) = true.
Proof.
  induction a as [|c a IH]; [destruct b; reflexivity|].
  rewrite append_cons. cbn [JS.startsWith]. rewrite Ascii.eqb_refl. exact IH.
Qed.

Lemma rev_string_acc (s acc : string) :
  JS.rev_string s acc = JS.rev_string s "" +:+ acc.
Proof.
  revert acc. induction s as [|c s IH]; intros acc; [reflexivity|].
  cbn [JS.rev_string]. rewrite (IH (String c acc)), (IH (String c "")).
  rewrite append_assoc. reflexivity.
Qed.

Lemma endsWith_app (a suf : string) : JS.endsWith suf (a +:+ suf) = true.
Proof.
  unfold JS.endsWith.
  rewrite rev_string_app, (rev_string_acc suf (JS.rev_string a "")).
  apply startsWith_app.
Qed.

Lemma ipcFileName_json (now : Z) (rnd : string) :
  JS.endsWith ".json" (Tool.ipcFileName now rnd) = true.
Proof.
  unfold Tool.ipcFileName. rewrite <- !append_assoc. apply endsWith_app.
Qed.

Lemma tmp_is_no_request (a : string) : JS.endsWith ".json" (a +:+ ".tmp") = false.
Proof.
  unfold JS.endsWith. rewrite rev_string_app. reflexivity.
Qed.

Lemma append_length (a b : string) :
  String.length (a +:+ b) = (String.length a + String.length b)%nat.
Proof.
  induction a as [|c a IH]; [reflexivity|].
  rewrite append_cons. cbn [String.length]. rewrite IH. reflexivity.
Qed.

Lemma long_name_plain (f : string) :
  JS.includes "/" f = false -> (3 <= String.length f)%nat -> plainName f = true.
Proof.
  intros Hs Hlen. unfold plainName. rewrite Hs.
  destruct f as [|a [|b [|c f]]]; cbn [String.length] in Hlen; try lia.
  cbn [String.eqb].
  destruct (Ascii.eqb a "."); destruct (Ascii.eqb b "."); reflexivity.
Qed.

Lemma ipcFileName_plain (now : Z) (rnd suffix : string) :
  JS.includes "/" rnd = false -> JS.includes "/" suffix = false ->
  plainName (Tool.ipcFileName now rnd +:+ suffix) = true.
Proof.
  intros H Hsuf. apply long_name_plain.
  - rewrite includes_slash_app, (ipcFileName_no_slash now rnd H), Hsuf.
    reflexivity.
  - unfold Tool.ipcFileName. rewrite !append_length. cbn [String.length]. lia.
Qed.

Lemma dirname_absPath (segs : list string) (f : string) :
  segs <> [] -> forallb plainName segs = true -> JS.includes "/" f = false ->
  Fs.dirname (absPath (segs ++ [f])) = absPath segs.
Proof.
  intros Hne Hplain Hf. unfold Fs.dirname.
  change (JS.split Path.slash (absPath (segs ++ [f])))
    with ("" :: JS.split Path.slash (JS.join "/" (segs ++ [f])))%list.
  rewrite split_join;
    [|destruct segs; discriminate | apply noSlash_app; assumption].
  change ("" :: segs ++ [f])%list with (("" :: segs) ++ [f])%list.
  rewrite List.removelast_last.
  destruct segs as [|x segs]; [contradiction|].
  rewrite join_cons. change ("" +:+ ?s) with s. reflexivity.
Qed.

Lemma startsWith_false_neq (p b s : string) :
  JS.startsWith p s = false -> s <> p +:+ b.
Proof. intros H ->. rewrite startsWith_app in H. discriminate H. Qed.

Lemma stripPrefix_none (p b s : string) :
  JS.startsWith p s = false -> Fs.stripPrefix (p +:+ b) s = None.
Proof.
  revert s. induction p as [|c p IH]; intros s H.
  - destruct s; discriminate H.
  - rewrite append_cons. destruct s as [|d s]; [reflexivity|].
    cbn [JS.startsWith Fs.stripPrefix] in *.
    destruct (Ascii.eqb c d); [apply IH; exact H | reflexivity].
Qed.

Lemma fresh_lookup (p b : string) (fs : Fs.t) :
  freshName p fs -> Fs.lookup (p +:+ b) fs = None.
Proof.
  intros Hfresh. unfold Fs.lookup.
  induction fs as [|e fs IH]; [reflexivity|]. cbn [List.find].
  destruct (String.eqb_spec (fst e) (p +:+ b)) as [E | _].
  - exfalso. apply (startsWith_false_neq p b (fst e)); [|exact E].
    apply Hfresh. left. reflexivity.
  - apply IH. intros e' He'. apply Hfresh. right. exact He'.
Qed.

Lemma readdir_app_entry (dir f : string) (n : Fs.Node) (fs : Fs.t) :
  Fs.isDirectory dir fs = true -> plainName f = true ->
  exists names,
    Fs.readdirSync dir fs = inr names
    /\ inNameOrder names
    /\ Fs.readdirSync dir (fs ++ [(dir +:+ "/" +:+ f, n)])%list
       = inr (Fs.insertName f names).
Proof.
  intros Hdir Hf. unfold Fs.isDirectory in Hdir. unfold Fs.readdirSync.
  rewrite lookup_app.
  destruct (Fs.lookup dir fs) as [[|c]|]; try discriminate Hdir.
  eexists. split; [reflexivity|]. split; [apply sortNames_sorted|].
  rewrite omap_app. cbn [omap list_omap fst].
  destruct (plainName_spec f Hf) as (Hs & Hne & _).
  rewrite (childName_entry dir f Hs Hne), List.filter_app.
  cbn [List.filter].
  assert (Hdots : Fs.notDots f = true).
  { unfold plainName in Hf. unfold Fs.notDots.
    rewrite !andb_true_iff in Hf. rewrite andb_true_iff. tauto. }
  rewrite Hdots, sortNames_snoc. reflexivity.
Qed.

Lemma rename_fresh (p : string) (n : Fs.Node) (fs : Fs.t) :
  freshName p fs ->
  Fs.renameSync (p +:+ ".tmp") p (fs ++ [(p +:+ ".tmp", n)])%list
  = inr (fs ++ [(p, n)])%list.
Proof.
  intros Hfresh. unfold Fs.renameSync.
  rewrite lookup_app, (fresh_lookup p ".tmp" fs Hfresh).
  unfold Fs.lookup at 1. cbn [List.find fst]. rewrite String.eqb_refl.
  cbn [fmap option_fmap option_map snd]. f_equal.
  unfold Fs.remove. rewrite List.filter_app, List.map_app.
  assert (Hp : String.eqb (p +:+ ".tmp") p = false).
  { apply String.eqb_neq. intros E.
    apply (f_equal String.length) in E. rewrite append_length in E.
    cbn [String.length] in E. lia. }
  cbn [List.filter fst]. rewrite Hp. cbn [negb List.map fst snd].
  rewrite String.eqb_refl. f_equal.
  induction fs as [|e fs IH]; [reflexivity|].
  assert (He : JS.startsWith p (fst e) = false) by (apply Hfresh; left; reflexivity).
  cbn [List.filter].
  destruct (String.eqb_spec (fst e) p) as [E | _].
  { exfalso. apply (startsWith_false_neq p "" (fst e) He).
    rewrite append_nil_r. exact E. }
  cbn [negb List.map].
  destruct (String.eqb_spec (fst e) (p +:+ ".tmp")) as [E | _];
    [exfalso; exact (startsWith_false_neq p ".tmp" (fst e) He E)|].
  pose proof (stripPrefix_none p (".tmp" +:+ "/") (fst e) He) as Hstrip.
  rewrite <- append_assoc in Hstrip. rewrite Hstrip.
  f_equal. apply IH. intros e' He'. apply Hfresh. right. exact He'.
Qed.

(** X17.  A request file appears in its queue by the rename, whole.
    With the queue directory in place and the generated name unused,
    [writeIpcFile] first writes the data under a name ending in [.tmp];
    at that point the request files of the directory, as a watcher's
    poll selects them, are what they were.  The rename then adds exactly
    one request file, under the name that is returned, at the place the
    order of names gives it in the listing, holding the data; the
    temporary name is gone. *)
Theorem writeIpcFile_publishes_by_rename
    (dir : string) (data : IpcData.t) (w : World) :
  normalPath dir ->
  Fs.isDirectory dir (disk w) = true ->
  Fs.mkdirSync dir (disk w) = inr (disk w) ->
  JS.includes "/" (rand w) = false ->
  freshName (Path.join [dir; Tool.ipcFileName (clock w) (rand w)]) (disk w) ->
  exists wT w',
    Mcp.writeTemp dir data w = Ret tt wT
    /\ pendingNames dir wT = pendingNames dir w
    /\ Mcp.writeIpcFile dir data w
       = Ret (Tool.ipcFileName (clock w) (rand w)) w'
    /\ pendingNames dir w'
       = Fs.insertName (Tool.ipcFileName (clock w) (rand w))
           (pendingNames dir w)
    /\ Fs.readFileSync (Path.join [dir; Tool.ipcFileName (clock w) (rand w)])
         (disk w')
       = inr (Fs.Json data)
    /\ Fs.existsSync
         (Path.join [dir; Tool.ipcFileName (clock w) (rand w)] +:+ ".tmp")
         (disk w')
       = false
    /\ JS.endsWith ".json" (Tool.ipcFileName (clock w) (rand w)) = true.
Proof.
  intros (segs & Hne & Hplain & ->) Hdir Hmk Hrnd.
  set (filename := Tool.ipcFileName (clock w) (rand w)).
  assert (Hname : plainName filename = true).
  { rewrite <- (append_nil_r filename).
    apply ipcFileName_plain; [exact Hrnd | reflexivity]. }
  assert (Htmpname : plainName (filename +:+ ".tmp") = true)
    by (apply ipcFileName_plain; [exact Hrnd | reflexivity]).
  assert (Hns : JS.includes "/" filename = false)
    by exact (proj1 (plainName_spec _ Hname)).
  assert (Hpath : Path.join [absPath segs; filename]
                  = absPath segs +:+ "/" +:+ filename).
  { rewrite join_absPath, absPath_snoc; try assumption; [reflexivity|].
    cbn [forallb]. rewrite Hname. reflexivity. }
  rewrite Hpath. intros Hfresh.
  set (filepath := absPath segs +:+ "/" +:+ filename) in *.
  assert (Htmp : filepath +:+ ".tmp"
                 = absPath segs +:+ "/" +:+ (filename +:+ ".tmp")).
  { unfold filepath. rewrite !append_assoc. reflexivity. }
  assert (Htmpns : JS.includes "/" (filename +:+ ".tmp") = false)
    by exact (proj1 (plainName_spec _ Htmpname)).
  assert (Hwrite : Fs.writeFileSync (filepath +:+ ".tmp") (Fs.Json data) (disk w)
                   = inr (disk w ++ [(filepath +:+ ".tmp", Fs.File (Fs.Json data))])%list).
  { unfold Fs.writeFileSync.
    rewrite (fresh_lookup filepath ".tmp" (disk w) Hfresh).
    rewrite Htmp, <- absPath_snoc by exact Hne.
    rewrite (dirname_absPath segs _ Hne Hplain Htmpns), Hdir. reflexivity. }
  destruct (readdir_app_entry (absPath segs) (filename +:+ ".tmp")
              (Fs.File (Fs.Json data)) (disk w) Hdir Htmpname)
    as (names & Hnames & Hsorted & Hnames1).
  rewrite <- Htmp in Hnames1.
  destruct (readdir_app_entry (absPath segs) filename
              (Fs.File (Fs.Json data)) (disk w) Hdir Hname)
    as (names' & Hnames' & _ & Hnames2).
  rewrite Hnames in Hnames'. injection Hnames' as <-.
  fold filepath in Hnames2.
  eexists _, _.
  split.
  { cbv [Mcp.writeTemp bind mkdirSync fsUpdate Date_now writeFileSync].
    rewrite Hmk. cbn [disk clock rand set_disk add_call].
    fold filename. rewrite Hpath. fold filepath. rewrite Hwrite. reflexivity. }
  split.
  { unfold pendingNames. cbn [disk set_disk add_call].
    rewrite Hnames1, Hnames, (filter_insertName _ _ _ Hsorted).
    rewrite tmp_is_no_request. reflexivity. }
  split.
  { cbv [Mcp.writeIpcFile bind mkdirSync fsUpdate Date_now writeFileSync
         renameSync ret].
    rewrite Hmk. cbn [disk clock rand set_disk add_call].
    fold filename. rewrite Hpath. fold filepath. rewrite Hwrite.
    cbn [disk clock rand set_disk add_call].
    rewrite (rename_fresh filepath _ (disk w) Hfresh). reflexivity. }
  cbn [disk set_disk add_call].
  split.
  { unfold pendingNames. cbn [disk set_disk add_call].
    rewrite Hnames2, Hnames, (filter_insertName _ _ _ Hsorted).
    unfold filename at 1. rewrite ipcFileName_json. reflexivity. }
  split.
  { unfold Fs.readFileSync. rewrite lookup_app.
    rewrite <- (append_nil_r filepath) at 1.
    rewrite (fresh_lookup filepath "" (disk w) Hfresh).
    unfold Fs.lookup. cbn [List.find fst]. rewrite String.eqb_refl. reflexivity. }
  split; [|apply ipcFileName_json].
  unfold Fs.existsSync. rewrite lookup_app.
  rewrite (fresh_lookup filepath ".tmp" (disk w) Hfresh).
  unfold Fs.lookup. cbn [List.find fst].
  destruct (String.eqb_spec filepath (filepath +:+ ".tmp")) as [E | _];
    [|reflexivity].
  apply (f_equal String.length) in E. rewrite append_length in E.
  cbn [String.length] in E. lia.
Qed.

Lemma writeIpcFile_publishes_by_rename_witness :
  exists wT w',
    Mcp.writeTemp Mcp.MESSAGES_DIR (messageRequest "dc:1" "hello" None) container
    = Ret tt wT
    /\ pendingNames Mcp.MESSAGES_DIR wT = ["1768478400000-zzzzzz.json"]
    /\ Mcp.writeIpcFile Mcp.MESSAGES_DIR (messageRequest "dc:1" "hello" None)
         container
       = Ret "1768478400000-k3x9qa.json" w'
    /\ pendingNames Mcp.MESSAGES_DIR w'
       = ["1768478400000-k3x9qa.json"; "1768478400000-zzzzzz.json"].
Proof.
  destruct (writeIpcFile_publishes_by_rename Mcp.MESSAGES_DIR
              (messageRequest "dc:1" "hello" None) container)
    as (wT & w' & H1 & H2 & H3 & H4 & _).
  - exists ["workspace"; "ipc"; "messages"]. repeat split. discriminate.
  - reflexivity.
  - reflexivity.
  - reflexivity.
  - intros e He. cbn [disk container In] in He.
    repeat (destruct He as [<- | He]; [vm_compute; reflexivity|]).
    contradiction.
  - exists wT, w'. split; [exact H1|]. split; [rewrite H2; reflexivity|].
    split; [exact H3|]. rewrite H4. reflexivity.
Defined.

(* ===================================================================== *)
(** * Discord: chat JIDs and the splitting of long messages *)
(* ===================================================================== *)

Section DiscordFacts.

Import DiscordChannel.

(** X18.  Chat JIDs and channel ids correspond: the JID the message
    handler builds for a channel is owned by the Discord channel and
    leads [sendMessage] and [setTyping] back to that channel, and every
    owned JID is the JID of the channel they fetch for it. *)
Theorem discord_jid_round_trip (channelId jid : string) :
  ownsJid (chatJidOf channelId) = true
  /\ channelIdOf (chatJidOf channelId) = channelId
  /\ (ownsJid jid = true -> chatJidOf (channelIdOf jid) = jid)
  /\ (ownsJid jid = false -> channelIdOf jid = jid).
Proof.
  split; [reflexivity|]. split.
  { unfold channelIdOf, chatJidOf. rewrite stripPrefix_app. reflexivity. }
  unfold ownsJid, channelIdOf, chatJidOf.
  destruct jid as [|a [|b [|c r]]]; cbn [JS.startsWith Fs.stripPrefix];
    try (split; [discriminate | reflexivity]).
  - destruct (Ascii.eqb_spec "d" a) as [<- | _];
      (split; [discriminate | reflexivity]).
  - destruct (Ascii.eqb_spec "d" a) as [<- | _];
      [|split; [discriminate | reflexivity]].
    destruct (Ascii.eqb_spec "c" b) as [<- | _];
      (split; [discriminate | reflexivity]).
  - destruct (Ascii.eqb_spec "d" a) as [<- | _];
      [|split; [discriminate | reflexivity]].
    destruct (Ascii.eqb_spec "c" b) as [<- | _];
      [|split; [discriminate | reflexivity]].
    destruct (Ascii.eqb_spec ":" c) as [<- | _];
      [|split; [discriminate | reflexivity]].
    cbn [andb]. split; [reflexivity | discriminate].
Qed.

Context {U : Type}.

Lemma MAX_LENGTH_pos : (0 < MAX_LENGTH)%nat.
Proof. unfold MAX_LENGTH. lia. Qed.

Lemma followUps_spec (t : list U) (fuel i : nat) :
  (List.length t - i <= fuel)%nat ->
  List.concat (followUps fuel i t) = drop i t
  /\ Forall (fun c => (0 < List.length c <= MAX_LENGTH)%nat) (followUps fuel i t).
Proof.
  pose proof MAX_LENGTH_pos as Hpos.
  revert i. induction fuel as [|fuel IH]; intros i Hfuel.
  - cbn [followUps List.concat]. split; [|constructor].
    symmetry. apply drop_ge. lia.
  - cbn [followUps]. destruct (Nat.ltb_spec i (List.length t)) as [Hi | Hi].
    + destruct (IH (i + MAX_LENGTH)%nat) as [Hcat Hall]; [lia|].
      cbn [List.concat]. rewrite Hcat. unfold slice.
      replace (i + MAX_LENGTH - i)%nat with MAX_LENGTH by lia.
      split.
      * rewrite <- drop_drop. apply take_drop.
      * constructor; [|exact Hall].
        rewrite length_take, length_drop. lia.
    + cbn [List.concat]. split; [|constructor].
      symmetry. apply drop_ge. lia.
Qed.

(** X19.  [sendMessage] loses and repeats nothing when it splits a long
    text: the contents of its sends, in order, make up the clean text;
    no content is longer than 2000 code units; there is at least one
    send, the first carries all the attachments (the files passed in,
    then the image links), and every later send carries a non-empty
    text and no attachment. *)
Theorem sendMessage_chunks
    (cleanText : list U) (fl : option (list string)) (imageUrls : list string) :
  List.concat (List.map textOf (sends cleanText fl imageUrls)) = cleanText
  /\ Forall (fun s => (List.length (textOf s) <= MAX_LENGTH)%nat)
       (sends cleanText fl imageUrls)
  /\ exists first rest,
       sends cleanText fl imageUrls = first :: rest
       /\ files first = (default [] fl ++ imageUrls)%list
       /\ Forall (fun s => files s = [] /\ textOf s <> []) rest.
Proof.
  pose proof MAX_LENGTH_pos as Hpos.
  assert (Hmap : forall l : list (list U),
            List.map textOf (List.map (fun c => mkSent (Some c) []) l) = l).
  { intros l. rewrite List.map_map. apply List.map_id. }
  assert (Hrest : forall l : list (list U),
            Forall (fun c => (0 < List.length c <= MAX_LENGTH)%nat) l ->
            Forall (fun s : Sent U => files s = [] /\ textOf s <> [])
                   (List.map (fun c => mkSent (Some c) []) l)).
  { intros l Hl. apply Forall_map. eapply Forall_impl; [exact Hl|].
    intros c [Hc _]. split; [reflexivity|]. cbn. intros ->. cbn in Hc. lia. }
  assert (Hlen : forall l : list (list U),
            Forall (fun c => (0 < List.length c <= MAX_LENGTH)%nat) l ->
            Forall (fun s : Sent U => (List.length (textOf s) <= MAX_LENGTH)%nat)
                   (List.map (fun c => mkSent (Some c) []) l)).
  { intros l Hl. apply Forall_map. eapply Forall_impl; [exact Hl|].
    intros c [_ Hc]. exact Hc. }
  unfold sends. cbv zeta.
  destruct (Nat.ltb_spec 0 (List.length (default [] fl ++ imageUrls))) as [Hfiles | Hfiles].
  - destruct (followUps_spec cleanText (List.length cleanText) MAX_LENGTH)
      as [Hcat Hall]; [lia|].
    assert (Hfirst : textOf (mkSent
                       (match slice 0 MAX_LENGTH cleanText with
                        | [] => None
                        | _ => Some (slice 0 MAX_LENGTH cleanText)
                        end) (default [] fl ++ imageUrls))
                     = take MAX_LENGTH cleanText).
    { unfold textOf, slice. cbn [content]. rewrite Nat.sub_0_r, drop_0.
      destruct (take MAX_LENGTH cleanText); reflexivity. }
    split; [|split].
    + cbn [List.map List.concat]. rewrite Hfirst, Hmap, Hcat. apply take_drop.
    + constructor; [|apply Hlen; exact Hall].
      rewrite Hfirst, length_take. lia.
    + eexists _, _. split; [reflexivity|]. split; [reflexivity|].
      apply Hrest. exact Hall.
  - destruct (Nat.leb_spec (List.length cleanText) MAX_LENGTH) as [Hshort | Hlong].
    + split; [|split].
      * cbn. apply app_nil_r.
      * constructor; [exact Hshort | constructor].
      * eexists _, _. split; [reflexivity|].
        split; [|constructor].
        cbn [files]. destruct (default [] fl ++ imageUrls)%list;
          [reflexivity | cbn [List.length] in Hfiles; lia].
    + destruct (followUps_spec cleanText (List.length cleanText) 0)
        as [Hcat Hall]; [lia|].
      split; [|split].
      * rewrite Hmap, Hcat. apply drop_0.
      * apply Hlen. exact Hall.
      * destruct (List.length cleanText) as [|n] eqn:Hn; [lia|].
        cbn [followUps] in *. rewrite Hn in *.
        change (0 <? S n)%nat with true in *. cbv iota in *.
        cbn [List.map]. eexists _, _. split; [reflexivity|].
        split.
        { cbn [files]. destruct (default [] fl ++ imageUrls)%list;
            [reflexivity | cbn [List.length] in Hfiles; lia]. }
        inversion Hall as [|? ? _ Hall']; subst. apply Hrest. exact Hall'.
Qed.

End DiscordFacts.

(* ===================================================================== *)
(** * Discord: where downloaded attachments are written *)
(* ===================================================================== *)

Section DiscordDownloads.

Import DiscordChannel.

Lemma safeChar_no_slash (c : ascii) :
  safeChar c = true -> Ascii.eqb "/"%char c = false.
Proof.
  intros H. destruct (Ascii.eqb_spec "/"%char c) as [<- | _]; [|reflexivity].
  vm_compute in H. discriminate H.
Qed.

Lemma safeUnit_safe (u : Z) : safeChar (safeUnit u) = true.
Proof.
  unfold safeUnit.
  destruct ((0 <=? u) && (u <? 128) && safeChar (ascii_of_N (Z.to_N u))) eqn:E.
  - apply andb_true_iff in E. tauto.
  - reflexivity.
Qed.

Lemma sanitize_safe (units : list Z) :
  JS.string_forallb safeChar (sanitize units) = true.
Proof.
  induction units as [|u units IH]; [reflexivity|].
  cbn [sanitize fold_right JS.string_forallb].
  fold (sanitize units). rewrite safeUnit_safe. exact IH.
Qed.

Lemma safe_no_slash (s : string) :
  JS.string_forallb safeChar s = true -> JS.includes "/" s = false.
Proof.
  induction s as [|c s IH]; [reflexivity|].
  cbn [JS.string_forallb]. rewrite andb_true_iff. intros [Hc Hs].
  rewrite includes_slash_cons, (safeChar_no_slash c Hc), (IH Hs). reflexivity.
Qed.

Lemma dash_not_dots (a b : string) :
  a +:+ String "-"%char b <> ""
  /\ a +:+ String "-"%char b <> "." /\ a +:+ String "-"%char b <> "..".
Proof.
  assert (H : JS.string_forallb (fun c => Ascii.eqb c ".") (a +:+ String "-"%char b)
              = false).
  { rewrite string_forallb_app. cbn [JS.string_forallb].
    change (Ascii.eqb "-" ".") with false. apply andb_false_r. }
  repeat split; intros E; rewrite E in H; discriminate H.
Qed.

Lemma safeName_plain (msgId : string) (att : Attachment) :
  JS.includes "/" msgId = false -> plainName (safeName msgId att) = true.
Proof.
  intros Hid. unfold safeName.
  set (units := match name att with Some (u :: us) => u :: us | _ => _ end).
  assert (Hs : JS.includes "/" (msgId +:+ "-" +:+ sanitize units) = false).
  { rewrite !includes_slash_app, Hid, (safe_no_slash _ (sanitize_safe units)).
    reflexivity. }
  unfold plainName. rewrite Hs.
  destruct (dash_not_dots msgId (sanitize units)) as (H0 & H1 & H2).
  apply String.eqb_neq in H0, H1, H2.
  change ("-" +:+ sanitize units) with (String "-"%char (sanitize units)).
  rewrite H0, H1, H2. reflexivity.
Qed.

(** X20.  An attachment of an incoming Discord message is written
    nowhere but directly into the received directory of the group,
    whatever its name: the file name is the message id, a dash and the
    name with every character outside [a-zA-Z0-9._-] replaced, and the
    path handed to [writeFileSync] is the entry of that name in the
    directory.  Videos and files above 25 MiB are not fetched at all. *)
Theorem download_stays_in_received_dir
    (receivedDir msgId : string) (att : Attachment)
    (fetched hostPath containerPath : string) :
  normalPath receivedDir ->
  JS.includes "/" msgId = false ->
  plan receivedDir msgId att = Download fetched hostPath containerPath ->
  fetched = url att
  /\ Fs.childName receivedDir hostPath = Some (safeName msgId att)
  /\ hostPath = receivedDir +:+ "/" +:+ safeName msgId att
  /\ containerPath = "/workspace/ipc/received/" +:+ safeName msgId att
  /\ (exists rest, safeName msgId att = msgId +:+ "-" +:+ rest
                   /\ JS.string_forallb safeChar rest = true)
  /\ size att <= MAX_SIZE
  /\ JS.startsWith "video/" (JS.orElse (contentType att) "") = false.
Proof.
  intros (segs & Hne & Hplain & ->) Hid. unfold plan.
  destruct (JS.startsWith "video/" _) eqn:Hvideo; [discriminate|].
  destruct (Z.ltb_spec MAX_SIZE (size att)) as [_ | Hsize]; [discriminate|].
  intros H. injection H as <- <- <-.
  pose proof (safeName_plain msgId att Hid) as Hname.
  destruct (plainName_spec _ Hname) as (Hs & Hne' & _).
  assert (Hpath : Path.join [absPath segs; safeName msgId att]
                  = absPath segs +:+ "/" +:+ safeName msgId att).
  { rewrite join_absPath, absPath_snoc; try assumption; [reflexivity|].
    cbn [forallb]. rewrite Hname. reflexivity. }
  rewrite Hpath. repeat split; try assumption.
  - apply childName_entry; assumption.
  - unfold safeName. eexists. split; [reflexivity | apply sanitize_safe].
Qed.

End DiscordDownloads.

Lemma download_stays_in_received_dir_witness :
  Fs.childName "/srv/claw/data/ipc/alice/received"
    (Path.join ["/srv/claw/data/ipc/alice/received";
                DiscordChannel.safeName "1400"
                  (DiscordChannel.mkAttachment (Some [46; 46; 47; 120]) None 10
                     "https://cdn.example/x")])
  = Some "1400-.._x".
Proof.
  destruct (download_stays_in_received_dir
              "/srv/claw/data/ipc/alice/received" "1400"
              (DiscordChannel.mkAttachment (Some [46; 46; 47; 120]) None 10
                 "https://cdn.example/x")
              "https://cdn.example/x"
              (Path.join ["/srv/claw/data/ipc/alice/received";
                          DiscordChannel.safeName "1400"
                            (DiscordChannel.mkAttachment (Some [46; 46; 47; 120])
                               None 10 "https://cdn.example/x")])
              "/workspace/ipc/received/1400-.._x")
    as (_ & H & _).
  - exists ["srv"; "claw"; "data"; "ipc"; "alice"; "received"].
    repeat split. discriminate.
  - reflexivity.
  - reflexivity.
  - exact H.
Defined.

(* ===================================================================== *)
(** * Routing an incoming message *)
(* ===================================================================== *)

Section Routing.

Import Index.

Context (deps : Deps).

Lemma find_discord (groups : list RegisteredGroup.t) (chatJid : string) :
  List.find
    (fun g =>
       let gjid := RegisteredGroup.folder g in
       String.eqb gjid chatJid
       || (JS.startsWith "dc:" gjid && String.eqb gjid chatJid))
    groups
  = List.find (fun g => String.eqb (RegisteredGroup.folder g) chatJid) groups.
Proof.
  assert (Hext : forall (f h : RegisteredGroup.t -> bool) l,
            (forall x, f x = h x) -> List.find f l = List.find h l).
  { intros f h l Hfh. induction l as [|x l IH]; [reflexivity|].
    cbn [List.find]. rewrite Hfh, IH. reflexivity. }
  apply Hext. intros g. cbv zeta.
  destruct (String.eqb (RegisteredGroup.folder g) chatJid); [reflexivity|].
  rewrite andb_false_r. reflexivity.
Qed.

Lemma typing_no_delivery (c : Channel) (chatJid : string) :
  List.filter isDelivery (typing c chatJid) = [].
Proof. unfold typing. destruct (hasSetTyping c); reflexivity. Qed.

(** What [onInboundMessage] delivers: nothing, or the one delivery
    [d] and the group it is for. *)
Lemma onInboundMessage_deliveries
    (groups : list RegisteredGroup.t) (chatJid : string) (m : NewMessage) :
  (List.filter isDelivery (onInboundMessage deps groups chatJid m) = []
   /\ forall g, ~ admitted deps groups chatJid m g)
  \/ exists g d,
       List.filter isDelivery (onInboundMessage deps groups chatJid m) = [d]
       /\ admitted deps groups chatJid m g
       /\ ((JS.startsWith "dc:" chatJid = true
            /\ d = Enqueue chatJid g (formatMessages deps [m]) false)
           \/ (JS.startsWith "dc:" chatJid = false
               /\ (d = Piped chatJid (formatMessages deps [m])
                   \/ exists prompt isMain, d = Enqueue chatJid g prompt isMain))).
Proof.
  unfold onInboundMessage, admitted.
  destruct (is_from_me m) eqn:Hme;
    [left; split; [reflexivity | intros g H; destruct H as (H & _); discriminate H]|].
  destruct (is_bot_message m) eqn:Hbot;
    [left; split; [reflexivity
                  | intros g H; destruct H as (_ & H & _); discriminate H]|].
  cbn [orb].
  destruct (JS.startsWith "dc:" chatJid) eqn:Hdc.
  - destruct (findChannel deps chatJid) as [c|] eqn:Hc;
      [|left; split; [reflexivity | intros g H; tauto]].
    cbv zeta. rewrite find_discord.
    destruct (String.eqb_spec (JS.trim (stripInternal 0 (content m))) "")
      as [Htext | Htext];
      [left; split; [reflexivity | intros g H; tauto]|].
    destruct (List.find _ groups) as [g|] eqn:Hfind.
    + right. exists g, (Enqueue chatJid g (formatMessages deps [m]) false).
      split.
      { rewrite List.filter_app, typing_no_delivery. reflexivity. }
      split; [|left; split; reflexivity].
      repeat split; try reflexivity; [discriminate | exact Htext].
    + left. split; [reflexivity|]. intros g (_ & _ & H & _). discriminate H.
  - destruct (List.find _ groups) as [g|] eqn:Hfind;
      [|left; split; [reflexivity | intros g (_ & _ & H & _); discriminate H]].
    cbv zeta.
    destruct (match RegisteredGroup.requiresTrigger g with
              | Some false => false
              | _ => true
              end && negb (JS.includes _ (content m))) eqn:Hgate.
    { left. split; [reflexivity|]. intros g' (_ & _ & Hg' & _ & [Hno | Hin]).
      - injection Hg' as <-. rewrite Hno in Hgate. discriminate Hgate.
      - injection Hg' as <-. rewrite Hin in Hgate.
        rewrite andb_false_r in Hgate. discriminate Hgate. }
    destruct (findChannel deps chatJid) as [c|] eqn:Hc;
      [|left; split; [reflexivity | intros g' H; tauto]].
    assert (Hadm : RegisteredGroup.requiresTrigger g = Some false
                   \/ JS.includes
                        (JS.orElse (Some (RegisteredGroup.trigger g))
                                   (ASSISTANT_NAME deps)) (content m) = true).
    { apply andb_false_iff in Hgate as [Hgate | Hgate].
      - left. destruct (RegisteredGroup.requiresTrigger g) as [[|]|];
          try discriminate Hgate; reflexivity.
      - right. apply negb_false_iff. exact Hgate. }
    right. exists g.
    destruct (queueSendMessage deps chatJid (formatMessages deps [m])).
    + exists (Piped chatJid (formatMessages deps [m])).
      split.
      { cbn [List.filter isDelivery]. rewrite typing_no_delivery. reflexivity. }
      split; [|right; split; [reflexivity | left; reflexivity]].
      repeat split; try reflexivity; [discriminate | exact Hadm].
    + eexists. split.
      { rewrite List.filter_app, typing_no_delivery. reflexivity. }
      split; [|right; split; [reflexivity | right; eauto]].
      repeat split; try reflexivity; [discriminate | exact Hadm].
Qed.

(** X21.  Which messages reach a container.  [onInboundMessage] pipes
    or queues a message exactly when it is not the bot's own, the chat
    equals the folder of a registered group, a channel owns the chat,
    and, for a Discord chat, text is left outside the internal blocks,
    for any other chat, the group needs no trigger or the text contains
    its trigger word.  It does so once; a Discord chat is never piped
    into a running container and is always queued with [isMain] false. *)
Theorem inbound_message_delivery
    (groups : list RegisteredGroup.t) (chatJid : string) (m : NewMessage) :
  (existsb isDelivery (onInboundMessage deps groups chatJid m) = true
   <-> exists g, admitted deps groups chatJid m g)
  /\ (List.length (List.filter isDelivery (onInboundMessage deps groups chatJid m))
      <= 1)%nat
  /\ (JS.startsWith "dc:" chatJid = true ->
      forall a, In a (onInboundMessage deps groups chatJid m) ->
      match a with
      | Enqueue _ _ _ isMain => isMain = false
      | Piped _ _ => False
      | _ => True
      end).
Proof.
  assert (Hex : forall l : list Action,
            existsb isDelivery l = true <-> List.filter isDelivery l <> []).
  { intros l. induction l as [|a l IH]; cbn [existsb List.filter].
    - split; [discriminate | intros H; contradiction].
    - destruct (isDelivery a); cbn [orb]; [split; [discriminate | reflexivity]|].
      exact IH. }
  destruct (onInboundMessage_deliveries groups chatJid m)
    as [[Hnone Hno] | (g & d & Hone & Hadm & Hshape)].
  - split; [|split].
    + rewrite Hex, Hnone. split; [intros H; contradiction|].
      intros [g Hg]. exfalso. exact (Hno g Hg).
    + rewrite Hnone. cbn. lia.
    + intros _ a Ha.
      assert (Hf : In a (List.filter isDelivery (onInboundMessage deps groups chatJid m))
                   -> False) by (rewrite Hnone; intros []).
      destruct a; try exact I; exfalso; apply Hf, List.filter_In; split;
        (exact Ha || reflexivity).
  - split; [|split].
    + rewrite Hex, Hone. split; [intros _; exists g; exact Hadm | discriminate].
    + rewrite Hone. cbn. lia.
    + intros Hdc a Ha.
      assert (Hf : isDelivery a = true -> a = d).
      { intros Hd.
        assert (Hin : In a (List.filter isDelivery
                              (onInboundMessage deps groups chatJid m)))
          by (apply List.filter_In; split; assumption).
        rewrite Hone in Hin. destruct Hin as [<- | []]. reflexivity. }
      destruct Hshape as [[_ ->] | [Hnot _]]; [|congruence].
      destruct a; try exact I.
      * specialize (Hf eq_refl). injection Hf as _ _ _ ->. reflexivity.
      * specialize (Hf eq_refl). discriminate Hf.
Qed.

End Routing.

Lemma inbound_message_delivery_witness :
  existsb Index.isDelivery
    (Index.onInboundMessage demoDeps [discordGroup] "dc:1"
       (Index.mkMessage "<internal>note</internal> hello" false false))
  = true.
Proof.
  apply (proj1 (inbound_message_delivery demoDeps [discordGroup] "dc:1"
                  (Index.mkMessage "<internal>note</internal> hello" false false))).
  exists discordGroup. unfold admitted.
  repeat split; try reflexivity; vm_compute; discriminate.
Defined.

(* ===================================================================== *)
(** * From the tool to the task store *)
(* ===================================================================== *)

Section ToolToHost.

Context (cfg : Config) (host chost : Host).

Lemma parseInt10_nonempty (v : string) (ms : Z) :
  JS.parseInt10 v = Some ms -> v <> "".
Proof. intros H ->. vm_compute in H. discriminate H. Qed.

(** X22.  What the [schedule_task] tool asks for is what gets stored.
    An interval request that the tool of a group other than the main
    one accepts and writes, when the host takes it from that group's
    namespace, creates exactly one task: for the tool's own chat, owned
    by the group, with the prompt and the interval as given, active, and
    first due one interval after the host's clock.  The chat has to be
    registered under the group's folder, the prompt must not be empty,
    and the times must lie within the range of [Date]. *)
Theorem tool_interval_request_creates_task
    (env : Tool.Env) (now : Z) (args : Tool.ScheduleArgs) (d : IpcData.t)
    (g : RegisteredGroup.t) (w : World) :
  Tool.isMain env = false ->
  Tool.schedule_type args = "interval" ->
  Tool.schedule_task chost env now args = inr d ->
  Tool.prompt args <> "" ->
  Tool.chatJid env <> "" ->
  registered w !! Tool.chatJid env = Some g ->
  RegisteredGroup.folder g = Tool.groupFolder env ->
  Z.abs (clock w) <= JS.maxTime ->
  (forall ms, JS.parseInt10 (Tool.schedule_value args) = Some ms ->
              Z.abs (clock w + ms) <= JS.maxTime) ->
  exists ms t w',
    JS.parseInt10 (Tool.schedule_value args) = Some ms /\ 0 < ms
    /\ processTaskIpc cfg host d (Tool.groupFolder env) false w = Ret tt w'
    /\ tasks w' = (tasks w ++ [t])%list
    /\ Task.group_folder t = Tool.groupFolder env
    /\ Task.chat_jid t = Tool.chatJid env
    /\ Task.prompt t = Tool.prompt args
    /\ Task.schedule_type t = "interval"
    /\ Task.schedule_value t = Tool.schedule_value args
    /\ Task.next_run t = JS.toISOString (Some (clock w + ms))
    /\ Task.status t = "active"
    /\ calls w' = calls w.
Proof.
  intros Hmain Hty Htool Hprompt Hjid Hreg Hfolder Hclock Hrange.
  unfold Tool.schedule_task, Tool.validateSchedule in Htool.
  rewrite Hty, Hmain in Htool. cbn [String.eqb Ascii.eqb Bool.eqb andb] in Htool.
  destruct (JS.parseInt10 (Tool.schedule_value args)) as [ms|] eqn:Hms;
    [|discriminate Htool].
  destruct (Z.leb_spec ms 0) as [|Hpos]; [discriminate Htool|].
  injection Htool as <-.
  specialize (Hrange ms eq_refl).
  pose proof (parseInt10_nonempty _ _ Hms) as Hvalue.
  exists ms.
  rewrite processTaskIpc_schedule by reflexivity.
  unfold schedule_task.
  cbn [IpcData.prompt IpcData.schedule_type IpcData.schedule_value
       IpcData.targetJid IpcData.context_mode].
  rewrite (truthy_Some _ Hprompt), (truthy_Some _ Hvalue), (truthy_Some _ Hjid).
  change (JS.truthy (Some "interval")) with true. cbn [andb].
  change (default "" (Some ?x)) with x. cbv zeta.
  rewrite Hreg, Hfolder, String.eqb_refl. cbn [negb andb].
  unfold computeNextRun. cbn [String.eqb Ascii.eqb Bool.eqb].
  rewrite Hms. destruct (Z.leb_spec ms 0) as [|_]; [lia|].
  unfold bind, Date_now, toISOString, JS.Date_of_number, createTask, logger, ret.
  destruct (toISOString_defined (clock w + ms)) as [s Hs].
  destruct (toISOString_defined (clock w)) as [s0 Hs0].
  rewrite (TimeClip_in_range _ Hrange), Hs.
  cbn [clock rand]. rewrite (TimeClip_in_range _ Hclock), Hs0.
  cbn [tasks set_tasks add_log calls].
  eexists _, _. repeat split; try reflexivity; try assumption.
Qed.

End ToolToHost.

Lemma tool_interval_request_creates_task_witness :
  exists d t w',
    Tool.schedule_task Demo.host aliceEnv Demo.noon everyFiveMinutes = inr d
    /\ processTaskIpc Demo.cfg Demo.host d "alice" false (Demo.world [])
       = Ret tt w'
    /\ tasks w' = [t]
    /\ Task.chat_jid t = "dc:1"
    /\ Task.next_run t = Some "2026-01-15T12:05:00.000Z".
Proof.
  destruct (Tool.schedule_task Demo.host aliceEnv Demo.noon everyFiveMinutes)
    as [e | d] eqn:Hd; [vm_compute in Hd; discriminate Hd|].
  destruct (tool_interval_request_creates_task Demo.cfg Demo.host Demo.host
              aliceEnv Demo.noon everyFiveMinutes d (Demo.group "alice")
              (Demo.world []))
    as (ms & t & w' & Hms & _ & Hrun & Htasks & _ & Hjid & _ & _ & _ & Hnext & _);
    try reflexivity; try discriminate.
  - exact Hd.
  - intros ms Hms. vm_compute in Hms. injection Hms as <-. vm_compute. discriminate.
  - exists d, t, w'. split; [reflexivity|]. split; [exact Hrun|].
    split; [exact Htasks|]. split; [exact Hjid|].
    vm_compute in Hms. injection Hms as <-. rewrite Hnext. reflexivity.
Defined.

(* ===================================================================== *)
(** * What a namespace can make the host send *)
(* ===================================================================== *)

(** X23.  Whatever the files of a namespace contain, in whatever order
    and however the handling of any of them ends, every message the
    host sends while it works through that namespace goes to a chat
    registered under the namespace's folder, unless the namespace is
    the main one; the tasks queue sends nothing at all. *)
Theorem namespace_sends_only_where_allowed
    (cfg : Config) (host : Host)
    (registeredGroups : gmap string RegisteredGroup.t) (sourceGroup : string) :
  emits (authorizedSend cfg sourceGroup registeredGroups)
    (processGroup cfg host registeredGroups sourceGroup)
  /\ forall isMain,
       emits (fun c => match c with SendMessage _ _ _ => False | _ => True end)
         (processTasks cfg host sourceGroup isMain).
Proof.
  split.
  - apply (runs_emits _ anyValue false exitZero).
    apply (runs_processGroup (Frame_callsAdded _)).
    + intros []; simpl; intros H; try exact I; contradiction.
    + intros cmd cwd _. exact I.
    + intros jid g _. exact I.
    + intros ts w. exists []. simpl. rewrite app_nil_r.
      split; [reflexivity | constructor].
    + split; try (intros; exact I).
      intros jid text fl Hmay. simpl. unfold sendAllowed.
      unfold maySend in Hmay. apply orb_true_iff in Hmay as [Hmain | Hown].
      * left. apply String.eqb_eq. exact Hmain.
      * right. destruct (registeredGroups !! jid) as [g|]; [|discriminate Hown].
        exists g. split; [reflexivity|]. apply String.eqb_eq. exact Hown.
  - intros isMain. apply (runs_emits _ anyValue false exitZero).
    apply runs_processTasks
      with (F := Frame_callsAdded _) (isMain' := false) (rg := ∅).
    + intros []; simpl; intros H; try exact I; contradiction.
    + intros cmd cwd _. exact I.
    + intros jid g _. exact I.
    + intros ts w. exists []. simpl. rewrite app_nil_r.
      split; [reflexivity | constructor].
    + split; try (intros; exact I).
      intros jid text fl Hmay. rewrite lookup_empty in Hmay.
      discriminate Hmay.
Qed.

(* ===================================================================== *)
(** * A namespace works on its own files *)
(* ===================================================================== *)

Lemma inside_below (segs rest : list string) :
  segs <> [] -> forallb plainName segs = true ->
  forallb plainName rest = true ->
  inside (absPath segs) (absPath (segs ++ rest)).
Proof.
  intros Hne Hp Hr. split.
  - unfold within. destruct rest as [|r rest].
    + rewrite List.app_nil_r, String.eqb_refl. reflexivity.
    + unfold absPath. rewrite join_app by (assumption || discriminate).
      rewrite <- !append_assoc, startsWith_app. apply orb_true_r.
  - exists (segs ++ rest)%list. split; [|split; [|reflexivity]].
    + destruct segs; [contradiction | discriminate].
    + rewrite forallb_app, Hp, Hr. reflexivity.
Qed.

Lemma requestFile_plain (queue file : string) :
  requestFile queue file -> plainName queue = true /\ plainName file = true.
Proof.
  intros (Hq & Hjson & Hs & Hne). split.
  - destruct Hq as [-> | ->]; reflexivity.
  - unfold plainName. rewrite Hs.
    destruct (String.eqb_spec file "") as [|_]; [contradiction|].
    destruct (String.eqb_spec file ".") as [-> | _]; [discriminate Hjson|].
    destruct (String.eqb_spec file "..") as [-> | _]; [discriminate Hjson|].
    reflexivity.
Qed.

Section NamespaceFiles.

Context (cfg : Config) (sourceGroup : string) (dsegs : list string).
Context (Hne : dsegs <> []) (Hplain : forallb plainName dsegs = true).
Context (E : DATA_DIR cfg = absPath dsegs).
Context (Hsrc : plainName sourceGroup = true).

Lemma base_segs :
  (dsegs ++ ["ipc"])%list <> []
  /\ forallb plainName (dsegs ++ ["ipc"]) = true.
Proof.
  split; [destruct dsegs; discriminate|].
  rewrite forallb_app, Hplain. reflexivity.
Qed.

Lemma namespace_segs :
  ((dsegs ++ ["ipc"]) ++ [sourceGroup])%list <> []
  /\ forallb plainName ((dsegs ++ ["ipc"]) ++ [sourceGroup]) = true.
Proof.
  split; [destruct (dsegs ++ ["ipc"])%list; discriminate|].
  rewrite !forallb_app, Hplain. cbn [forallb]. rewrite Hsrc. reflexivity.
Qed.

Lemma join_below (rest : list string) :
  forallb plainName rest = true ->
  Path.join (ipcBaseDir cfg :: sourceGroup :: rest)
  = absPath (((dsegs ++ ["ipc"]) ++ [sourceGroup]) ++ rest).
Proof.
  intros Hrest. destruct base_segs as [Hne1 Hplain1].
  rewrite (ipcBaseDir_normal cfg dsegs Hne Hplain E),
    <- (List.app_assoc (dsegs ++ ["ipc"]) [sourceGroup] rest).
  apply join_absPath; try assumption.
  cbn [app forallb]. rewrite Hsrc, Hrest. reflexivity.
Qed.

Lemma namespaceDir_normal :
  namespaceDir cfg sourceGroup = absPath ((dsegs ++ ["ipc"]) ++ [sourceGroup]).
Proof.
  unfold namespaceDir. rewrite (join_below []) by reflexivity.
  rewrite List.app_nil_r. reflexivity.
Qed.

Lemma requestPath_inside (queue file : string) :
  requestFile queue file ->
  inside (namespaceDir cfg sourceGroup) (requestPath cfg sourceGroup queue file).
Proof.
  intros Hfile. destruct (requestFile_plain _ _ Hfile) as [Hq Hf].
  destruct namespace_segs as [Hne2 Hplain2].
  unfold requestPath.
  rewrite (join_below [queue]) by (cbn [forallb]; rewrite Hq; reflexivity).
  rewrite join_absPath.
  - rewrite <- List.app_assoc, namespaceDir_normal.
    apply inside_below; try assumption.
    cbn [app forallb]. rewrite Hq, Hf. reflexivity.
  - destruct ((dsegs ++ ["ipc"]) ++ [sourceGroup])%list; discriminate.
  - rewrite forallb_app, Hplain2. cbn [forallb]. rewrite Hq. reflexivity.
  - cbn [forallb]. rewrite Hf. reflexivity.
Qed.

Lemma errorPath_inside (file : string) :
  JS.includes "/" file = false ->
  inside (ipcErrorsDir cfg)
    (Path.join [Path.join [ipcBaseDir cfg; "errors"];
                sourceGroup +:+ "-" +:+ file]).
Proof.
  intros Hs. destruct base_segs as [Hne1 Hplain1].
  destruct (plainName_spec _ Hsrc) as [Hsrc' _].
  assert (Hname : plainName (sourceGroup +:+ "-" +:+ file) = true).
  { change ("-" +:+ file) with (String "-"%char file).
    destruct (dash_not_dots sourceGroup file) as (H0 & H1 & H2).
    unfold plainName.
    rewrite includes_slash_app, includes_slash_cons, Hsrc', Hs.
    apply String.eqb_neq in H0, H1, H2. rewrite H0, H1, H2. reflexivity. }
  assert (Hdir : ipcErrorsDir cfg = absPath ((dsegs ++ ["ipc"]) ++ ["errors"])).
  { unfold ipcErrorsDir. rewrite (ipcBaseDir_normal cfg dsegs Hne Hplain E).
    apply join_absPath; [assumption | assumption | reflexivity]. }
  fold (ipcErrorsDir cfg). rewrite Hdir, join_absPath.
  - apply inside_below.
    + destruct (dsegs ++ ["ipc"])%list; discriminate.
    + rewrite forallb_app, Hplain1. reflexivity.
    + cbn [forallb]. rewrite Hname. reflexivity.
  - destruct (dsegs ++ ["ipc"])%list; discriminate.
  - rewrite forallb_app, Hplain1. reflexivity.
  - cbn [forallb]. rewrite Hname. reflexivity.
Qed.

Lemma attachment_inside (d : Fs.t) (files : option (list JsonItem)) (p : string) :
  In p (resolveFiles d
          (Path.join [ipcBaseDir cfg; sourceGroup; "attachments"]) files) ->
  inside (namespaceDir cfg sourceGroup) p.
Proof.
  intros Hin. destruct namespace_segs as [Hne2 Hplain2].
  destruct (resolveFiles_sound _ _ _ _ Hin) as (f & _ & Hf & Hp & _).
  rewrite (join_below ["attachments"]) in Hp by reflexivity.
  rewrite join_name in Hp;
    [| assumption
     | rewrite forallb_app, Hplain2; reflexivity
     | exact Hf].
  rewrite namespaceDir_normal. subst p. clear Hin.
  destruct (String.eqb_spec f "") as [_ | Hf0]; cbn [orb];
    [apply inside_below; try assumption; reflexivity|].
  destruct (String.eqb_spec f ".") as [_ | Hf1];
    [apply inside_below; try assumption; reflexivity|].
  destruct (String.eqb_spec f "..") as [_ | Hf2].
  - rewrite <- (List.app_nil_r ((dsegs ++ ["ipc"]) ++ [sourceGroup])) at 2.
    apply inside_below; try assumption; reflexivity.
  - rewrite <- absPath_snoc
      by (destruct ((dsegs ++ ["ipc"]) ++ [sourceGroup])%list; discriminate).
    rewrite <- (List.app_assoc _ ["attachments"] [f]).
    apply inside_below; try assumption.
    cbn [app forallb]. unfold plainName at 2. rewrite Hf.
    apply String.eqb_neq in Hf0, Hf1, Hf2. rewrite Hf0, Hf1, Hf2. reflexivity.
Qed.

Lemma requestPath_literal (queue file : string) :
  requestFile queue file ->
  requestPath cfg sourceGroup queue file
  = ipcBaseDir cfg +:+ "/" +:+ sourceGroup +:+ "/" +:+ queue +:+ "/" +:+ file.
Proof.
  intros Hfile. destruct (requestFile_plain _ _ Hfile) as [Hq Hf].
  destruct namespace_segs as [Hne2 Hplain2].
  destruct base_segs as [Hne1 Hplain1].
  unfold requestPath.
  rewrite (join_below [queue]) by (cbn [forallb]; rewrite Hq; reflexivity).
  rewrite join_absPath.
  - rewrite (absPath_snoc _ file), (absPath_snoc _ queue),
      (absPath_snoc _ sourceGroup), !append_assoc,
      (ipcBaseDir_normal cfg dsegs Hne Hplain E);
      [reflexivity | assumption | assumption |].
    destruct ((dsegs ++ ["ipc"]) ++ [sourceGroup])%list; discriminate.
  - destruct ((dsegs ++ ["ipc"]) ++ [sourceGroup])%list; discriminate.
  - rewrite forallb_app, Hplain2. cbn [forallb]. rewrite Hq. reflexivity.
  - cbn [forallb]. rewrite Hf. reflexivity.
Qed.

End NamespaceFiles.

(** X24.  A namespace works on its own files.  With the data directory
    in normal form and a source namespace whose name is one path
    segment, every file that the processing of the namespace reads or
    unlinks lies in the directory of that namespace: the request files
    of its two queues and the attachments it forwards.  Every file it
    moves is taken from there and put into the errors directory.  All
    these paths are in normal form, so none of them climbs out again. *)
Theorem namespace_touches_own_files
    (cfg : Config) (host : Host)
    (registeredGroups : gmap string RegisteredGroup.t) (sourceGroup : string) :
  normalPath (DATA_DIR cfg) ->
  plainName sourceGroup = true ->
  emits (staysInNamespace cfg sourceGroup)
    (processGroup cfg host registeredGroups sourceGroup).
Proof.
  intros (dsegs & Hne & Hplain & E) Hsrc.
  apply (runs_emits _ anyValue false exitZero).
  apply (runs_processGroup (Frame_callsAdded _)).
  - intros []; simpl; intros H; try exact I; contradiction.
  - intros cmd cwd _. exact I.
  - intros jid g _. exact I.
  - intros ts w. exists []. simpl. rewrite app_nil_r.
    split; [reflexivity | constructor].
  - split; try (intros; exact I).
    + intros queue file Hfile.
      exact (requestPath_inside cfg sourceGroup dsegs Hne Hplain E Hsrc _ _ Hfile).
    + intros queue file Hfile.
      exact (requestPath_inside cfg sourceGroup dsegs Hne Hplain E Hsrc _ _ Hfile).
    + intros queue file Hfile. split.
      * exact (requestPath_inside cfg sourceGroup dsegs Hne Hplain E Hsrc _ _ Hfile).
      * apply (errorPath_inside cfg sourceGroup dsegs Hne Hplain E Hsrc).
        apply Hfile.
    + intros d files p Hp.
      exact (attachment_inside cfg sourceGroup dsegs Hne Hplain E Hsrc _ _ _ Hp).
Qed.

Lemma namespace_touches_own_files_witness :
  normalPath (DATA_DIR Demo.cfg)
  /\ plainName "alice" = true
  /\ emits (staysInNamespace Demo.cfg "alice")
       (processGroup Demo.cfg Demo.host Demo.groups "alice").
Proof.
  assert (H : normalPath (DATA_DIR Demo.cfg))
    by (exists ["srv"; "claw"; "data"]; repeat split; discriminate).
  split; [exact H|]. split; [reflexivity|].
  apply (namespace_touches_own_files Demo.cfg Demo.host Demo.groups "alice" H).
  reflexivity.
Defined.

(* ===================================================================== *)
(** * What a poll reads *)
(* ===================================================================== *)

(** X14.  A poll reads request files only.  With the data directory in
    normal form, the path of every file it reads is the path of the
    mailbox followed by exactly three segments: the name of a namespace
    other than [errors], then [messages] or [tasks], then a name ending
    in [.json].  So neither a file still being written under its
    temporary name, nor a request already moved to the errors directory,
    nor any file outside the mailbox is ever read. *)
Theorem poll_reads_only_request_files (cfg : Config) (host : Host) :
  normalPath (DATA_DIR cfg) ->
  emits (requestRead cfg) (processIpcFiles cfg host).
Proof.
  intros (dsegs & Hne & Hplain & E).
  apply (runs_emits _ anyValue false exitZero).
  apply (runs_processIpcFiles (Frame_callsAdded _)).
  - intros []; simpl; intros H; try exact I; contradiction.
  - intros cmd cwd _. exact I.
  - intros jid g _. exact I.
  - intros ts w. exists []. simpl. rewrite app_nil_r.
    split; [reflexivity | constructor].
  - intros g isMain rg Hg Hplaing. split; try (intros; exact I).
    intros q f Hfile. simpl. exists g, q, f.
    split; [exact (requestPath_literal cfg g dsegs Hne Hplain E Hplaing q f Hfile)|].
    destruct (requestFile_plain _ _ Hfile) as [_ Hf].
    destruct Hfile as (Hq & Hjson & _). auto.
Qed.

Lemma poll_reads_only_request_files_witness :
  normalPath (DATA_DIR Demo.cfg)
  /\ emits (requestRead Demo.cfg) (processIpcFiles Demo.cfg Demo.host).
Proof.
  assert (H : normalPath (DATA_DIR Demo.cfg))
    by (exists ["srv"; "claw"; "data"]; repeat split; discriminate).
  split; [exact H|].
  exact (poll_reads_only_request_files Demo.cfg Demo.host H).
Defined.
